(** * agentkit-aws-cdk: the AgentCore stack builder and the deployment CLIs

    A shallow embedding of
    - [agentcore.NewAgentCoreStack] and the [create*] methods it calls
      (package [agentcore], stack construction),
    - [cmd/push-secrets] (classification of [.env] entries into secret groups),
    - [cmd/deploy] (secret push, CDK bootstrap, CDK deploy in sequence),
    followed by the properties proved about them.

    Go maps are [gmap]s; a [range] over a map runs in an order chosen by an
    oracle, because Go leaves that order unspecified.  The CDK construct tree
    of the stack is the list of constructs in creation order.  A nil pointer
    dereference and an explicit [panic] are the [Panic] result. *)

From Stdlib Require Import ZArith Lia Ascii.
From stdpp Require Import base option list gmap strings pretty.

Open Scope Z_scope.
Open Scope string_scope.
Open Scope list_scope.

(** ** Go strings *)

Module GoStrings.

(** [strings.HasPrefix]. *)
Fixpoint HasPrefix (s p : string) : bool :=
  match p, s with
  | EmptyString, _ => true
  | String _ _, EmptyString => false
  | String b p', String a s' => if decide (a = b) then HasPrefix s' p' else false
  end.

Fixpoint inCutset (c : ascii) (cutset : string) : bool :=
  match cutset with
  | EmptyString => false
  | String d rest => if decide (c = d) then true else inCutset c rest
  end.

(** [strings.TrimLeft] for a cutset of single-byte characters. *)
Fixpoint TrimLeft (s cutset : string) : string :=
  match s with
  | EmptyString => EmptyString
  | String c rest => if inCutset c cutset then TrimLeft rest cutset else s
  end.

(** [strings.TrimRight] for a cutset of single-byte characters. *)
Fixpoint TrimRight (s cutset : string) : string :=
  match s with
  | EmptyString => EmptyString
  | String c rest =>
      match TrimRight rest cutset with
      | EmptyString => if inCutset c cutset then EmptyString else String c EmptyString
      | r => String c r
      end
  end.

(** [strings.Trim]: leading and trailing characters of the cutset removed. *)
Definition Trim (s cutset : string) : string := TrimRight (TrimLeft s cutset) cutset.

(** [strings.Join]. *)
Fixpoint Join (elems : list string) (sep : string) : string :=
  match elems with
  | [] => ""
  | [e] => e
  | e :: rest => e +:+ sep +:+ Join rest sep
  end.

End GoStrings.

(** ** Configuration (types of package [iac], which [agentcore] re-exports)

    The records list the fields the builder reads.  Pointer fields
    ([*VPCConfig], ...) are options, [None] being nil; [Tags] is an option
    as well, since [convertTags] tells a nil map from an empty one. *)

Module iac.

Record AgentConfig := {
  Name : string;
  agent_Description : string;
  ContainerImage : string;
  MemoryMB : Z;
  TimeoutSeconds : Z;
  Environment : gmap string string;
  SecretsARNs : list string;
  Protocol : string;
  IsDefault : bool;
}.

Record VPCConfig := {
  VPCID : string;
  SubnetIDs : list string;
  SecurityGroupIDs : list string;
  CreateVPC : bool;
  VPCCidr : string;
  MaxAZs : Z;
  EnableVPCEndpoints : bool;
}.

Record SecretsConfig := {
  CreateSecrets : bool;
  SecretName : string;
  SecretValues : gmap string string;
}.

Record ObservabilityConfig := {
  Provider : string;
  Project : string;
  APIKeySecretARN : string;
  obs_Endpoint : string;
  EnableCloudWatchLogs : bool;
  LogRetentionDays : Z;
}.

Record IAMConfig := {
  RoleARN : string;
  EnableBedrockAccess : bool;
  BedrockModelIDs : list string;
  AdditionalPolicies : list string;
  PermissionsBoundaryARN : string;
}.

Record GatewayConfig := {
  Enabled : bool;
  gw_Name : string;
  gw_Description : string;
}.

Record StackConfig := {
  StackName : string;
  Description : string;
  Agents : list AgentConfig;
  VPC : option VPCConfig;
  Secrets : option SecretsConfig;
  Observability : option ObservabilityConfig;
  IAM : option IAMConfig;
  Gateway : option GatewayConfig;
  Tags : option (gmap string string);
  RemovalPolicy : string;
}.

End iac.

(** ** The stack builder (package [agentcore]) *)

Module AgentCore.

Import iac.

(** *** Constructs *)

(** A value handed to a construct: a plain string, or a reference to an
    attribute of another construct of the stack (a CDK token). *)
Inductive Token :=
| Literal (s : string)
| Attr (logicalId : string) (attribute : string).

Inductive RetentionDays :=
| ONE_DAY | ONE_WEEK | TWO_WEEKS | ONE_MONTH | THREE_MONTHS
| SIX_MONTHS | ONE_YEAR | INFINITE.

Inductive RemovalPolicyKind := RemovalPolicy_DESTROY | RemovalPolicy_RETAIN.

Inductive SubnetType := SubnetType_PUBLIC | SubnetType_PRIVATE_WITH_EGRESS.

Record SubnetConfiguration := {
  subnet_Name : string;
  subnet_Type : SubnetType;
  CidrMask : Z;
}.

(** [AddIngressRule peer connection description remoteRule]. *)
Record IngressRule := {
  peer : string;
  connection : string;
  rule_Description : string;
  remoteRule : bool;
}.

(** What a role is granted: a statement added with [AddToPolicy], or a
    [GrantRead] of a secret. *)
Inductive Grant :=
| PolicyStatement (Actions : list string) (Resources : list string)
| GrantRead (secret : Token).

Record RoleProps := {
  RoleName : string;
  role_Description : string;
  AssumedBy : list string;
  Policy : list Grant;
  ManagedPolicies : list string;
  PermissionsBoundary : option string;
}.

Record CfnRuntimeProps := {
  AgentRuntimeName : string;
  rt_RoleArn : Token;
  rt_Description : string;
  ContainerUri : string;
  NetworkMode : string;
  SecurityGroups : list Token;
  Subnets : list Token;
  EnvironmentVariables : gmap string string;
  ProtocolConfiguration : string;
  rt_Tags : gmap string string;
  (** [None]: no lifecycle configuration; [Some m]: one, with [MaxLifetime] [m]. *)
  LifecycleConfiguration : option (option Z);
}.

Record CfnRuntimeEndpointProps := {
  ep_Name : string;
  AgentRuntimeId : Token;
  ep_Description : string;
  ep_Tags : gmap string string;
}.

Record CfnGatewayProps := {
  gwp_Name : string;
  gwp_Description : string;
  AuthorizerType : string;
  ProtocolType : string;
  gwp_RoleArn : Token;
  gwp_Tags : gmap string string;
}.

Inductive Properties :=
| VpcLookup (VpcId : string)
| VpcProps (VpcName IpAddresses : string) (MaxAzs NatGateways : Z)
    (EnableDnsHostnames EnableDnsSupport : bool)
    (Subnetting : list SubnetConfiguration)
| InterfaceEndpoint (vpc : string) (Service : string)
| GatewayEndpoint (vpc : string) (Service : string)
| SecurityGroupImport (securityGroupId : string)
| SecurityGroupProps (Vpc : option string) (SecurityGroupName sgDescription : string)
    (AllowAllOutbound : bool) (Ingress : list IngressRule)
| SecretProps (secretName secretDescription : string)
    (SecretObjectValue : gmap string string)
| SecretFromArn (arn : string)
| RoleFromArn (arn : string)
| Role (props : RoleProps)
| ManagedPolicyFromArn (arn : string)
| LogGroupProps (LogGroupName : string) (Retention : RetentionDays)
    (removal : RemovalPolicyKind)
| AgentScope
| CfnRuntime (props : CfnRuntimeProps)
| CfnRuntimeEndpoint (props : CfnRuntimeEndpointProps)
| CfnGateway (props : CfnGatewayProps).

(** The kinds of resource node. *)
Inductive Kind :=
| KNetwork | KNetworkEndpoint | KSecurityBoundary | KIdentity | KSecretStore
| KSecretReference | KPolicyReference | KLogSink | KAgentScope
| KRuntime | KEndpoint | KGateway.

#[global] Instance Kind_eq_dec : EqDecision Kind.
Proof. solve_decision. Defined.

#[global] Instance Token_eq_dec : EqDecision Token.
Proof. solve_decision. Defined.

Definition kindOf (p : Properties) : Kind :=
  match p with
  | VpcLookup _ | VpcProps _ _ _ _ _ _ _ => KNetwork
  | InterfaceEndpoint _ _ | GatewayEndpoint _ _ => KNetworkEndpoint
  | SecurityGroupImport _ | SecurityGroupProps _ _ _ _ _ => KSecurityBoundary
  | SecretProps _ _ _ => KSecretStore
  | SecretFromArn _ => KSecretReference
  | RoleFromArn _ | Role _ => KIdentity
  | ManagedPolicyFromArn _ => KPolicyReference
  | LogGroupProps _ _ _ => KLogSink
  | AgentScope => KAgentScope
  | CfnRuntime _ => KRuntime
  | CfnRuntimeEndpoint _ => KEndpoint
  | CfnGateway _ => KGateway
  end.

(** A construct of the stack: its id in the scope and its properties. *)
Record ResourceNode := {
  logicalId : string;
  properties : Properties;
}.

Definition kind (n : ResourceNode) : Kind := kindOf (properties n).

Definition tokenRef (t : Token) : list string :=
  match t with
  | Literal _ => []
  | Attr id _ => [id]
  end.

Definition grantRefs (g : Grant) : list string :=
  match g with
  | PolicyStatement _ _ => []
  | GrantRead t => tokenRef t
  end.

(** The constructs a node refers to through its properties: what it
    depends on. *)
Definition dependsOn (n : ResourceNode) : list string :=
  match properties n with
  | InterfaceEndpoint vpc _ | GatewayEndpoint vpc _ => [vpc]
  | SecurityGroupProps (Some vpc) _ _ _ _ => [vpc]
  | Role r => flat_map grantRefs (Policy r)
  | CfnRuntime r =>
      tokenRef (rt_RoleArn r) ++ flat_map tokenRef (SecurityGroups r)
        ++ flat_map tokenRef (Subnets r)
  | CfnRuntimeEndpoint e => tokenRef (AgentRuntimeId e)
  | CfnGateway g => tokenRef (gwp_RoleArn g)
  | _ => []
  end.

Record CfnOutput := {
  out_id : string;
  Value : Token;
  out_Description : string;
}.

Record AgentConstruct := {
  Construct : ResourceNode;
  ac_Name : string;
  ac_Config : AgentConfig;
}.

Record StackProps := {
  sp_StackName : string;
  sp_Description : string;
  sp_Tags : option (gmap string string);
}.

(** [AgentCoreStack].  [Stack] stands for the embedded [awscdk.Stack]: its
    properties, with [Resources] and [Outputs] the constructs and the
    outputs created in its scope so far.  [ranges] counts the map
    iterations performed so far; it indexes the iteration-order oracle. *)
Record AgentCoreStack := {
  Stack : StackProps;
  Resources : list ResourceNode;
  Outputs : list CfnOutput;
  Config : StackConfig;
  VPC : option ResourceNode;
  SecurityGroup : option ResourceNode;
  ExecutionRole : option ResourceNode;
  Secret : option ResourceNode;
  LogGroup : option ResourceNode;
  Agents : gmap string AgentConstruct;
  Runtimes : gmap string ResourceNode;
  Endpoints : gmap string ResourceNode;
  Gateway : option ResourceNode;
  ranges : nat;
}.

(** Field updates. *)
Definition with_Resources (f : list ResourceNode → list ResourceNode) (s : AgentCoreStack) :=
  {| Stack := Stack s; Resources := f (Resources s); Outputs := Outputs s;
     Config := Config s; VPC := VPC s; SecurityGroup := SecurityGroup s;
     ExecutionRole := ExecutionRole s; Secret := Secret s; LogGroup := LogGroup s;
     Agents := Agents s; Runtimes := Runtimes s; Endpoints := Endpoints s;
     Gateway := Gateway s; ranges := ranges s |}.
Definition with_Outputs (f : list CfnOutput → list CfnOutput) (s : AgentCoreStack) :=
  {| Stack := Stack s; Resources := Resources s; Outputs := f (Outputs s);
     Config := Config s; VPC := VPC s; SecurityGroup := SecurityGroup s;
     ExecutionRole := ExecutionRole s; Secret := Secret s; LogGroup := LogGroup s;
     Agents := Agents s; Runtimes := Runtimes s; Endpoints := Endpoints s;
     Gateway := Gateway s; ranges := ranges s |}.
Definition with_VPC (v : option ResourceNode) (s : AgentCoreStack) :=
  {| Stack := Stack s; Resources := Resources s; Outputs := Outputs s;
     Config := Config s; VPC := v; SecurityGroup := SecurityGroup s;
     ExecutionRole := ExecutionRole s; Secret := Secret s; LogGroup := LogGroup s;
     Agents := Agents s; Runtimes := Runtimes s; Endpoints := Endpoints s;
     Gateway := Gateway s; ranges := ranges s |}.
Definition with_SecurityGroup (v : option ResourceNode) (s : AgentCoreStack) :=
  {| Stack := Stack s; Resources := Resources s; Outputs := Outputs s;
     Config := Config s; VPC := VPC s; SecurityGroup := v;
     ExecutionRole := ExecutionRole s; Secret := Secret s; LogGroup := LogGroup s;
     Agents := Agents s; Runtimes := Runtimes s; Endpoints := Endpoints s;
     Gateway := Gateway s; ranges := ranges s |}.
Definition with_ExecutionRole (v : option ResourceNode) (s : AgentCoreStack) :=
  {| Stack := Stack s; Resources := Resources s; Outputs := Outputs s;
     Config := Config s; VPC := VPC s; SecurityGroup := SecurityGroup s;
     ExecutionRole := v; Secret := Secret s; LogGroup := LogGroup s;
     Agents := Agents s; Runtimes := Runtimes s; Endpoints := Endpoints s;
     Gateway := Gateway s; ranges := ranges s |}.
Definition with_Secret (v : option ResourceNode) (s : AgentCoreStack) :=
  {| Stack := Stack s; Resources := Resources s; Outputs := Outputs s;
     Config := Config s; VPC := VPC s; SecurityGroup := SecurityGroup s;
     ExecutionRole := ExecutionRole s; Secret := v; LogGroup := LogGroup s;
     Agents := Agents s; Runtimes := Runtimes s; Endpoints := Endpoints s;
     Gateway := Gateway s; ranges := ranges s |}.
Definition with_LogGroup (v : option ResourceNode) (s : AgentCoreStack) :=
  {| Stack := Stack s; Resources := Resources s; Outputs := Outputs s;
     Config := Config s; VPC := VPC s; SecurityGroup := SecurityGroup s;
     ExecutionRole := ExecutionRole s; Secret := Secret s; LogGroup := v;
     Agents := Agents s; Runtimes := Runtimes s; Endpoints := Endpoints s;
     Gateway := Gateway s; ranges := ranges s |}.
Definition with_Agents (f : gmap string AgentConstruct → gmap string AgentConstruct)
    (s : AgentCoreStack) :=
  {| Stack := Stack s; Resources := Resources s; Outputs := Outputs s;
     Config := Config s; VPC := VPC s; SecurityGroup := SecurityGroup s;
     ExecutionRole := ExecutionRole s; Secret := Secret s; LogGroup := LogGroup s;
     Agents := f (Agents s); Runtimes := Runtimes s; Endpoints := Endpoints s;
     Gateway := Gateway s; ranges := ranges s |}.
Definition with_Runtimes (f : gmap string ResourceNode → gmap string ResourceNode)
    (s : AgentCoreStack) :=
  {| Stack := Stack s; Resources := Resources s; Outputs := Outputs s;
     Config := Config s; VPC := VPC s; SecurityGroup := SecurityGroup s;
     ExecutionRole := ExecutionRole s; Secret := Secret s; LogGroup := LogGroup s;
     Agents := Agents s; Runtimes := f (Runtimes s); Endpoints := Endpoints s;
     Gateway := Gateway s; ranges := ranges s |}.
Definition with_Endpoints (f : gmap string ResourceNode → gmap string ResourceNode)
    (s : AgentCoreStack) :=
  {| Stack := Stack s; Resources := Resources s; Outputs := Outputs s;
     Config := Config s; VPC := VPC s; SecurityGroup := SecurityGroup s;
     ExecutionRole := ExecutionRole s; Secret := Secret s; LogGroup := LogGroup s;
     Agents := Agents s; Runtimes := Runtimes s; Endpoints := f (Endpoints s);
     Gateway := Gateway s; ranges := ranges s |}.
Definition with_Gateway (v : option ResourceNode) (s : AgentCoreStack) :=
  {| Stack := Stack s; Resources := Resources s; Outputs := Outputs s;
     Config := Config s; VPC := VPC s; SecurityGroup := SecurityGroup s;
     ExecutionRole := ExecutionRole s; Secret := Secret s; LogGroup := LogGroup s;
     Agents := Agents s; Runtimes := Runtimes s; Endpoints := Endpoints s;
     Gateway := v; ranges := ranges s |}.
Definition with_ranges (f : nat → nat) (s : AgentCoreStack) :=
  {| Stack := Stack s; Resources := Resources s; Outputs := Outputs s;
     Config := Config s; VPC := VPC s; SecurityGroup := SecurityGroup s;
     ExecutionRole := ExecutionRole s; Secret := Secret s; LogGroup := LogGroup s;
     Agents := Agents s; Runtimes := Runtimes s; Endpoints := Endpoints s;
     Gateway := Gateway s; ranges := f (ranges s) |}.

(** *** The builder monad: the stack [s] threaded through, or a panic *)

Inductive Result (A : Type) :=
| Ok (a : A)
| Panic (msg : string).
Arguments Ok {A} a.
Arguments Panic {A} msg.

Definition Build (A : Type) : Type := AgentCoreStack → Result (A * AgentCoreStack).

#[global] Instance Build_ret : MRet Build := λ A a s, Ok (a, s).
#[global] Instance Build_bind : MBind Build := λ A B f m s,
  match m s with
  | Ok (a, s') => f a s'
  | Panic msg => Panic msg
  end.

Definition get : Build AgentCoreStack := λ s, Ok (s, s).
Definition modify (f : AgentCoreStack → AgentCoreStack) : Build unit := λ s, Ok ((), f s).
Definition panic {A} (msg : string) : Build A := λ _, Panic msg.

Definition nilDereference : string :=
  "runtime error: invalid memory address or nil pointer dereference".

(** Use of a pointer or interface value: nil panics. *)
Definition deref {A} (p : option A) : Build A :=
  match p with
  | Some a => mret a
  | None => panic nilDereference
  end.

(** A construct created in the scope of the stack. *)
Definition newConstruct (id : string) (p : Properties) : Build ResourceNode :=
  let n := {| logicalId := id; properties := p |} in
  modify (with_Resources (λ l, l ++ [n]));; mret n.

Definition NewCfnOutput (id : string) (value : Token) (description : string) : Build unit :=
  modify (with_Outputs (λ l, l ++ [{| out_id := id; Value := value;
                                       out_Description := description |}])).

(** Attributes of constructs. *)
Definition VpcId (vpc : ResourceNode) : Token :=
  match properties vpc with
  | VpcLookup id => Literal id
  | _ => Attr (logicalId vpc) "VpcId"
  end.
Definition SecurityGroupId (sg : ResourceNode) : Token :=
  match properties sg with
  | SecurityGroupImport id => Literal id
  | _ => Attr (logicalId sg) "GroupId"
  end.
Definition RoleArn (role : ResourceNode) : Token :=
  match properties role with
  | RoleFromArn arn => Literal arn
  | _ => Attr (logicalId role) "Arn"
  end.
Definition SecretArn (secret : ResourceNode) : Token :=
  match properties secret with
  | SecretFromArn arn => Literal arn
  | _ => Attr (logicalId secret) "SecretArn"
  end.
Definition LogGroupName (lg : ResourceNode) : Token := Attr (logicalId lg) "LogGroupName".
Definition AttrAgentRuntimeArn (r : ResourceNode) : Token := Attr (logicalId r) "AgentRuntimeArn".
Definition AttrAgentRuntimeId (r : ResourceNode) : Token := Attr (logicalId r) "AgentRuntimeId".
Definition AttrAgentRuntimeEndpointArn (e : ResourceNode) : Token :=
  Attr (logicalId e) "AgentRuntimeEndpointArn".
Definition AttrGatewayArn (g : ResourceNode) : Token := Attr (logicalId g) "GatewayArn".
Definition AttrGatewayIdentifier (g : ResourceNode) : Token := Attr (logicalId g) "GatewayIdentifier".
Definition AttrGatewayUrl (g : ResourceNode) : Token := Attr (logicalId g) "GatewayUrl".

(** The order in which the [n]-th [range] of a run visits a map. *)
Definition RangeOrder : Type := nat → gmap string string → list (string * string).

(** Go promises that a [range] visits every entry exactly once. *)
Definition validOrder (order : RangeOrder) : Prop :=
  ∀ n m, order n m ≡ₚ map_to_list m.

(** *** The builder *)

Section Builder.

(** The order of map iteration. *)
Variable order : RangeOrder.

(** [IVpc.PrivateSubnets] of a VPC construct, as the [SubnetId] of each
    subnet; [None] is a nil result.  The subnets are the CDK's. *)
Variable PrivateSubnets : ResourceNode → option (list Token).

(** [for k, v := range src { dst[k] = v }]. *)
Definition rangeCopy (src dst : gmap string string) : Build (gmap string string) :=
  s ← get;
  modify (with_ranges S);;
  mret (foldl (λ acc kv, <[kv.1 := kv.2]> acc) dst (order (ranges s) src)).

(** [convertTags]. *)
Definition convertTags (tags : option (gmap string string))
    : Build (option (gmap string string)) :=
  match tags with
  | None => mret None
  | Some tags => result ← rangeCopy tags ∅; mret (Some result)
  end.

(** A nil map ranges as the empty map. *)
Definition entries (tags : option (gmap string string)) : gmap string string :=
  default ∅ tags.

(** [createVPCEndpoints]. *)
Definition createVPCEndpoints : Build unit :=
  s ← get;
  match VPC s with
  | Some {| logicalId := vpc; properties := VpcProps _ _ _ _ _ _ _ |} =>
      newConstruct "BedrockEndpoint" (InterfaceEndpoint vpc "BEDROCK");;
      newConstruct "BedrockRuntimeEndpoint" (InterfaceEndpoint vpc "BEDROCK_RUNTIME");;
      newConstruct "SecretsManagerEndpoint" (InterfaceEndpoint vpc "SECRETS_MANAGER");;
      newConstruct "LogsEndpoint" (InterfaceEndpoint vpc "CLOUDWATCH_LOGS");;
      newConstruct "EcrApiEndpoint" (InterfaceEndpoint vpc "ECR");;
      newConstruct "EcrDkrEndpoint" (InterfaceEndpoint vpc "ECR_DOCKER");;
      newConstruct "S3Endpoint" (GatewayEndpoint vpc "S3");;
      mret ()
  | _ => mret ()
  end.

(** [createVPC]. *)
Definition createVPC : Build unit :=
  s ← get;
  vpcConfig ← deref (iac.VPC (Config s));
  if negb (String.eqb (VPCID vpcConfig) "") then
    vpc ← newConstruct "VPC" (VpcLookup (VPCID vpcConfig));
    modify (with_VPC (Some vpc))
  else if CreateVPC vpcConfig then
    vpc ← newConstruct "VPC"
      (VpcProps (StackName (Config s) +:+ "-vpc") (VPCCidr vpcConfig)
         (MaxAZs vpcConfig) 1 true true
         [ {| subnet_Name := "Public"; subnet_Type := SubnetType_PUBLIC; CidrMask := 24 |};
           {| subnet_Name := "Private"; subnet_Type := SubnetType_PRIVATE_WITH_EGRESS;
              CidrMask := 24 |} ]);
    modify (with_VPC (Some vpc));;
    if EnableVPCEndpoints vpcConfig then createVPCEndpoints else mret ()
  else mret ().

(** [createSecurityGroup]. *)
Definition createSecurityGroup : Build unit :=
  s ← get;
  vpcConfig ← deref (iac.VPC (Config s));
  match SecurityGroupIDs vpcConfig with
  | id0 :: _ =>
      sg ← newConstruct "SecurityGroup" (SecurityGroupImport id0);
      modify (with_SecurityGroup (Some sg))
  | [] =>
      sg ← newConstruct "SecurityGroup"
        (SecurityGroupProps (logicalId <$> VPC s)
           (StackName (Config s) +:+ "-sg")
           ("Security group for " +:+ StackName (Config s) +:+ " AgentCore agents")
           true
           [ {| peer := "SecurityGroup"; connection := "ALL_TRAFFIC";
                rule_Description := "Allow communication between agents";
                remoteRule := false |} ]);
      modify (with_SecurityGroup (Some sg))
  end.

(** [createSecrets].  [secretJSON] is filled and never read. *)
Definition createSecrets : Build unit :=
  s ← get;
  match Secrets (Config s) with
  | None => mret ()
  | Some secretsConfig =>
      if CreateSecrets secretsConfig && negb (bool_decide (size (SecretValues secretsConfig) = 0%nat))
      then
        let secretName :=
          if String.eqb (SecretName secretsConfig) ""
          then StackName (Config s) +:+ "-secrets"
          else SecretName secretsConfig in
        secretJSON ← rangeCopy (SecretValues secretsConfig) ∅;
        secret ← newConstruct "Secrets"
          (SecretProps secretName
             ("Secrets for " +:+ StackName (Config s) +:+ " AgentCore agents") ∅);
        modify (with_Secret (Some secret))
      else mret ()
  end.

Definition AddToPolicy (statement : Grant) (role : RoleProps) : RoleProps :=
  {| RoleName := RoleName role; role_Description := role_Description role;
     AssumedBy := AssumedBy role; Policy := Policy role ++ [statement];
     ManagedPolicies := ManagedPolicies role;
     PermissionsBoundary := PermissionsBoundary role |}.

Definition AddManagedPolicy (policy : string) (role : RoleProps) : RoleProps :=
  {| RoleName := RoleName role; role_Description := role_Description role;
     AssumedBy := AssumedBy role; Policy := Policy role;
     ManagedPolicies := ManagedPolicies role ++ [policy];
     PermissionsBoundary := PermissionsBoundary role |}.

Definition ApplyPermissionsBoundary (policy : string) (role : RoleProps) : RoleProps :=
  {| RoleName := RoleName role; role_Description := role_Description role;
     AssumedBy := AssumedBy role; Policy := Policy role;
     ManagedPolicies := ManagedPolicies role;
     PermissionsBoundary := Some policy |}.

Definition invokeModelActions : list string :=
  ["bedrock:InvokeModel"; "bedrock:InvokeModelWithResponseStream"].

(** The Bedrock statement of [createIAMRole]: one statement, over the
    listed models or over all of them. *)
Definition bedrockAccess (iamConfig : IAMConfig) (role : RoleProps) : RoleProps :=
  if EnableBedrockAccess iamConfig then
    match BedrockModelIDs iamConfig with
    | _ :: _ =>
        let resources :=
          (λ modelID, "arn:aws:bedrock:*:*:foundation-model/" +:+ modelID)
            <$> BedrockModelIDs iamConfig in
        AddToPolicy (PolicyStatement invokeModelActions resources) role
    | [] =>
        AddToPolicy
          (PolicyStatement invokeModelActions ["arn:aws:bedrock:*:*:foundation-model/*"])
          role
    end
  else role.

Definition logsStatement : Grant :=
  PolicyStatement ["logs:CreateLogGroup"; "logs:CreateLogStream"; "logs:PutLogEvents"]
    ["arn:aws:logs:*:*:*"].

Definition ecrStatement : Grant :=
  PolicyStatement
    ["ecr:GetAuthorizationToken"; "ecr:BatchCheckLayerAvailability";
     "ecr:GetDownloadUrlForLayer"; "ecr:BatchGetImage"]
    ["*"].

(** The secrets named by the agents, imported one by one in the order
    of the two nested loops of [createIAMRole]. *)
Definition agentSecrets (agents : list AgentConfig) : list ResourceNode :=
  agent ← agents;
  secretARN ← SecretsARNs agent;
  [ {| logicalId := "Secret-" +:+ Name agent +:+ "-" +:+ secretARN;
       properties := SecretFromArn secretARN |} ].

Definition additionalPolicies (iamConfig : IAMConfig) : list ResourceNode :=
  (λ policyARN, {| logicalId := "Policy-" +:+ policyARN;
                   properties := ManagedPolicyFromArn policyARN |})
    <$> AdditionalPolicies iamConfig.

(** The role as [createIAMRole] leaves it. *)
Definition newRole (s : AgentCoreStack) (iamConfig : IAMConfig) : RoleProps :=
  let role :=
    {| RoleName := StackName (Config s) +:+ "-execution-role";
       role_Description := "Execution role for " +:+ StackName (Config s) +:+ " AgentCore agents";
       AssumedBy := ["bedrock.amazonaws.com"; "lambda.amazonaws.com"];
       Policy := []; ManagedPolicies := []; PermissionsBoundary := None |} in
  let role := bedrockAccess iamConfig role in
  let role := AddToPolicy logsStatement role in
  let role :=
    match Secret s with
    | Some secret => AddToPolicy (GrantRead (SecretArn secret)) role
    | None => role
    end in
  let role :=
    foldl (λ role secret, AddToPolicy (GrantRead (SecretArn secret)) role)
      role (agentSecrets (iac.Agents (Config s))) in
  let role := AddToPolicy ecrStatement role in
  let role := foldl (λ role policyARN, AddManagedPolicy policyARN role)
                role (AdditionalPolicies iamConfig) in
  if negb (String.eqb (PermissionsBoundaryARN iamConfig) "")
  then ApplyPermissionsBoundary (PermissionsBoundaryARN iamConfig) role
  else role.

(** [createIAMRole].  The role is built by reference: the construct
    created first is listed with the policy it ends with, followed by
    the imports made on the way. *)
Definition createIAMRole : Build unit :=
  s ← get;
  iamConfig ← deref (IAM (Config s));
  if negb (String.eqb (RoleARN iamConfig) "") then
    role ← newConstruct "ExecutionRole" (RoleFromArn (RoleARN iamConfig));
    modify (with_ExecutionRole (Some role))
  else
    role ← newConstruct "ExecutionRole" (Role (newRole s iamConfig));
    modify (with_Resources (λ l, l ++ agentSecrets (iac.Agents (Config s))));;
    modify (with_Resources (λ l, l ++ additionalPolicies iamConfig));;
    (if negb (String.eqb (PermissionsBoundaryARN iamConfig) "")
     then newConstruct "PermissionsBoundary"
            (ManagedPolicyFromArn (PermissionsBoundaryARN iamConfig));; mret ()
     else mret ());;
    modify (with_ExecutionRole (Some role)).

(** The retention tier of [createLogGroup], from the requested days. *)
Definition retentionOf (retentionDays : Z) : RetentionDays :=
  let retentionDays := if (retentionDays =? 0)%Z then 30 else retentionDays in
  if (retentionDays <=? 1)%Z then ONE_DAY
  else if (retentionDays <=? 7)%Z then ONE_WEEK
  else if (retentionDays <=? 14)%Z then TWO_WEEKS
  else if (retentionDays <=? 30)%Z then ONE_MONTH
  else if (retentionDays <=? 90)%Z then THREE_MONTHS
  else if (retentionDays <=? 180)%Z then SIX_MONTHS
  else if (retentionDays <=? 365)%Z then ONE_YEAR
  else INFINITE.

(** [createLogGroup]. *)
Definition createLogGroup : Build unit :=
  s ← get;
  match Observability (Config s) with
  | None => mret ()
  | Some observability =>
      if negb (EnableCloudWatchLogs observability) then mret ()
      else
        let retention := retentionOf (LogRetentionDays observability) in
        let removalPolicy :=
          if String.eqb (RemovalPolicy (Config s)) "retain"
          then RemovalPolicy_RETAIN else RemovalPolicy_DESTROY in
        lg ← newConstruct "LogGroup"
          (LogGroupProps ("/aws/agentcore/" +:+ StackName (Config s)) retention removalPolicy);
        modify (with_LogGroup (Some lg))
  end.

(** [getPrivateSubnetIds]. *)
Definition getPrivateSubnetIds (s : AgentCoreStack) : list Token :=
  match VPC s with
  | None => []
  | Some vpc =>
      match PrivateSubnets vpc with
      | None => []
      | Some ids => ids
      end
  end.

(** [getSecurityGroupIds]. *)
Definition getSecurityGroupIds (s : AgentCoreStack) : list Token :=
  match SecurityGroup s with
  | None => []
  | Some sg => [SecurityGroupId sg]
  end.

(** [getProtocol]. *)
Definition getProtocol (config : AgentConfig) : string :=
  if negb (String.eqb (Protocol config) "") then Protocol config else "HTTP".

(** [getTags]. *)
Definition getTags (config : AgentConfig) : Build (gmap string string) :=
  s ← get;
  tags ← rangeCopy (entries (Tags (Config s))) ∅;
  mret (<["Agent" := Name config]> tags).

(** [getStackTags]. *)
Definition getStackTags : Build (gmap string string) :=
  s ← get;
  rangeCopy (entries (Tags (Config s))) ∅.

(** [createAgentRuntime]. *)
Definition createAgentRuntime (config : AgentConfig) (envVars : gmap string string)
    : Build unit :=
  cfnEnvVars ← rangeCopy envVars ∅;
  s ← get;
  role ← deref (ExecutionRole s);
  tags ← getTags config;
  let runtimeProps :=
    {| AgentRuntimeName := Name config;
       rt_RoleArn := RoleArn role;
       rt_Description := agent_Description config;
       ContainerUri := ContainerImage config;
       NetworkMode := "VPC";
       SecurityGroups := getSecurityGroupIds s;
       Subnets := getPrivateSubnetIds s;
       EnvironmentVariables := cfnEnvVars;
       ProtocolConfiguration := getProtocol config;
       rt_Tags := tags;
       LifecycleConfiguration :=
         if (0 <? TimeoutSeconds config)%Z || (0 <? MemoryMB config)%Z
         then Some (if (0 <? TimeoutSeconds config)%Z
                    then Some (TimeoutSeconds config) else None)
         else None |} in
  runtime ← newConstruct ("Runtime-" +:+ Name config) (CfnRuntime runtimeProps);
  modify (with_Runtimes <[Name config := runtime]>).

(** [createRuntimeEndpoint]. *)
Definition createRuntimeEndpoint (config : AgentConfig) : Build unit :=
  s ← get;
  runtime ← deref (Runtimes s !! Name config);
  tags ← getTags config;
  endpoint ← newConstruct ("Endpoint-" +:+ Name config)
    (CfnRuntimeEndpoint
       {| ep_Name := Name config +:+ "-endpoint";
          AgentRuntimeId := AttrAgentRuntimeId runtime;
          ep_Description := "Endpoint for agent " +:+ Name config;
          ep_Tags := tags |});
  modify (with_Endpoints <[Name config := endpoint]>).

(** [addAgentOutputs]. *)
Definition addAgentOutputs (config : AgentConfig) : Build unit :=
  s ← get;
  let runtime := Runtimes s !! Name config in
  let endpoint := Endpoints s !! Name config in
  runtime' ← deref runtime;
  NewCfnOutput ("Agent-" +:+ Name config +:+ "-RuntimeArn") (AttrAgentRuntimeArn runtime')
    ("Runtime ARN for agent " +:+ Name config);;
  NewCfnOutput ("Agent-" +:+ Name config +:+ "-RuntimeId") (AttrAgentRuntimeId runtime')
    ("Runtime ID for agent " +:+ Name config);;
  endpoint' ← deref endpoint;
  NewCfnOutput ("Agent-" +:+ Name config +:+ "-EndpointArn")
    (AttrAgentRuntimeEndpointArn endpoint')
    ("Endpoint ARN for agent " +:+ Name config);;
  NewCfnOutput ("Agent-" +:+ Name config +:+ "-Image") (Literal (ContainerImage config))
    ("Container image for agent " +:+ Name config).

(** The observability variables [createAgent] sets. *)
Definition observabilityVars (observability : ObservabilityConfig)
    (envVars : gmap string string) : gmap string string :=
  let envVars := <["OBSERVABILITY_ENABLED" := "true"]> envVars in
  let envVars := <["OBSERVABILITY_PROVIDER" := Provider observability]> envVars in
  let envVars := <["OBSERVABILITY_PROJECT" := Project observability]> envVars in
  if negb (String.eqb (obs_Endpoint observability) "")
  then <["OBSERVABILITY_ENDPOINT" := obs_Endpoint observability]> envVars
  else envVars.

(** [createAgent]. *)
Definition createAgent (config : AgentConfig) : Build unit :=
  construct ← newConstruct ("Agent-" +:+ Name config) AgentScope;
  let agentConstruct :=
    {| Construct := construct; ac_Name := Name config; ac_Config := config |} in
  envVars ← rangeCopy (Environment config) ∅;
  s ← get;
  let envVars :=
    match Observability (Config s) with
    | Some observability => observabilityVars observability envVars
    | None => envVars
    end in
  let envVars := <["AGENTCORE_AGENT_NAME" := Name config]> envVars in
  let envVars :=
    if IsDefault config then <["AGENTCORE_DEFAULT_AGENT" := Name config]> envVars
    else envVars in
  createAgentRuntime config envVars;;
  createRuntimeEndpoint config;;
  addAgentOutputs config;;
  modify (with_Agents <[Name config := agentConstruct]>).

(** [createGateway]. *)
Definition createGateway : Build unit :=
  s ← get;
  match iac.Gateway (Config s) with
  | None => mret ()
  | Some gatewayConfig =>
      if negb (Enabled gatewayConfig) then mret ()
      else
        let protocolType :=
          match iac.Agents (Config s) with
          | agent0 :: _ =>
              if negb (String.eqb (Protocol agent0) "") then Protocol agent0 else "MCP"
          | [] => "MCP"
          end in
        let authorizerType := "NONE" in
        role ← deref (ExecutionRole s);
        tags ← getStackTags;
        gateway ← newConstruct "Gateway"
          (CfnGateway
             {| gwp_Name := gw_Name gatewayConfig;
                gwp_Description := gw_Description gatewayConfig;
                AuthorizerType := authorizerType;
                ProtocolType := protocolType;
                gwp_RoleArn := RoleArn role;
                gwp_Tags := tags |});
        modify (with_Gateway (Some gateway))
  end.

(** [addOutputs]. *)
Definition addOutputs : Build unit :=
  s ← get;
  match VPC s with
  | Some vpc => NewCfnOutput "VPCID" (VpcId vpc) "VPC ID"
  | None => mret ()
  end;;
  match SecurityGroup s with
  | Some sg => NewCfnOutput "SecurityGroupID" (SecurityGroupId sg) "Security Group ID"
  | None => mret ()
  end;;
  match ExecutionRole s with
  | Some role => NewCfnOutput "ExecutionRoleARN" (RoleArn role) "IAM Execution Role ARN"
  | None => mret ()
  end;;
  match LogGroup s with
  | Some lg => NewCfnOutput "LogGroupName" (LogGroupName lg) "CloudWatch Log Group Name"
  | None => mret ()
  end;;
  NewCfnOutput "AgentCount" (Literal (pretty (size (Agents s)))) "Number of deployed agents";;
  match Gateway s with
  | Some gateway =>
      NewCfnOutput "GatewayArn" (AttrGatewayArn gateway) "Gateway ARN";;
      NewCfnOutput "GatewayId" (AttrGatewayIdentifier gateway) "Gateway ID";;
      NewCfnOutput "GatewayUrl" (AttrGatewayUrl gateway) "Gateway URL for invocation"
  | None => mret ()
  end.

(** [for _, agentConfig := range config.Agents { s.createAgent(agentConfig) }]. *)
Fixpoint createAgents (agents : list AgentConfig) : Build unit :=
  match agents with
  | [] => mret ()
  | agentConfig :: rest => createAgent agentConfig;; createAgents rest
  end.

(** [StackConfig.ApplyDefaults] and [StackConfig.Validate] of package
    [iac]; [Validate] returns the error, if any. *)
Variable ApplyDefaults : StackConfig → StackConfig.
Variable Validate : StackConfig → option string.

(** The stack before any construct is created in it. *)
Definition newStack (config : StackConfig) (tags : option (gmap string string))
    (ranges : nat) : AgentCoreStack :=
  {| Stack := {| sp_StackName := StackName config;
                 sp_Description := Description config;
                 sp_Tags := tags |};
     Resources := []; Outputs := [];
     Config := config;
     VPC := None; SecurityGroup := None; ExecutionRole := None;
     Secret := None; LogGroup := None;
     Agents := ∅; Runtimes := ∅; Endpoints := ∅;
     Gateway := None;
     ranges := ranges |}.

(** The body of [NewAgentCoreStack] once the stack exists. *)
Definition build (config : StackConfig) : Build unit :=
  createVPC;;
  createSecurityGroup;;
  createSecrets;;
  createIAMRole;;
  createLogGroup;;
  createAgents (iac.Agents config);;
  createGateway;;
  addOutputs.

(** [NewAgentCoreStack]. *)
Definition NewAgentCoreStack (config : StackConfig) : Result AgentCoreStack :=
  let config := ApplyDefaults config in
  match Validate config with
  | Some err => Panic ("invalid stack configuration: " +:+ err)
  | None =>
      match (tags ← convertTags (Tags config);
             modify (λ s, newStack config tags (ranges s));;
             build config) (newStack config None 0) with
      | Ok (_, s) => Ok s
      | Panic msg => Panic msg
      end
  end.

End Builder.

End AgentCore.

(** ** [.env] files (the scanning loop of [parseEnvFile], the same text in
    [cmd/push-secrets] and [cmd/deploy]) *)

Module EnvFile.

Import GoStrings.

Definition byte (n : nat) : ascii := ascii_of_nat n.

(** [\s] of Go's regexp syntax: tab, line feed, form feed, carriage
    return, space. *)
Definition isReSpace (c : ascii) : bool :=
  bool_decide (nat_of_ascii c ∈ [9; 10; 12; 13; 32]%nat).

Definition isLetter (c : ascii) : bool :=
  let n := nat_of_ascii c in
  ((65 <=? n) && (n <=? 90) || (97 <=? n) && (n <=? 122))%nat.

Definition isDigit (c : ascii) : bool :=
  let n := nat_of_ascii c in ((48 <=? n) && (n <=? 57))%nat.

(** [[A-Za-z_]] and [[A-Za-z0-9_]]. *)
Definition isKeyStart (c : ascii) : bool := isLetter c || bool_decide (c = "_"%char).
Definition isKeyChar (c : ascii) : bool := isKeyStart c || isDigit c.

(** The longest prefix whose characters satisfy [p], and the rest. *)
Fixpoint span (p : ascii → bool) (s : string) : string * string :=
  match s with
  | EmptyString => (EmptyString, EmptyString)
  | String c rest =>
      if p c then let '(a, b) := span p rest in (String c a, b)
      else (EmptyString, s)
  end.

Fixpoint contains (c : ascii) (s : string) : bool :=
  match s with
  | EmptyString => false
  | String d rest => if decide (c = d) then true else contains c rest
  end.

Fixpoint dropBytes (n : nat) (s : string) : string :=
  match n, s with
  | O, _ => s
  | S n, String _ rest => dropBytes n rest
  | S _, EmptyString => EmptyString
  end.

(** A key ([[A-Za-z_]] then [[A-Za-z0-9_]] repeated), the equals sign and
    the value up to the end of the text, at the head of [s].  The value is
    any run of characters other than the line feed. *)
Definition matchKeyValue (s : string) : option (string * string) :=
  match s with
  | String c _ =>
      if isKeyStart c then
        match span isKeyChar s with
        | (key, String eq value) =>
            if bool_decide (eq = "="%char) && negb (contains (byte 10) value)
            then Some (key, value) else None
        | _ => None
        end
      else None
  | EmptyString => None
  end.

(** [envRegex.FindStringSubmatch(line)], as its submatches 2 and 3 (key
    and value); [None] when the line does not match.  The expression is:
    start of text, white space, optionally [export] and white space (at
    least one character), then key, equals sign and value.  The optional
    group is tried first. *)
Definition envRegex (line : string) : option (string * string) :=
  let s := (span isReSpace line).2 in
  let withExport :=
    if HasPrefix s "export" then
      match span isReSpace (dropBytes 6 s) with
      | (String _ _, rest) => matchKeyValue rest
      | (EmptyString, _) => None
      end
    else None in
  match withExport with
  | Some m => Some m
  | None => matchKeyValue s
  end.

(** The length in bytes of the white space character (Unicode's
    [White_Space], in UTF-8) at the head of [s]; 0 when there is none. *)
Definition spaceWidth (s : string) : nat :=
  match s with
  | String a rest =>
      let a := nat_of_ascii a in
      if bool_decide (a ∈ [9; 10; 11; 12; 13; 32]%nat) then 1%nat
      else match rest with
      | String b rest =>
          let b := nat_of_ascii b in
          if bool_decide (a = 194%nat ∧ b ∈ [133; 160]%nat) then 2%nat
          else match rest with
          | String c _ =>
              let c := nat_of_ascii c in
              if bool_decide
                   ((a = 225 ∧ b = 154 ∧ c = 128)
                    ∨ (a = 226 ∧ b = 128 ∧ (128 ≤ c ≤ 138 ∨ c ∈ [168; 169; 175]))
                    ∨ (a = 226 ∧ b = 129 ∧ c = 159)
                    ∨ (a = 227 ∧ b = 128 ∧ c = 128))%nat
              then 3%nat else 0%nat
          | EmptyString => 0%nat
          end
      | EmptyString => 0%nat
      end
  | EmptyString => 0%nat
  end.

(** [s] without its leading white space.  The fuel is the length of [s]. *)
Fixpoint trimLeftSpace (fuel : nat) (s : string) : string :=
  match fuel with
  | O => s
  | S fuel =>
      match spaceWidth s with
      | O => s
      | w => trimLeftSpace fuel (dropBytes w s)
      end
  end.

(** [trimmed == "" || strings.HasPrefix(trimmed, "#")] for
    [trimmed := strings.TrimSpace(line)]: both tests look at the head of
    the trimmed line only, which trimming on the right leaves as it is. *)
Definition skipped (line : string) : bool :=
  let trimmed := trimLeftSpace (String.length line) line in
  String.eqb trimmed "" || HasPrefix trimmed "#".

(** The cutset of [strings.Trim(value, ...)]: both quote characters. *)
Definition quotes : string := String (byte 34) (String (byte 39) EmptyString).

(** What a line of the file contributes: the key and the value to file
    under it, or nothing for a blank line, a comment, a line that is not
    an assignment, an empty value and a placeholder. *)
Definition entry (line : string) : option (string * string) :=
  if skipped line then None
  else
    match envRegex line with
    | None => None
    | Some (key, value) =>
        let value := Trim value quotes in
        if String.eqb value "" || HasPrefix value "your-" then None
        else Some (key, value)
    end.

(** The inner loop: [key] is looked for among the patterns of one group;
    the first pattern equal to it files the value and ends the loop.
    The result tells whether one matched. *)
Fixpoint fileUnder (key value : string) (patterns : list string)
    (keys : gmap string string) : gmap string string * bool :=
  match patterns with
  | [] => (keys, false)
  | pattern :: rest =>
      if String.eqb key pattern then (<[key := value]> keys, true)
      else fileUnder key value rest keys
  end.

End EnvFile.

(** ** The world of the command-line tools *)

Module CLI.

(** Where an error value comes from. *)
Inductive Origin :=
| FromAWS       (** an AWS SDK call *)
| FromCommand   (** a command run with [os/exec] *)
| FromFile.     (** the local file system *)

#[global] Instance Origin_eq_dec : EqDecision Origin.
Proof. solve_decision. Defined.

Record error := {
  origin : Origin;
  Error : string;
}.

(** [fmt.Errorf("context: %w", err)]. *)
Definition wrap (context : string) (err : error) : error :=
  {| origin := origin err; Error := context +:+ ": " +:+ Error err |}.

(** The failure of a call to something outside the process. *)
Definition ExternalToolFailure (err : error) : Prop :=
  origin err = FromAWS ∨ origin err = FromCommand.

Inductive StatResult := StatOk | StatNotExist | StatError.

Inductive PutResult :=
| PutOk
| ResourceNotFoundException (msg : string)
| PutError (msg : string).

(** What the process sees of its surroundings.  An AWS or command
    result of [Some msg] is a failure with that message. *)
Record World := {
  Getenv : string → string;
  Getwd : option string;
  UserHomeDir : option string;
  Stat : string → StatResult;
  ReadFile : string → option string;
  (** [os.Open] and the scan: the error of [Open], or the lines and
      [scanner.Err()]. *)
  ReadLines : string → string + (list string * option string);
  LoadDefaultConfig : string → option string;
  GetCallerIdentity : string + string;
  PutSecretValue : string → gmap string string → PutResult;
  CreateSecret : string → string → gmap string string → option string;
  Run : list string → option string;
  (** The order in which a [range] visits the keys of a map. *)
  KeyOrder : gmap string string → list string;
}.

(** What the process does that can be seen from outside, in order.  A
    secret string is the map it is the JSON object of. *)
Inductive Event :=
| Stdout (line : string)
| AWSLoadDefaultConfig (region : string)
| STSGetCallerIdentity
| SMPutSecretValue (SecretId : string) (SecretString : gmap string string)
| SMCreateSecret (Name Description : string) (SecretString : gmap string string)
| Exec (argv : list string).

(** A computation in a world: the events it causes, and an error or a
    result. *)
Definition IO (A : Type) : Type := World → list Event * (error + A).

#[global] Instance IO_ret : MRet IO := λ A a w, ([], inr a).
#[global] Instance IO_bind : MBind IO := λ A B f m w,
  match m w with
  | (t, inl err) => (t, inl err)
  | (t, inr a) => let '(t', r) := f a w in (t ++ t', r)
  end.

Definition world : IO World := λ w, ([], inr w).
Definition emit (e : Event) : IO unit := λ w, ([e], inr ()).
Definition fail {A} (err : error) : IO A := λ w, ([], inl err).

(** [err := f()], the error kept as a value. *)
Definition attempt {A} (m : IO A) : IO (error + A) := λ w,
  let '(t, r) := m w in (t, inr r).

(** [if err := f(); err != nil { return fmt.Errorf("context: %w", err) }]. *)
Definition wrapping {A} (context : string) (m : IO A) : IO A := λ w,
  match m w with
  | (t, inl err) => (t, inl (wrap context err))
  | (t, inr a) => (t, inr a)
  end.

Definition Println (line : string) : IO unit := emit (Stdout line).

(** [cmd.Run()] of [exec.CommandContext(ctx, argv...)]. *)
Definition runCommand (argv : list string) : IO unit :=
  emit (Exec argv);;
  w ← world;
  match Run w argv with
  | Some msg => fail {| origin := FromCommand; Error := msg |}
  | None => mret ()
  end.

End CLI.

(** ** [cmd/push-secrets] *)

Module PushSecrets.

Import GoStrings EnvFile CLI.

(** [SecretGroup]. *)
Record SecretGroup := {
  Name : string;
  Description : string;
  Keys : gmap string string;
  Patterns : list string;
}.

(** The groups [run] defines. *)
Definition groups : list SecretGroup :=
  [ {| Name := "llm";
       Description := "LLM provider API keys";
       Keys := ∅;
       Patterns := [ "GOOGLE_API_KEY"; "GEMINI_API_KEY"; "ANTHROPIC_API_KEY";
                     "CLAUDE_API_KEY"; "OPENAI_API_KEY"; "XAI_API_KEY";
                     "LLM_API_KEY" ] |};
    {| Name := "search";
       Description := "Search provider API keys";
       Keys := ∅;
       Patterns := [ "SERPER_API_KEY"; "SERPAPI_API_KEY" ] |};
    {| Name := "config";
       Description := "Configuration and observability settings";
       Keys := ∅;
       Patterns := [ "LLM_PROVIDER"; "LLM_MODEL"; "LLM_BASE_URL"; "SEARCH_PROVIDER";
                     "OBSERVABILITY_ENABLED"; "OBSERVABILITY_PROVIDER";
                     "OPIK_API_KEY"; "OPIK_WORKSPACE"; "OPIK_PROJECT";
                     "LANGFUSE_PUBLIC_KEY"; "LANGFUSE_SECRET_KEY";
                     "PHOENIX_API_KEY" ] |} ].

(** [for i := range groups { for _, pattern := range groups[i].Patterns ... }]:
    the key is filed under every group one of whose patterns it equals. *)
Fixpoint categorize (verbose : bool) (key value : string) (groups : list SecretGroup)
    : IO (list SecretGroup) :=
  match groups with
  | [] => mret []
  | group :: rest =>
      let '(keys, found) := fileUnder key value (Patterns group) (Keys group) in
      (if found && verbose
       then Println ("  Found " +:+ Name group +:+ " key: " +:+ key)
       else mret ());;
      rest ← categorize verbose key value rest;
      mret ({| Name := Name group; Description := Description group;
               Keys := keys; Patterns := Patterns group |} :: rest)
  end.

(** The scanning loop of [parseEnvFile]. *)
Fixpoint scan (verbose : bool) (lines : list string) (groups : list SecretGroup)
    : IO (list SecretGroup) :=
  match lines with
  | [] => mret groups
  | line :: rest =>
      match entry line with
      | None => scan verbose rest groups
      | Some (key, value) =>
          groups ← categorize verbose key value groups;
          scan verbose rest groups
      end
  end.

(** [parseEnvFile]: the groups as the scan leaves them, or the error of
    [os.Open] or of the scanner. *)
Definition parseEnvFile (filename : string) (groups : list SecretGroup) (verbose : bool)
    : IO (list SecretGroup) :=
  w ← world;
  match ReadLines w filename with
  | inl msg => fail {| origin := FromFile; Error := msg |}
  | inr (lines, scanErr) =>
      groups ← scan verbose lines groups;
      match scanErr with
      | Some msg => fail {| origin := FromFile; Error := msg |}
      | None => mret groups
      end
  end.

End PushSecrets.

(** ** [cmd/deploy] *)

Module Deploy.

Import GoStrings EnvFile CLI.

Definition DefaultConfigDir : string := ".plexusone".

(** The command-line flags, parsed. *)
Record Flags := {
  region : string;
  envFile : string;
  prefix : string;
  project : string;
  dryRun : bool;
  skipSecrets : bool;
  skipBootstrap : bool;
  verbose : bool;
}.

Record secretGroup := {
  name : string;
  description : string;
  keys : gmap string string;
  patterns : list string;
}.

Section Platform.

(** [filepath.Join], [filepath.Base] and [filepath.IsAbs] of the
    platform, and the [stackName] that [json.Unmarshal] reads from the
    bytes of a [config.json] ([None] when it returns an error). *)
Variable Join : list string → string.
Variable Base : string → string.
Variable IsAbs : string → bool.
Variable UnmarshalStackName : string → option string.

(** [mustGetwd]. *)
Definition mustGetwd : IO string :=
  w ← world;
  match Getwd w with
  | None => mret "."
  | Some wd => mret wd
  end.

(** [detectProjectName]. *)
Definition detectProjectName : IO string :=
  w ← world;
  let fromConfig (path : string) : option string :=
    match ReadFile w path with
    | Some data =>
        match UnmarshalStackName data with
        | Some stackName => if String.eqb stackName "" then None else Some stackName
        | None => None
        end
    | None => None
    end in
  match fromConfig "config.json" with
  | Some stackName => mret stackName
  | None =>
      match fromConfig "../config.json" with
      | Some stackName => mret stackName
      | None =>
          match Getwd w with
          | Some wd => mret (Base wd)
          | None => mret ""
          end
      end
  end.

(** The first candidate that [os.Stat] finds. *)
Fixpoint firstExisting (w : World) (candidates : list string) : option string :=
  match candidates with
  | [] => None
  | path :: rest =>
      match Stat w path with
      | StatOk => Some path
      | _ => firstExisting w rest
      end
  end.

(** [findEnvFile]. *)
Definition findEnvFile (projectName : string) : IO string :=
  w ← world;
  let candidates := [".env"; "../.env"] in
  let candidates :=
    match UserHomeDir w with
    | Some home =>
        let candidates :=
          if negb (String.eqb projectName "")
          then candidates ++ [Join [home; DefaultConfigDir; "projects"; projectName; ".env"]]
          else candidates in
        candidates ++ [Join [home; DefaultConfigDir; ".env"]]
    | None => candidates
    end in
  match firstExisting w candidates with
  | Some path => mret path
  | None => fail {| origin := FromFile; Error := "no .env file found" |}
  end.

(** The groups [pushSecrets] defines. *)
Definition groups : list secretGroup :=
  [ {| name := "llm";
       description := "LLM provider API keys";
       keys := ∅;
       patterns := [ "GOOGLE_API_KEY"; "GEMINI_API_KEY"; "ANTHROPIC_API_KEY";
                     "CLAUDE_API_KEY"; "OPENAI_API_KEY"; "XAI_API_KEY"; "LLM_API_KEY" ] |};
    {| name := "search";
       description := "Search provider API keys";
       keys := ∅;
       patterns := [ "SERPER_API_KEY"; "SERPAPI_API_KEY" ] |};
    {| name := "config";
       description := "Configuration and observability settings";
       keys := ∅;
       patterns := [ "LLM_PROVIDER"; "LLM_MODEL"; "LLM_BASE_URL"; "SEARCH_PROVIDER";
                     "OBSERVABILITY_ENABLED"; "OBSERVABILITY_PROVIDER";
                     "OPIK_API_KEY"; "OPIK_WORKSPACE"; "OPIK_PROJECT";
                     "LANGFUSE_PUBLIC_KEY"; "LANGFUSE_SECRET_KEY"; "PHOENIX_API_KEY" ] |} ].

(** The two nested loops of [parseEnvFile] for one key. *)
Fixpoint categorize (verbose : bool) (key value : string) (groups : list secretGroup)
    : IO (list secretGroup) :=
  match groups with
  | [] => mret []
  | group :: rest =>
      let '(keys', found) := fileUnder key value (patterns group) (keys group) in
      (if found && verbose
       then Println ("  Found " +:+ name group +:+ ": " +:+ key)
       else mret ());;
      rest ← categorize verbose key value rest;
      mret ({| name := name group; description := description group;
               keys := keys'; patterns := patterns group |} :: rest)
  end.

(** The scanning loop of [parseEnvFile]. *)
Fixpoint scan (verbose : bool) (lines : list string) (groups : list secretGroup)
    : IO (list secretGroup) :=
  match lines with
  | [] => mret groups
  | line :: rest =>
      match entry line with
      | None => scan verbose rest groups
      | Some (key, value) =>
          groups ← categorize verbose key value groups;
          scan verbose rest groups
      end
  end.

(** [parseEnvFile]. *)
Definition parseEnvFile (filename : string) (groups : list secretGroup) (verbose : bool)
    : IO (list secretGroup) :=
  w ← world;
  match ReadLines w filename with
  | inl msg => fail {| origin := FromFile; Error := msg |}
  | inr (lines, scanErr) =>
      groups ← scan verbose lines groups;
      match scanErr with
      | Some msg => fail {| origin := FromFile; Error := msg |}
      | None => mret groups
      end
  end.

(** [createOrUpdateSecret]. *)
Definition createOrUpdateSecret (secretName : string) (group : secretGroup)
    (dryRun : bool) : IO unit :=
  if bool_decide (size (keys group) = 0%nat) then
    Println ("  Skipping " +:+ secretName +:+ " (no keys found)")
  else
    let secretValue := keys group in
    w ← world;
    let keyNames := KeyOrder w (keys group) in
    Println ("  " +:+ secretName +:+ ": " +:+ GoStrings.Join keyNames ", ");;
    if dryRun then Println "    [DRY RUN] Would create/update"
    else
      emit (SMPutSecretValue secretName secretValue);;
      match PutSecretValue w secretName secretValue with
      | PutOk => Println "    Updated"
      | ResourceNotFoundException _ =>
          emit (SMCreateSecret secretName (description group) secretValue);;
          match CreateSecret w secretName (description group) secretValue with
          | Some msg => fail {| origin := FromAWS; Error := msg |}
          | None => Println "    Created"
          end
      | PutError msg => fail {| origin := FromAWS; Error := msg |}
      end.

(** [for _, group := range groups { ... createOrUpdateSecret ... }]. *)
Fixpoint pushGroups (prefix : string) (groups : list secretGroup) (dryRun : bool)
    : IO unit :=
  match groups with
  | [] => mret ()
  | group :: rest =>
      let secretName := prefix +:+ "/" +:+ name group in
      createOrUpdateSecret secretName group dryRun;;
      pushGroups prefix rest dryRun
  end.

(** The env file [pushSecrets] reads; [None] when the push is skipped
    for want of one. *)
Definition resolveEnvFile (envFile projectName : string) : IO (option string) :=
  w ← world;
  if negb (String.eqb envFile "") then
    let envPath := envFile in
    let envPath :=
      if negb (IsAbs envPath) then
        match Stat w envPath with
        | StatNotExist =>
            let parentPath := Join [".."; envPath] in
            match Stat w parentPath with
            | StatOk => parentPath
            | _ => envPath
            end
        | _ => envPath
        end
      else envPath in
    match Stat w envPath with
    | StatNotExist =>
        Println ("Warning: " +:+ envFile +:+ " not found, skipping secrets push");;
        mret None
    | _ => mret (Some envPath)
    end
  else
    found ← attempt (findEnvFile projectName);
    match found with
    | inl _ =>
        Println "No .env file found, skipping secrets push";;
        Println "  Searched: .env, ../.env, ~/.plexusone/";;
        mret None
    | inr envPath => mret (Some envPath)
    end.

(** [pushSecrets]. *)
Definition pushSecrets (envFile prefix projectName : string) (dryRun verbose : bool)
    : IO unit :=
  resolved ← resolveEnvFile envFile projectName;
  match resolved with
  | None => mret ()
  | Some envPath =>
      Println ("Reading from: " +:+ envPath);;
      groups ← parseEnvFile envPath groups verbose;
      pushGroups prefix groups dryRun
  end.

(** [bootstrapCDK]. *)
Definition bootstrapCDK (accountID region : string) (dryRun : bool) : IO unit :=
  let target := "aws://" +:+ accountID +:+ "/" +:+ region in
  Println ("Bootstrap target: " +:+ target);;
  if dryRun then Println ("[DRY RUN] Would run: cdk bootstrap " +:+ target)
  else
    r ← attempt (runCommand ["cdk"; "bootstrap"; target]);
    match r with
    | inl _ => Println "  Bootstrap completed (or already bootstrapped)"
    | inr _ => mret ()
    end.

(** [deployCDK]. *)
Definition deployCDK (dryRun : bool) : IO unit :=
  Println "Running go mod tidy...";;
  tidy ← attempt (runCommand ["go"; "mod"; "tidy"]);
  match tidy with
  | inl err => Println ("Warning: go mod tidy failed: " +:+ Error err)
  | inr _ => mret ()
  end;;
  if dryRun then
    Println "Running cdk diff...";;
    _ ← attempt (runCommand ["cdk"; "diff"]);
    mret ()
  else
    Println "Running cdk deploy...";;
    runCommand ["cdk"; "deploy"; "--require-approval"; "never"].

(** The region [run] settles on. *)
Definition resolveRegion (f : Flags) (w : World) : string :=
  let awsRegion := region f in
  let awsRegion := if String.eqb awsRegion "" then Getenv w "AWS_REGION" else awsRegion in
  let awsRegion :=
    if String.eqb awsRegion "" then Getenv w "AWS_DEFAULT_REGION" else awsRegion in
  if String.eqb awsRegion "" then "us-east-1" else awsRegion.

(** [run]. *)
Definition run (f : Flags) : IO unit :=
  w ← world;
  let awsRegion := resolveRegion f w in
  projectName ← (if String.eqb (project f) "" then detectProjectName
                 else mret (project f));
  Println "=== AWS AgentCore Deployment ===";;
  Println "";;
  Println ("Region: " +:+ awsRegion);;
  (if negb (String.eqb projectName "") then Println ("Project: " +:+ projectName)
   else mret ());;
  wd ← mustGetwd;
  Println ("Working directory: " +:+ wd);;
  (if dryRun f then Println "Mode: DRY RUN (no changes will be made)" else mret ());;
  Println "";;
  emit (AWSLoadDefaultConfig awsRegion);;
  match LoadDefaultConfig w awsRegion with
  | Some msg =>
      fail (wrap "loading AWS config" {| origin := FromAWS; Error := msg |})
  | None =>
      emit STSGetCallerIdentity;;
      match GetCallerIdentity w with
      | inl msg =>
          fail (wrap "getting AWS identity" {| origin := FromAWS; Error := msg |})
      | inr accountID =>
          Println ("AWS Account: " +:+ accountID);;
          Println "";;
          (if negb (skipSecrets f) then
             Println "=== Step 1: Push Secrets ===";;
             wrapping "pushing secrets"
               (pushSecrets (envFile f) (prefix f) projectName (dryRun f) (verbose f));;
             Println ""
           else
             Println "=== Step 1: Skipping secrets (--skip-secrets) ===";;
             Println "");;
          (if negb (skipBootstrap f) then
             Println "=== Step 2: Bootstrap CDK ===";;
             bootstrapCDK accountID awsRegion (dryRun f);;
             Println ""
           else
             Println "=== Step 2: Skipping bootstrap (--skip-bootstrap) ===";;
             Println "");;
          Println "=== Step 3: Deploy ===";;
          wrapping "deploying" (deployCDK (dryRun f));;
          Println "";;
          Println "=== Deployment Complete ===";;
          if negb (dryRun f) then
            Println "";;
            Println "To get outputs:";;
            Println ("  aws cloudformation describe-stacks --stack-name stats-agent-team --region "
                     +:+ awsRegion +:+ " --query 'Stacks[0].Outputs' --no-cli-pager")
          else mret ()
      end
  end.

End Platform.

End Deploy.

(** ** Reading a built stack *)

Module Graph.

Import iac AgentCore.

(** The nodes of one kind, in the order of creation. *)
Definition nodesOfKind (k : Kind) (s : AgentCoreStack) : list ResourceNode :=
  filter (λ n, kind n = k) (Resources s).

(** The agent a Runtime or an Endpoint node belongs to: its [Agent] tag. *)
Definition agentOf (n : ResourceNode) : option string :=
  match properties n with
  | CfnRuntime p => rt_Tags p !! "Agent"
  | CfnRuntimeEndpoint p => ep_Tags p !! "Agent"
  | _ => None
  end.

(** The Runtime nodes a node depends on. *)
Definition runtimesOf (s : AgentCoreStack) (n : ResourceNode) : list ResourceNode :=
  filter (λ r, kind r = KRuntime ∧ logicalId r ∈ dependsOn n) (Resources s).

(** What a step adds to the stack: constructs of the kinds [K], the
    configuration untouched. *)
Definition adds (K : list Kind) (s s' : AgentCoreStack) : Prop :=
  Config s' = Config s ∧
  ∃ added, Resources s' = Resources s ++ added ∧ Forall (λ n, kind n ∈ K) added.

(** A step that leaves the outputs and the gateway as they are. *)
Definition quiet (s s' : AgentCoreStack) : Prop :=
  Outputs s' = Outputs s ∧ Gateway s' = Gateway s.

(** The days of a retention tier; [None] is unlimited. *)
Definition tierDays (t : RetentionDays) : option Z :=
  match t with
  | ONE_DAY => Some 1
  | ONE_WEEK => Some 7
  | TWO_WEEKS => Some 14
  | ONE_MONTH => Some 30
  | THREE_MONTHS => Some 90
  | SIX_MONTHS => Some 180
  | ONE_YEAR => Some 365
  | INFINITE => None
  end.

(** Tier [t] covers a request of [r] days. *)
Definition covers (t : RetentionDays) (r : Z) : Prop :=
  match tierDays t with
  | Some d => (r ≤ d)%Z
  | None => True
  end.

(** Tier [t] is no longer than tier [t'], the unlimited one being the
    longest. *)
Definition tierLe (t t' : RetentionDays) : Prop :=
  match tierDays t, tierDays t' with
  | Some d, Some d' => (d ≤ d')%Z
  | _, None => True
  | None, Some _ => False
  end.

(** A statement that allows model invocation. *)
Definition isInvokeModel (g : Grant) : bool :=
  match g with
  | PolicyStatement actions _ => bool_decide (actions = invokeModelActions)
  | GrantRead _ => false
  end.

(** The output ids of the gateway. *)
Definition gatewayOutputs : list string := ["GatewayArn"; "GatewayId"; "GatewayUrl"].

(** Whether the configuration asks for a gateway. *)
Definition gatewayEnabled (config : StackConfig) : bool :=
  match iac.Gateway config with
  | Some g => Enabled g
  | None => false
  end.

(** The variables [createAgent] sets from the stack configuration when it
    starts from no variable at all. *)
Definition stackVars (observability : ObservabilityConfig) : gmap string string :=
  observabilityVars observability ∅.

(** The environment of the Runtime of agent [a], computed from the
    configuration alone. *)
Definition resolvedEnvironment (config : StackConfig) (a : AgentConfig)
    : gmap string string :=
  let envVars := Environment a in
  let envVars :=
    match Observability config with
    | Some observability => observabilityVars observability envVars
    | None => envVars
    end in
  let envVars := <["AGENTCORE_AGENT_NAME" := Name a]> envVars in
  if IsDefault a then <["AGENTCORE_DEFAULT_AGENT" := Name a]> envVars else envVars.

(** The three constructs [createAgent] makes for agent [a]. *)
Definition agentNodes (order : RangeOrder) (config : StackConfig) (a : AgentConfig)
    (ns : list ResourceNode) : Prop :=
  ∃ rp ep,
    ns = [ {| logicalId := "Agent-" +:+ Name a; properties := AgentScope |};
           {| logicalId := "Runtime-" +:+ Name a; properties := CfnRuntime rp |};
           {| logicalId := "Endpoint-" +:+ Name a; properties := CfnRuntimeEndpoint ep |} ] ∧
    AgentRuntimeName rp = Name a ∧
    rt_Tags rp !! "Agent" = Some (Name a) ∧
    ep_Tags ep !! "Agent" = Some (Name a) ∧
    AgentRuntimeId ep = Attr ("Runtime-" +:+ Name a) "AgentRuntimeId" ∧
    (validOrder order → EnvironmentVariables rp = resolvedEnvironment config a).

(** Outputs whose ids are those of agents. *)
Definition agentOutputs (outs : list CfnOutput) : Prop :=
  Forall (λ o, GoStrings.HasPrefix (out_id o) "Agent-" = true) outs.

(** The resources of the model-invocation statement for a list of models. *)
Definition modelResources (models : list string) : list string :=
  match models with
  | [] => ["arn:aws:bedrock:*:*:foundation-model/*"]
  | _ => (λ modelID, "arn:aws:bedrock:*:*:foundation-model/" +:+ modelID) <$> models
  end.

(** Two builder computations that agree on every stack. *)
Definition agree {A} (m1 m2 : Build A) : Prop := ∀ s, m1 s = m2 s.

End Graph.

(** ** Sample inputs *)

Module Samples.

Import iac AgentCore.

(** Two iteration orders: that of the map's own listing, and its reverse. *)
Definition listingOrder : RangeOrder := λ _ m, map_to_list m.
Definition reverseOrder : RangeOrder := λ _ m, reverse (map_to_list m).

(** Two private subnets for every VPC. *)
Definition twoSubnets (vpc : ResourceNode) : option (list Token) :=
  Some [Attr (logicalId vpc) "PrivateSubnet1"; Attr (logicalId vpc) "PrivateSubnet2"].

(** A configuration that comes with every default filled in and is accepted. *)
Definition filledIn : StackConfig → StackConfig := λ config, config.
Definition accepted : StackConfig → option string := λ _, None.

(** The stack of a configuration under these choices. *)
Abbreviation stackOf config :=
  (NewAgentCoreStack listingOrder twoSubnets filledIn accepted config).

Definition agent (name image : string) : AgentConfig :=
  {| Name := name; agent_Description := ""; ContainerImage := image;
     MemoryMB := 512; TimeoutSeconds := 30; Environment := ∅;
     SecretsARNs := []; Protocol := "HTTP"; IsDefault := false |}.

Definition newVPC : VPCConfig :=
  {| VPCID := ""; SubnetIDs := []; SecurityGroupIDs := []; CreateVPC := true;
     VPCCidr := "10.0.0.0/16"; MaxAZs := 2; EnableVPCEndpoints := true |}.

Definition newRoleFor (models : list string) : IAMConfig :=
  {| RoleARN := ""; EnableBedrockAccess := true; BedrockModelIDs := models;
     AdditionalPolicies := []; PermissionsBoundaryARN := "" |}.

(** The stack [demo]: one agent, a new network, a new role, nothing else. *)
Definition demo : StackConfig :=
  {| StackName := "demo"; Description := "";
     iac.Agents := [agent "worker" "repo/worker:v1"];
     iac.VPC := Some newVPC; Secrets := None; Observability := None;
     IAM := Some (newRoleFor []); iac.Gateway := None;
     Tags := Some {[ "team" := "research"; "env" := "dev" ]};
     RemovalPolicy := "destroy" |}.

Definition withAgents (agents : list AgentConfig) (config : StackConfig) : StackConfig :=
  {| StackName := StackName config; Description := Description config;
     iac.Agents := agents;
     iac.VPC := iac.VPC config; Secrets := Secrets config;
     Observability := Observability config;
     IAM := IAM config; iac.Gateway := iac.Gateway config;
     Tags := Tags config; RemovalPolicy := RemovalPolicy config |}.

Definition withObservability (observability : ObservabilityConfig) (config : StackConfig)
    : StackConfig :=
  {| StackName := StackName config; Description := Description config;
     iac.Agents := iac.Agents config;
     iac.VPC := iac.VPC config; Secrets := Secrets config;
     Observability := Some observability;
     IAM := IAM config; iac.Gateway := iac.Gateway config;
     Tags := Tags config; RemovalPolicy := RemovalPolicy config |}.

Definition withIAM (iam : IAMConfig) (config : StackConfig) : StackConfig :=
  {| StackName := StackName config; Description := Description config;
     iac.Agents := iac.Agents config;
     iac.VPC := iac.VPC config; Secrets := Secrets config;
     Observability := Observability config;
     IAM := Some iam; iac.Gateway := iac.Gateway config;
     Tags := Tags config; RemovalPolicy := RemovalPolicy config |}.

Definition withSecrets (secrets : SecretsConfig) (config : StackConfig) : StackConfig :=
  {| StackName := StackName config; Description := Description config;
     iac.Agents := iac.Agents config;
     iac.VPC := iac.VPC config; Secrets := Some secrets;
     Observability := Observability config;
     IAM := IAM config; iac.Gateway := iac.Gateway config;
     Tags := Tags config; RemovalPolicy := RemovalPolicy config |}.

Definition withGateway (gateway : GatewayConfig) (config : StackConfig) : StackConfig :=
  {| StackName := StackName config; Description := Description config;
     iac.Agents := iac.Agents config;
     iac.VPC := iac.VPC config; Secrets := Secrets config;
     Observability := Observability config;
     IAM := IAM config; iac.Gateway := Some gateway;
     Tags := Tags config; RemovalPolicy := RemovalPolicy config |}.

Definition withTags (tags : gmap string string) (config : StackConfig) : StackConfig :=
  {| StackName := StackName config; Description := Description config;
     iac.Agents := iac.Agents config;
     iac.VPC := iac.VPC config; Secrets := Secrets config;
     Observability := Observability config;
     IAM := IAM config; iac.Gateway := iac.Gateway config;
     Tags := Some tags; RemovalPolicy := RemovalPolicy config |}.

(** Logging to CloudWatch with a retention request of [days]. *)
Definition logging (days : Z) : ObservabilityConfig :=
  {| Provider := "opik"; Project := "demo"; APIKeySecretARN := "";
     obs_Endpoint := ""; EnableCloudWatchLogs := true; LogRetentionDays := days |}.

(** An agent that sets an observability variable of its own. *)
Definition selfObserved : AgentConfig :=
  {| Name := "worker"; agent_Description := ""; ContainerImage := "repo/worker:v1";
     MemoryMB := 512; TimeoutSeconds := 30;
     Environment := {[ "OBSERVABILITY_PROVIDER" := "langfuse"; "LOG_LEVEL" := "debug" ]};
     SecretsARNs := []; Protocol := "HTTP"; IsDefault := true |}.

Definition twoModels : list string :=
  ["anthropic.claude-3-sonnet"; "amazon.titan-text-express-v1"].

Definition apiKeys : SecretsConfig :=
  {| CreateSecrets := true; SecretName := "";
     SecretValues := {[ "OPENAI_API_KEY" := "sk-123"; "SERPER_API_KEY" := "c51" ]} |}.

Definition tools : GatewayConfig :=
  {| Enabled := true; gw_Name := "tools"; gw_Description := "External tools" |}.

(** The stack [team]: two agents, one of which sets an observability
    variable itself, logging with a request of ten days, a role restricted
    to two models, a secret to create and a gateway. *)
Definition team : StackConfig :=
  withGateway tools
    (withSecrets apiKeys
       (withIAM (newRoleFor twoModels)
          (withObservability (logging 10)
             (withAgents [selfObserved; agent "planner" "repo/planner:v2"] demo)))).

End Samples.

(** ** Reading the classification of secrets *)

Module Classification.

Import CLI PushSecrets.

(** The group [g] once [key] is looked up in it: the value is filed under
    the key when the key is one of the patterns of the group. *)
Definition filed (key value : string) (g : SecretGroup) : SecretGroup :=
  {| Name := Name g; Description := Description g;
     Keys := if bool_decide (key ∈ Patterns g) then <[key := value]> (Keys g) else Keys g;
     Patterns := Patterns g |}.

(** The groups once a list of entries, in order, is looked up in each. *)
Definition classify (entries : list (string * string)) (groups : list SecretGroup)
    : list SecretGroup :=
  foldl (λ groups kv, filed kv.1 kv.2 <$> groups) groups entries.

(** The names of the groups that hold [key]. *)
Definition groupsOf (key : string) (groups : list SecretGroup) : list string :=
  Name <$> filter (λ g, is_Some (Keys g !! key)) groups.

(** A world in which every file has the given lines and every call
    succeeds. *)
Definition fileWorld (lines : list string) : World :=
  {| Getenv := λ _, "";
     Getwd := Some "/work/cdk";
     UserHomeDir := Some "/home/dev";
     Stat := λ path, if String.eqb path ".env" then StatOk else StatNotExist;
     ReadFile := λ _, None;
     ReadLines := λ _, inr (lines, None);
     LoadDefaultConfig := λ _, None;
     GetCallerIdentity := inr "123456789012";
     PutSecretValue := λ _ _, PutOk;
     CreateSecret := λ _ _ _, None;
     Run := λ _, None;
     KeyOrder := λ m, (map_to_list m).*1 |}.

(** The file of the scenario. *)
Definition fourKeys : list string :=
  [ "OPENAI_API_KEY=sk-123"; "SERPER_API_KEY=c5177"; "LLM_MODEL=gpt-4"; "UNKNOWN_FLAG=1" ].

End Classification.

(** ** Reading a run of the deployment *)

Module Pipeline.

Import CLI Deploy.

(** Events by which the process changes something outside itself: a write
    to the secret store, [cdk bootstrap], [cdk deploy]. *)
Definition mutating (e : Event) : Prop :=
  match e with
  | SMPutSecretValue _ _ | SMCreateSecret _ _ _ => True
  | Exec ("cdk" :: "bootstrap" :: _) | Exec ("cdk" :: "deploy" :: _) => True
  | _ => False
  end.

(** Events that are calls to something outside the process. *)
Definition external (e : Event) : Prop :=
  match e with
  | Stdout _ => False
  | _ => True
  end.

#[global] Instance external_dec e : Decision (external e).
Proof. destruct e; simpl; apply _. Defined.

Definition isExec (e : Event) : Prop :=
  match e with
  | Exec _ => True
  | _ => False
  end.

Definition isStdout (e : Event) : Prop :=
  match e with
  | Stdout _ => True
  | _ => False
  end.

(** A computation whose events all satisfy [P] and whose error, if any,
    satisfies [Q]. *)
Definition obeys {A} (P : Event → Prop) (Q : error → Prop) (m : IO A) (w : World) : Prop :=
  Forall P (m w).1 ∧ ∀ err, (m w).2 = inl err → Q err.

Definition fromFile (err : error) : Prop := origin err = FromFile.
Definition never (err : error) : Prop := False.
Definition always (err : error) : Prop := True.

(** The errors of the two calls [run] makes before the first step. *)
Definition beforeSteps (err : error) : Prop :=
  (∃ msg, err = wrap "loading AWS config" {| origin := FromAWS; Error := msg |}) ∨
  (∃ msg, err = wrap "getting AWS identity" {| origin := FromAWS; Error := msg |}).

(** The result of [run] when the deploy step is reached. *)
Definition deployResult (r : error + unit) : error + unit :=
  match r with
  | inl err => inl (wrap "deploying" err)
  | inr _ => inr ()
  end.

Section Steps.

Variable Join : list string → string.
Variable Base : string → string.
Variable IsAbs : string → bool.
Variable UnmarshalStackName : string → option string.

(** The project name [run] works with. *)
Definition projectNameOf (f : Flags) (w : World) : string :=
  if String.eqb (project f) "" then
    match (detectProjectName Base UnmarshalStackName w).2 with
    | inr projectName => projectName
    | inl _ => ""
    end
  else project f.

(** The secret push of [run]. *)
Definition pushStep (f : Flags) (w : World) : list Event * (error + unit) :=
  pushSecrets Join IsAbs (envFile f) (prefix f) (projectNameOf f w) (dryRun f) (verbose f) w.

(** The events of [run] up to the first step, when the AWS configuration
    loads and the caller's identity is known. *)
Definition preamble (f : Flags) (w : World) (accountID : string) : list Event :=
  let awsRegion := resolveRegion f w in
  let projectName := projectNameOf f w in
  [Stdout "=== AWS AgentCore Deployment ==="; Stdout ""; Stdout ("Region: " +:+ awsRegion)]
  ++ (if negb (String.eqb projectName "") then [Stdout ("Project: " +:+ projectName)] else [])
  ++ [Stdout ("Working directory: " +:+ match Getwd w with Some wd => wd | None => "." end)]
  ++ (if dryRun f then [Stdout "Mode: DRY RUN (no changes will be made)"] else [])
  ++ [Stdout ""; AWSLoadDefaultConfig awsRegion; STSGetCallerIdentity;
      Stdout ("AWS Account: " +:+ accountID); Stdout ""].

(** The first step of [run]: its events, and whether it let the run go
    on. *)
Definition secretsStep (f : Flags) (w : World) : list Event * (error + unit) :=
  if skipSecrets f then
    ([Stdout "=== Step 1: Skipping secrets (--skip-secrets) ==="; Stdout ""], inr ())
  else
    match pushStep f w with
    | (t, inl err) =>
        (Stdout "=== Step 1: Push Secrets ===" :: t, inl (wrap "pushing secrets" err))
    | (t, inr _) => (Stdout "=== Step 1: Push Secrets ===" :: t ++ [Stdout ""], inr ())
    end.

(** What [run] prints after a deployment that succeeded. *)
Definition closing (f : Flags) (w : World) : list Event :=
  [Stdout ""; Stdout "=== Deployment Complete ==="]
  ++ (if negb (dryRun f) then
        [Stdout ""; Stdout "To get outputs:";
         Stdout ("  aws cloudformation describe-stacks --stack-name stats-agent-team --region "
                 +:+ resolveRegion f w +:+ " --query 'Stacks[0].Outputs' --no-cli-pager")]
      else []).

End Steps.

(** Sample worlds: one where writing a secret fails, one where
    [cdk bootstrap] fails, one where the caller's identity is refused. *)
Definition joinPath (elems : list string) : string := GoStrings.Join elems "/".
Definition basePath (path : string) : string := path.
Definition isAbs (path : string) : bool := GoStrings.HasPrefix path "/".
Definition noStackName (data : string) : option string := None.

Definition flags : Flags :=
  {| region := "eu-west-1"; envFile := ".env"; prefix := "stats-agent"; project := "demo";
     dryRun := false; skipSecrets := false; skipBootstrap := false; verbose := false |}.

Definition dryRunFlags : Flags :=
  {| region := "eu-west-1"; envFile := ".env"; prefix := "stats-agent"; project := "demo";
     dryRun := true; skipSecrets := false; skipBootstrap := false; verbose := false |}.

Definition baseWorld : World :=
  {| Getenv := λ _, "";
     Getwd := Some "/work/cdk";
     UserHomeDir := Some "/home/dev";
     Stat := λ path, if String.eqb path ".env" then StatOk else StatNotExist;
     ReadFile := λ _, None;
     ReadLines := λ _, inr (["OPENAI_API_KEY=sk-123"; "LLM_MODEL=gpt-4"], None);
     LoadDefaultConfig := λ _, None;
     GetCallerIdentity := inr "123456789012";
     PutSecretValue := λ _ _, PutOk;
     CreateSecret := λ _ _ _, None;
     Run := λ _, None;
     KeyOrder := λ m, (map_to_list m).*1 |}.

Definition secretStoreDown : World :=
  {| Getenv := Getenv baseWorld; Getwd := Getwd baseWorld;
     UserHomeDir := UserHomeDir baseWorld; Stat := Stat baseWorld;
     ReadFile := ReadFile baseWorld; ReadLines := ReadLines baseWorld;
     LoadDefaultConfig := LoadDefaultConfig baseWorld;
     GetCallerIdentity := GetCallerIdentity baseWorld;
     PutSecretValue := λ _ _, PutError "AccessDeniedException";
     CreateSecret := CreateSecret baseWorld;
     Run := Run baseWorld; KeyOrder := KeyOrder baseWorld |}.

Definition bootstrapFails : World :=
  {| Getenv := Getenv baseWorld; Getwd := Getwd baseWorld;
     UserHomeDir := UserHomeDir baseWorld; Stat := Stat baseWorld;
     ReadFile := ReadFile baseWorld; ReadLines := ReadLines baseWorld;
     LoadDefaultConfig := LoadDefaultConfig baseWorld;
     GetCallerIdentity := GetCallerIdentity baseWorld;
     PutSecretValue := PutSecretValue baseWorld;
     CreateSecret := CreateSecret baseWorld;
     Run := λ argv, match argv with
                    | "cdk" :: "bootstrap" :: _ => Some "exit status 1"
                    | _ => None
                    end;
     KeyOrder := KeyOrder baseWorld |}.

Definition identityRefused : World :=
  {| Getenv := Getenv baseWorld; Getwd := Getwd baseWorld;
     UserHomeDir := UserHomeDir baseWorld; Stat := Stat baseWorld;
     ReadFile := ReadFile baseWorld; ReadLines := ReadLines baseWorld;
     LoadDefaultConfig := LoadDefaultConfig baseWorld;
     GetCallerIdentity := inl "ExpiredToken: the security token included in the request is expired";
     PutSecretValue := PutSecretValue baseWorld;
     CreateSecret := CreateSecret baseWorld;
     Run := Run baseWorld; KeyOrder := KeyOrder baseWorld |}.

End Pipeline.

(** ** Reading the order of creation *)

Module Layout.

Import iac AgentCore.

(** The ids of the constructs of the stack, in the order of creation. *)
Definition ids (s : AgentCoreStack) : list string := logicalId <$> Resources s.

(** Every construct of [l] refers only to constructs created before it,
    [seen] being the ids of those created before [l]. *)
Fixpoint createdInOrder (seen : list string) (l : list ResourceNode) : bool :=
  match l with
  | [] => true
  | n :: l =>
      forallb (λ id, bool_decide (id ∈ seen)) (dependsOn n)
      && createdInOrder (logicalId n :: seen) l
  end.

(** The outputs refer only to constructs of the stack. *)
Definition outputsResolve (s : AgentCoreStack) : bool :=
  forallb (λ o, forallb (λ id, bool_decide (id ∈ ids s)) (tokenRef (Value o))) (Outputs s).

(** The subnets the CDK reports for a VPC are attributes of that VPC or
    plain ids. *)
Definition subnetsOfVpc (PrivateSubnets : ResourceNode → option (list Token)) : Prop :=
  ∀ vpc subnets t id,
    PrivateSubnets vpc = Some subnets → t ∈ subnets → id ∈ tokenRef t → id = logicalId vpc.

(** A construct the stack holds in one of its fields is one of its
    constructs. *)
Definition known (s : AgentCoreStack) (p : option ResourceNode) : Prop :=
  ∀ n, p = Some n → logicalId n ∈ ids s.

(** What every step of [build] keeps. *)
Definition inv (s : AgentCoreStack) : Prop :=
  createdInOrder [] (Resources s) = true ∧
  known s (VPC s) ∧ known s (SecurityGroup s) ∧ known s (ExecutionRole s) ∧
  known s (Secret s) ∧ known s (LogGroup s) ∧ known s (Gateway s) ∧
  ∀ o id, o ∈ Outputs s → id ∈ tokenRef (Value o) → id ∈ ids s.

(** The tags [getTags] gives the constructs of agent [a]: those of the
    stack, and the name of the agent under [Agent]. *)
Definition agentTags (config : StackConfig) (a : AgentConfig) : gmap string string :=
  <["Agent" := Name a]> (entries (Tags config)).

(** The three constructs of agent [a], as [createAgent] makes them in a
    stack [s] whose execution role is [role], with every [range] done. *)
Definition scopeOf (a : AgentConfig) : ResourceNode :=
  {| logicalId := "Agent-" +:+ Name a; properties := AgentScope |}.

Definition runtimeOf (PrivateSubnets : ResourceNode → option (list Token))
    (s : AgentCoreStack) (role : ResourceNode) (a : AgentConfig) : ResourceNode :=
  {| logicalId := "Runtime-" +:+ Name a;
     properties :=
       CfnRuntime
         {| AgentRuntimeName := Name a;
            rt_RoleArn := RoleArn role;
            rt_Description := agent_Description a;
            ContainerUri := ContainerImage a;
            NetworkMode := "VPC";
            SecurityGroups := getSecurityGroupIds s;
            Subnets := getPrivateSubnetIds PrivateSubnets s;
            EnvironmentVariables := Graph.resolvedEnvironment (Config s) a;
            ProtocolConfiguration := getProtocol a;
            rt_Tags := agentTags (Config s) a;
            LifecycleConfiguration :=
              if (0 <? TimeoutSeconds a)%Z || (0 <? MemoryMB a)%Z
              then Some (if (0 <? TimeoutSeconds a)%Z
                         then Some (TimeoutSeconds a) else None)
              else None |} |}.

Definition endpointOf (s : AgentCoreStack) (a : AgentConfig) : ResourceNode :=
  {| logicalId := "Endpoint-" +:+ Name a;
     properties :=
       CfnRuntimeEndpoint
         {| ep_Name := Name a +:+ "-endpoint";
            AgentRuntimeId := Attr ("Runtime-" +:+ Name a) "AgentRuntimeId";
            ep_Description := "Endpoint for agent " +:+ Name a;
            ep_Tags := agentTags (Config s) a |} |}.

(** The outputs [addAgentOutputs] adds for agent [a]. *)
Definition agentOutputsOf (a : AgentConfig) : list CfnOutput :=
  [ {| out_id := "Agent-" +:+ Name a +:+ "-RuntimeArn";
       Value := Attr ("Runtime-" +:+ Name a) "AgentRuntimeArn";
       out_Description := "Runtime ARN for agent " +:+ Name a |};
    {| out_id := "Agent-" +:+ Name a +:+ "-RuntimeId";
       Value := Attr ("Runtime-" +:+ Name a) "AgentRuntimeId";
       out_Description := "Runtime ID for agent " +:+ Name a |};
    {| out_id := "Agent-" +:+ Name a +:+ "-EndpointArn";
       Value := Attr ("Endpoint-" +:+ Name a) "AgentRuntimeEndpointArn";
       out_Description := "Endpoint ARN for agent " +:+ Name a |};
    {| out_id := "Agent-" +:+ Name a +:+ "-Image";
       Value := Literal (ContainerImage a);
       out_Description := "Container image for agent " +:+ Name a |} ].

Definition agentConstructs (PrivateSubnets : ResourceNode → option (list Token))
    (s : AgentCoreStack) (role : ResourceNode) (a : AgentConfig) : list ResourceNode :=
  [scopeOf a; runtimeOf PrivateSubnets s role a; endpointOf s a].

(** The outputs [addOutputs] adds to a stack [s]. *)
Definition stackOutputs (s : AgentCoreStack) : list CfnOutput :=
  match VPC s with
  | Some vpc => [ {| out_id := "VPCID"; Value := VpcId vpc; out_Description := "VPC ID" |} ]
  | None => []
  end
  ++ match SecurityGroup s with
     | Some sg => [ {| out_id := "SecurityGroupID"; Value := SecurityGroupId sg;
                       out_Description := "Security Group ID" |} ]
     | None => []
     end
  ++ match ExecutionRole s with
     | Some role => [ {| out_id := "ExecutionRoleARN"; Value := RoleArn role;
                         out_Description := "IAM Execution Role ARN" |} ]
     | None => []
     end
  ++ match LogGroup s with
     | Some lg => [ {| out_id := "LogGroupName"; Value := LogGroupName lg;
                       out_Description := "CloudWatch Log Group Name" |} ]
     | None => []
     end
  ++ [ {| out_id := "AgentCount"; Value := Literal (pretty (size (Agents s)));
          out_Description := "Number of deployed agents" |} ]
  ++ match Gateway s with
     | Some gateway =>
         [ {| out_id := "GatewayArn"; Value := AttrGatewayArn gateway;
              out_Description := "Gateway ARN" |};
           {| out_id := "GatewayId"; Value := AttrGatewayIdentifier gateway;
              out_Description := "Gateway ID" |};
           {| out_id := "GatewayUrl"; Value := AttrGatewayUrl gateway;
              out_Description := "Gateway URL for invocation" |} ]
     | None => []
     end.

(** The endpoints [createVPCEndpoints] adds to the VPC [vpc]. *)
Definition vpcEndpoints (vpc : string) : list ResourceNode :=
  [ {| logicalId := "BedrockEndpoint"; properties := InterfaceEndpoint vpc "BEDROCK" |};
    {| logicalId := "BedrockRuntimeEndpoint";
       properties := InterfaceEndpoint vpc "BEDROCK_RUNTIME" |};
    {| logicalId := "SecretsManagerEndpoint";
       properties := InterfaceEndpoint vpc "SECRETS_MANAGER" |};
    {| logicalId := "LogsEndpoint"; properties := InterfaceEndpoint vpc "CLOUDWATCH_LOGS" |};
    {| logicalId := "EcrApiEndpoint"; properties := InterfaceEndpoint vpc "ECR" |};
    {| logicalId := "EcrDkrEndpoint"; properties := InterfaceEndpoint vpc "ECR_DOCKER" |};
    {| logicalId := "S3Endpoint"; properties := GatewayEndpoint vpc "S3" |} ].

(** The VPC [createVPC] creates. *)
Definition newVpc (config : StackConfig) (vpcConfig : VPCConfig) : ResourceNode :=
  {| logicalId := "VPC";
     properties :=
       VpcProps (StackName config +:+ "-vpc") (VPCCidr vpcConfig) (MaxAZs vpcConfig) 1
         true true
         [ {| subnet_Name := "Public"; subnet_Type := SubnetType_PUBLIC; CidrMask := 24 |};
           {| subnet_Name := "Private"; subnet_Type := SubnetType_PRIVATE_WITH_EGRESS;
              CidrMask := 24 |} ] |}.

(** The constructs of [createVPC]: the VPC first, if there is one. *)
Definition networkOf (config : StackConfig) (vpcConfig : VPCConfig) : list ResourceNode :=
  if negb (String.eqb (VPCID vpcConfig) "")
  then [ {| logicalId := "VPC"; properties := VpcLookup (VPCID vpcConfig) |} ]
  else if CreateVPC vpcConfig
  then newVpc config vpcConfig
       :: (if EnableVPCEndpoints vpcConfig then vpcEndpoints "VPC" else [])
  else [].

(** The security group [createSecurityGroup] imports or creates. *)
Definition securityGroupOf (config : StackConfig) (vpc : option ResourceNode)
    (vpcConfig : VPCConfig) : ResourceNode :=
  match SecurityGroupIDs vpcConfig with
  | id0 :: _ => {| logicalId := "SecurityGroup"; properties := SecurityGroupImport id0 |}
  | [] =>
      {| logicalId := "SecurityGroup";
         properties :=
           SecurityGroupProps (logicalId <$> vpc) (StackName config +:+ "-sg")
             ("Security group for " +:+ StackName config +:+ " AgentCore agents") true
             [ {| peer := "SecurityGroup"; connection := "ALL_TRAFFIC";
                  rule_Description := "Allow communication between agents";
                  remoteRule := false |} ] |}
  end.

(** The secret [createSecrets] creates, if it creates one. *)
Definition secretOf (config : StackConfig) : option ResourceNode :=
  match Secrets config with
  | None => None
  | Some secretsConfig =>
      if CreateSecrets secretsConfig
         && negb (bool_decide (size (SecretValues secretsConfig) = 0%nat))
      then Some {| logicalId := "Secrets";
                   properties :=
                     SecretProps
                       (if String.eqb (SecretName secretsConfig) ""
                        then StackName config +:+ "-secrets"
                        else SecretName secretsConfig)
                       ("Secrets for " +:+ StackName config +:+ " AgentCore agents") ∅ |}
      else None
  end.

(** The log group [createLogGroup] creates, if it creates one. *)
Definition logGroupOf (config : StackConfig) : option ResourceNode :=
  match Observability config with
  | None => None
  | Some observability =>
      if EnableCloudWatchLogs observability
      then Some {| logicalId := "LogGroup";
                   properties :=
                     LogGroupProps ("/aws/agentcore/" +:+ StackName config)
                       (retentionOf (LogRetentionDays observability))
                       (if String.eqb (RemovalPolicy config) "retain"
                        then RemovalPolicy_RETAIN else RemovalPolicy_DESTROY) |}
      else None
  end.

(** The execution role [createIAMRole] imports or creates in a stack [s],
    and the constructs it imports on the way when it creates the role. *)
Definition roleOf (s : AgentCoreStack) (iamConfig : IAMConfig) : ResourceNode :=
  if negb (String.eqb (RoleARN iamConfig) "")
  then {| logicalId := "ExecutionRole"; properties := RoleFromArn (RoleARN iamConfig) |}
  else {| logicalId := "ExecutionRole"; properties := Role (newRole s iamConfig) |}.

Definition roleImports (config : StackConfig) (iamConfig : IAMConfig) : list ResourceNode :=
  if negb (String.eqb (RoleARN iamConfig) "") then []
  else
    agentSecrets (iac.Agents config) ++ additionalPolicies iamConfig
    ++ (if negb (String.eqb (PermissionsBoundaryARN iamConfig) "")
        then [ {| logicalId := "PermissionsBoundary";
                  properties := ManagedPolicyFromArn (PermissionsBoundaryARN iamConfig) |} ]
        else []).

(** The gateway [createGateway] creates for the role [role], if it
    creates one. *)
Definition gatewayOf (config : StackConfig) (role : ResourceNode) : option ResourceNode :=
  match iac.Gateway config with
  | None => None
  | Some gatewayConfig =>
      if Enabled gatewayConfig
      then Some {| logicalId := "Gateway";
                   properties :=
                     CfnGateway
                       {| gwp_Name := gw_Name gatewayConfig;
                          gwp_Description := gw_Description gatewayConfig;
                          AuthorizerType := "NONE";
                          ProtocolType :=
                            match iac.Agents config with
                            | agent0 :: _ =>
                                if negb (String.eqb (Protocol agent0) "")
                                then Protocol agent0 else "MCP"
                            | [] => "MCP"
                            end;
                          gwp_RoleArn := RoleArn role;
                          gwp_Tags := entries (Tags config) |} |}
      else None
  end.

(** The constructs of a stack built from [config], in the order of
    creation, in terms of the fields of the stack [s] that is returned. *)
Definition layoutOf (PrivateSubnets : ResourceNode → option (list Token))
    (config : StackConfig) (vpcConfig : VPCConfig) (iamConfig : IAMConfig)
    (s : AgentCoreStack) : list ResourceNode :=
  networkOf config vpcConfig
  ++ [securityGroupOf config (VPC s) vpcConfig]
  ++ option_list (secretOf config)
  ++ [roleOf s iamConfig] ++ roleImports config iamConfig
  ++ option_list (logGroupOf config)
  ++ flat_map (agentConstructs PrivateSubnets s (roleOf s iamConfig)) (iac.Agents config)
  ++ option_list (gatewayOf config (roleOf s iamConfig)).

(** The fields of the stack that hold constructs. *)
Definition fieldsOf (s : AgentCoreStack) :=
  (VPC s, SecurityGroup s, Secret s, ExecutionRole s, LogGroup s, Gateway s).

End Layout.

(** ** A stack on an existing network and role *)

Module Imports.

Import iac AgentCore Samples.

Definition existingVPC : VPCConfig :=
  {| VPCID := "vpc-0a1b2c3d"; SubnetIDs := ["subnet-1"; "subnet-2"]; SecurityGroupIDs := [];
     CreateVPC := true; VPCCidr := "10.0.0.0/16"; MaxAZs := 2; EnableVPCEndpoints := true |}.

Definition existingRole : IAMConfig :=
  {| RoleARN := "arn:aws:iam::123456789012:role/agents"; EnableBedrockAccess := true;
     BedrockModelIDs := twoModels;
     AdditionalPolicies := ["arn:aws:iam::aws:policy/ReadOnlyAccess"];
     PermissionsBoundaryARN := "arn:aws:iam::123456789012:policy/boundary" |}.

Definition withVPC (vpc : VPCConfig) (config : StackConfig) : StackConfig :=
  {| StackName := StackName config; Description := Description config;
     iac.Agents := iac.Agents config;
     iac.VPC := Some vpc; Secrets := Secrets config;
     Observability := Observability config;
     IAM := IAM config; iac.Gateway := iac.Gateway config;
     Tags := Tags config; RemovalPolicy := RemovalPolicy config |}.

(** The stack [imported]: that of [team] on a VPC and under a role that
    exist. *)
Definition imported : StackConfig := withVPC existingVPC (withIAM existingRole team).

End Imports.

(** ** Reading the lines of an env file *)

Module EnvLines.

Import GoStrings EnvFile.

(** Every character of [s] satisfies [p]. *)
Fixpoint allChars (p : ascii → bool) (s : string) : bool :=
  match s with
  | EmptyString => true
  | String c rest => p c && allChars p rest
  end.

(** A key as the expression of [parseEnvFile] takes it: a letter or an
    underscore, then letters, digits and underscores. *)
Definition identifier (key : string) : bool :=
  match key with
  | String c rest => isKeyStart c && allChars isKeyChar rest
  | EmptyString => false
  end.

(** What may stand before the key on a line: white space, then possibly
    [export] and white space. *)
Definition leader (pre : string) : Prop :=
  ∃ ws, allChars isReSpace ws = true ∧
    (pre = ws ∨
     ∃ c ws', isReSpace c = true ∧ allChars isReSpace ws' = true ∧
              pre = ws +:+ "export" +:+ String c ws').

End EnvLines.

(** ** [cmd/push-secrets]: the run *)

Module PushSecretsRun.

Import GoStrings EnvFile CLI PushSecrets.

Definition DefaultConfigDir : string := ".plexusone".

Section Platform.

(** [filepath.Join] of the platform, and the text a dry run shows for the
    keys of a group: [maskSecretValues] of the JSON object [json.Marshal]
    makes of them. *)
Variable Join : list string → string.
Variable masked : gmap string string → string.

(** [processGroup].  [json.Marshal] of a map of strings does not fail. *)
Definition processGroup (secretName : string) (group : SecretGroup) (dryRun : bool)
    : IO unit :=
  if bool_decide (size (Keys group) = 0%nat) then
    Println ("Skipping " +:+ secretName +:+ " (no keys found)")
  else
    let secretValue := Keys group in
    Println ("Creating/updating: " +:+ secretName);;
    w ← world;
    let keyNames := KeyOrder w (Keys group) in
    Println ("  Keys: " +:+ GoStrings.Join keyNames ", ");;
    if dryRun then
      Println ("  [DRY RUN] Would create with: " +:+ masked secretValue)
    else
      emit (SMPutSecretValue secretName secretValue);;
      match PutSecretValue w secretName secretValue with
      | PutOk => Println "  Updated existing secret"
      | ResourceNotFoundException _ =>
          emit (SMCreateSecret secretName (Description group) secretValue);;
          match CreateSecret w secretName (Description group) secretValue with
          | Some msg =>
              fail (wrap "creating secret" {| origin := FromAWS; Error := msg |})
          | None => Println "  Created new secret"
          end
      | PutError msg => fail (wrap "updating secret" {| origin := FromAWS; Error := msg |})
      end.

(** [for _, group := range groups { ... processGroup ... }]. *)
Fixpoint processGroups (prefix : string) (groups : list SecretGroup) (dryRun : bool)
    : IO unit :=
  match groups with
  | [] => mret ()
  | group :: rest =>
      let secretName := prefix +:+ "/" +:+ Name group in
      wrapping ("processing " +:+ secretName) (processGroup secretName group dryRun);;
      processGroups prefix rest dryRun
  end.

(** [run]. *)
Definition run (envFile region prefix : string) (dryRun verbose : bool) : IO unit :=
  Println ("Reading from: " +:+ envFile);;
  groups ← wrapping "parsing env file" (parseEnvFile envFile groups verbose);
  Println ("AWS Region: " +:+ region);;
  Println ("Secret prefix: " +:+ prefix);;
  (if dryRun then Println "Mode: DRY RUN (no changes will be made)" else mret ());;
  Println "";;
  (if negb dryRun then
     emit (AWSLoadDefaultConfig region);;
     w ← world;
     match LoadDefaultConfig w region with
     | Some msg => fail (wrap "loading AWS config" {| origin := FromAWS; Error := msg |})
     | None => mret ()
     end
   else mret ());;
  processGroups prefix groups dryRun;;
  Println "";;
  Println "Done!";;
  Println "";;
  Println "To verify:";;
  Println ("  aws secretsmanager list-secrets --region " +:+ region
           +:+ " --filter Key=name,Values=" +:+ prefix +:+ "/ --no-cli-pager").

(** [findEnvFile]. *)
Definition findEnvFile (projectName : string) : IO string :=
  w ← world;
  let candidates := [".env"; "../.env"] in
  let candidates :=
    match UserHomeDir w with
    | Some home =>
        let candidates :=
          if negb (String.eqb projectName "")
          then candidates ++ [Join [home; DefaultConfigDir; "projects"; projectName; ".env"]]
          else candidates in
        candidates ++ [Join [home; DefaultConfigDir; ".env"]]
    | None => candidates
    end in
  match Deploy.firstExisting w candidates with
  | Some path => mret path
  | None =>
      fail {| origin := FromFile;
              Error := "no .env file found in: .env, ../.env, or ~/.plexusone/" |}
  end.

End Platform.

End PushSecretsRun.

(** ** Reading the two tools side by side *)

Module SideBySide.

Import CLI.

(** A group of [cmd/deploy] as a group of [cmd/push-secrets]. *)
Definition toGroup (g : Deploy.secretGroup) : PushSecrets.SecretGroup :=
  {| PushSecrets.Name := Deploy.name g;
     PushSecrets.Description := Deploy.description g;
     PushSecrets.Keys := Deploy.keys g;
     PushSecrets.Patterns := Deploy.patterns g |}.

(** The calls to the secret store among the events. *)
Definition isSecretStore (e : Event) : Prop :=
  match e with
  | SMPutSecretValue _ _ | SMCreateSecret _ _ _ => True
  | _ => False
  end.

#[global] Instance isSecretStore_dec e : Decision (isSecretStore e).
Proof. destruct e; simpl; apply _. Defined.

(** The files [findEnvFile] looks for, in the order it looks for them. *)
Definition candidates (Join : list string → string) (projectName : string) (w : World)
    : list string :=
  [".env"; "../.env"]
  ++ match UserHomeDir w with
     | Some home =>
         (if negb (String.eqb projectName "")
          then [Join [home; Deploy.DefaultConfigDir; "projects"; projectName; ".env"]]
          else [])
         ++ [Join [home; Deploy.DefaultConfigDir; ".env"]]
     | None => []
     end.

(** The calls to the secret store that push the keys of a group of
    [cmd/deploy] under [prefix]: the update, and the creation when the
    store does not know the secret. *)
Definition writesOf (w : World) (prefix : string) (g : Deploy.secretGroup) : list Event :=
  let secretName := prefix +:+ "/" +:+ Deploy.name g in
  SMPutSecretValue secretName (Deploy.keys g)
  :: match PutSecretValue w secretName (Deploy.keys g) with
     | ResourceNotFoundException _ =>
         [SMCreateSecret secretName (Deploy.description g) (Deploy.keys g)]
     | _ => []
     end.

(** The write of a group can succeed: the store takes the update, or it
    does not know the secret and takes the creation. *)
Definition writable (w : World) (prefix : string) (g : Deploy.secretGroup) : Prop :=
  let secretName := prefix +:+ "/" +:+ Deploy.name g in
  match PutSecretValue w secretName (Deploy.keys g) with
  | PutOk => True
  | ResourceNotFoundException _ =>
      CreateSecret w secretName (Deploy.description g) (Deploy.keys g) = None
  | PutError _ => False
  end.

(** [cdk bootstrap]. *)
Definition isBootstrap (e : Event) : Prop :=
  match e with
  | Exec ("cdk" :: "bootstrap" :: _) => True
  | _ => False
  end.

(** What a search for the env file returns: no event, and the first of
    the candidates that [os.Stat] finds, or an error with the message
    [msg] when it finds none. *)
Definition firstFound (w : World) (candidates : list string) (msg : string)
    (r : list Event * (error + string)) : Prop :=
  r.1 = [] ∧
  match r.2 with
  | inr path =>
      ∃ before after, candidates = before ++ path :: after ∧
        Stat w path = StatOk ∧ Forall (λ c, Stat w c ≠ StatOk) before
  | inl err =>
      Forall (λ c, Stat w c ≠ StatOk) candidates ∧
      err = {| origin := FromFile; Error := msg |}
  end.

(** The errors of the run of [cmd/push-secrets] name the step that
    failed. *)
Definition namesTheStep (prefix : string) (dryRun : bool) (err : error) : Prop :=
  (∃ msg, err = {| origin := FromFile; Error := "parsing env file: " +:+ msg |}) ∨
  (dryRun = false ∧
   ∃ msg, err = {| origin := FromAWS; Error := "loading AWS config: " +:+ msg |}) ∨
  (dryRun = false ∧
   ∃ name step msg,
     name ∈ ["llm"; "search"; "config"] ∧
     step ∈ ["updating secret"; "creating secret"] ∧
     err = {| origin := FromAWS;
              Error := "processing " +:+ prefix +:+ "/" +:+ name +:+ ": " +:+ step
                       +:+ ": " +:+ msg |}).

End SideBySide.

(** ** Sample files, groups and worlds *)

Module Worlds.

Import CLI Pipeline Classification.

(** A file that assigns a key twice. *)
Definition assignedTwice : list string :=
  [ "OPENAI_API_KEY=sk-old"; "export OPENAI_API_KEY='sk-new'"; "LLM_MODEL=gpt-4" ].

(** A directory without an env file, with no file above it or under the
    home directory either. *)
Definition emptyDir : World :=
  {| Getenv := Getenv baseWorld; Getwd := Getwd baseWorld;
     UserHomeDir := UserHomeDir baseWorld; Stat := λ _, StatNotExist;
     ReadFile := ReadFile baseWorld; ReadLines := ReadLines baseWorld;
     LoadDefaultConfig := LoadDefaultConfig baseWorld;
     GetCallerIdentity := GetCallerIdentity baseWorld;
     PutSecretValue := PutSecretValue baseWorld;
     CreateSecret := CreateSecret baseWorld;
     Run := Run baseWorld; KeyOrder := KeyOrder baseWorld |}.

(** A secret store that knows none of the secrets yet. *)
Definition newStore : World :=
  {| Getenv := Getenv baseWorld; Getwd := Getwd baseWorld;
     UserHomeDir := UserHomeDir baseWorld; Stat := Stat baseWorld;
     ReadFile := ReadFile baseWorld; ReadLines := ReadLines baseWorld;
     LoadDefaultConfig := LoadDefaultConfig baseWorld;
     GetCallerIdentity := GetCallerIdentity baseWorld;
     PutSecretValue := λ _ _, ResourceNotFoundException "Secrets Manager can't find the specified secret.";
     CreateSecret := CreateSecret baseWorld;
     Run := Run baseWorld; KeyOrder := KeyOrder baseWorld |}.

(** Two groups of [cmd/deploy], one of which holds a key. *)
Definition oneKey : list Deploy.secretGroup :=
  [ {| Deploy.name := "llm"; Deploy.description := "LLM provider API keys";
       Deploy.keys := {[ "OPENAI_API_KEY" := "sk-123" ]};
       Deploy.patterns := ["OPENAI_API_KEY"] |};
    {| Deploy.name := "search"; Deploy.description := "Search provider API keys";
       Deploy.keys := ∅;
       Deploy.patterns := ["SERPER_API_KEY"] |} ].

(** The text a dry run shows for the keys of a group, with every value
    hidden. *)
Definition hidden : gmap string string → string := λ _, "***".

End Worlds.

(** ** Facts about the builder *)

Module AgentCoreFacts.

Import iac AgentCore Graph Samples.

(** *** Running the builder monad *)

Lemma bind_Ok {A B} (m : Build A) (f : A → Build B) s b s' :
  (m ≫= f) s = Ok (b, s') →
  ∃ a s1, m s = Ok (a, s1) ∧ f a s1 = Ok (b, s').
Proof.
  unfold mbind, Build_bind. destruct (m s) as [[a s1]|msg]; [|done].
  intros H. by exists a, s1.
Qed.

Lemma get_Ok s a s' : get s = Ok (a, s') → a = s ∧ s' = s.
Proof. unfold get. by intros [= <- <-]. Qed.

Lemma modify_Ok f s u s' : modify f s = Ok (u, s') → s' = f s.
Proof. unfold modify. by intros [= <-]. Qed.

Lemma ret_Ok {A} (a : A) s b s' : (mret a : Build A) s = Ok (b, s') → b = a ∧ s' = s.
Proof. unfold mret, Build_ret. by intros [= <- <-]. Qed.

Lemma deref_Ok {A} (p : option A) s a s' : deref p s = Ok (a, s') → p = Some a ∧ s' = s.
Proof. destruct p; simpl; [|done]. by intros [= <- <-]. Qed.

Lemma newConstruct_Ok id p s n s' :
  newConstruct id p s = Ok (n, s') →
  n = {| logicalId := id; properties := p |} ∧
  s' = with_Resources (λ l, l ++ [n]) s.
Proof. unfold newConstruct. cbn. by intros [= <- <-]. Qed.

Lemma NewCfnOutput_Ok id v d s u s' :
  NewCfnOutput id v d s = Ok (u, s') →
  s' = with_Outputs (λ l, l ++ [{| out_id := id; Value := v; out_Description := d |}]) s.
Proof. unfold NewCfnOutput. cbn. by intros [= <-]. Qed.

Lemma rangeCopy_Ok order src dst s m s' :
  rangeCopy order src dst s = Ok (m, s') →
  m = foldl (λ acc kv, <[kv.1 := kv.2]> acc) dst (order (ranges s) src) ∧
  s' = with_ranges S s.
Proof. unfold rangeCopy. cbn. by intros [= <- <-]. Qed.

(** Decomposes the runs of the monad's primitives among the hypotheses. *)
Ltac run_step :=
  match goal with
  | H : @mbind Build _ _ _ _ _ _ = Ok _ |- _ =>
      apply bind_Ok in H; destruct H as (? & ? & ? & H)
  | H : get _ = Ok _ |- _ => apply get_Ok in H; destruct H as [-> ->]
  | H : modify _ _ = Ok _ |- _ => pose proof (modify_Ok _ _ _ _ H); clear H; subst
  | H : @mret Build _ _ _ _ = Ok _ |- _ =>
      pose proof (ret_Ok _ _ _ _ H) as [? ?]; clear H; subst
  | H : deref _ _ = Ok _ |- _ =>
      pose proof (deref_Ok _ _ _ _ H) as [? ?]; clear H; subst
  | H : newConstruct _ _ _ = Ok _ |- _ =>
      pose proof (newConstruct_Ok _ _ _ _ _ H) as [? ?]; clear H; subst
  | H : NewCfnOutput _ _ _ _ = Ok _ |- _ =>
      pose proof (NewCfnOutput_Ok _ _ _ _ _ _ H); clear H; subst
  | H : rangeCopy _ _ _ _ = Ok _ |- _ =>
      pose proof (rangeCopy_Ok _ _ _ _ _ _ H) as [? ?]; clear H; subst
  | H : panic _ _ = Ok _ |- _ => discriminate H
  | H : (if ?b then _ else _) _ = Ok _ |- _ => destruct b eqn:?
  | H : (match ?d with _ => _ end) _ = Ok _ |- _ => destruct d eqn:?
  end.
Ltac run := repeat run_step.

(** *** Map iteration *)

Lemma foldl_insert_union (l : list (string * string)) (dst : gmap string string) :
  NoDup l.*1 →
  foldl (λ acc kv, <[kv.1 := kv.2]> acc) dst l = list_to_map l ∪ dst.
Proof.
  revert dst. induction l as [|[k v] l IH]; intros dst Hnd.
  - simpl. by rewrite (left_id_L ∅ (∪)).
  - rewrite fmap_cons in Hnd. apply NoDup_cons in Hnd as [Hk Hnd].
    cbn [foldl fst snd]. rewrite IH by done. rewrite list_to_map_cons.
    apply map_eq. intros i. rewrite !lookup_union.
    destruct (decide (k = i)) as [->|Hne].
    + rewrite !lookup_insert_eq.
      rewrite (not_elem_of_list_to_map_1 l i) by done.
      rewrite (left_id_L None _). by rewrite union_Some_l.
    + by rewrite !lookup_insert_ne by done.
Qed.

(** A copying [range] yields the entries of the source over those of the
    destination, in whatever order it runs. *)
Lemma rangeCopy_valid order src dst s :
  validOrder order →
  rangeCopy order src dst s = Ok (src ∪ dst, with_ranges S s).
Proof.
  intros Hv. unfold rangeCopy, mbind, Build_bind, get, modify, mret, Build_ret. simpl.
  do 2 f_equal.
  assert (Hp := Hv (ranges s) src).
  rewrite foldl_insert_union.
  - f_equal. rewrite <- (list_to_map_to_list src) at 2.
    apply list_to_map_proper; [|done].
    rewrite Hp. apply NoDup_fst_map_to_list.
  - rewrite Hp. apply NoDup_fst_map_to_list.
Qed.

Lemma foldl_range_valid order n src dst :
  validOrder order →
  foldl (λ acc kv, <[kv.1 := kv.2]> acc) dst (order n src) = src ∪ dst.
Proof.
  intros Hv. pose proof (rangeCopy_valid order src dst (newStack
    {| StackName := ""; Description := ""; iac.Agents := []; iac.VPC := None;
       Secrets := None; Observability := None; IAM := None; iac.Gateway := None;
       Tags := None; RemovalPolicy := "" |} None n) Hv) as H.
  unfold rangeCopy, mbind, Build_bind, get, modify, mret, Build_ret in H. simpl in H.
  by injection H.
Qed.

(** *** What each step adds *)

Lemma adds_refl K s : adds K s s.
Proof. split; [done|]. exists []. by rewrite app_nil_r. Qed.

Lemma quiet_refl s : quiet s s.
Proof. done. Qed.

Lemma adds_trans K1 K2 s1 s2 s3 :
  adds K1 s1 s2 → adds K2 s2 s3 → adds (K1 ++ K2) s1 s3.
Proof.
  intros [Hc1 (a1 & Hr1 & Hf1)] [Hc2 (a2 & Hr2 & Hf2)]. split; [congruence|].
  exists (a1 ++ a2). split.
  - by rewrite Hr2, Hr1, app_assoc.
  - apply Forall_app. split; (eapply Forall_impl; [eassumption|]);
      intros n Hn; simpl in Hn; apply elem_of_app; auto.
Qed.

Lemma quiet_trans s1 s2 s3 : quiet s1 s2 → quiet s2 s3 → quiet s1 s3.
Proof. intros [? ?] [? ?]. split; congruence. Qed.

(** Closes [adds K s s'] once [s'] is an explicit extension of [s]. *)
Ltac solve_adds :=
  first
    [ apply adds_refl
    | split; [done|]; simpl; rewrite <- ?app_assoc; simpl;
      eexists; split; [reflexivity|];
      repeat (apply Forall_cons; split; [simpl; set_solver|]); apply Forall_nil_2 ].

Lemma createVPC_adds s s' u :
  createVPC s = Ok (u, s') → adds [KNetwork; KNetworkEndpoint] s s' ∧ quiet s s'.
Proof.
  unfold createVPC, createVPCEndpoints. intros H. run; (split; [solve_adds|done]).
Qed.

Lemma createSecurityGroup_adds s s' u :
  createSecurityGroup s = Ok (u, s') → adds [KSecurityBoundary] s s' ∧ quiet s s'.
Proof.
  unfold createSecurityGroup. intros H. run; (split; [solve_adds|done]).
Qed.

Lemma createLogGroup_adds s s' u :
  createLogGroup s = Ok (u, s') → adds [KLogSink] s s' ∧ quiet s s'.
Proof.
  unfold createLogGroup. intros H. run; (split; [solve_adds|done]).
Qed.

Lemma createSecrets_adds order s s' u :
  createSecrets order s = Ok (u, s') → adds [KSecretStore] s s' ∧ quiet s s'.
Proof.
  unfold createSecrets. intros H. run; (split; [solve_adds|done]).
Qed.

Lemma agentSecrets_kind agents :
  Forall (λ n, kind n = KSecretReference) (agentSecrets agents).
Proof.
  unfold agentSecrets. induction agents as [|a agents IH]; [constructor|].
  rewrite bind_cons. apply Forall_app. split; [|done].
  induction (SecretsARNs a) as [|x l IHl]; [constructor|].
  rewrite bind_cons. simpl. by constructor.
Qed.

Lemma additionalPolicies_kind iamConfig :
  Forall (λ n, kind n = KPolicyReference) (additionalPolicies iamConfig).
Proof.
  unfold additionalPolicies. induction (AdditionalPolicies iamConfig); simpl; by constructor.
Qed.

Lemma createIAMRole_adds s s' u :
  createIAMRole s = Ok (u, s') →
  adds [KIdentity; KSecretReference; KPolicyReference] s s' ∧ quiet s s'.
Proof.
  unfold createIAMRole. intros H. run; (split; [|done]).
  - solve_adds.
  - split; [done|]. simpl. rewrite <- !app_assoc. eexists. split; [reflexivity|].
    apply Forall_cons. split; [simpl; set_solver|].
    apply Forall_app. split.
    { eapply Forall_impl; [apply agentSecrets_kind|]. intros n ->. set_solver. }
    apply Forall_app. split.
    { eapply Forall_impl; [apply additionalPolicies_kind|]. intros n ->. set_solver. }
    apply Forall_cons. split; [simpl; set_solver|]. apply Forall_nil_2.
  - split; [done|]. simpl. rewrite <- !app_assoc. eexists. split; [reflexivity|].
    apply Forall_cons. split; [simpl; set_solver|].
    apply Forall_app. split.
    { eapply Forall_impl; [apply agentSecrets_kind|]. intros n ->. set_solver. }
    eapply Forall_impl; [apply additionalPolicies_kind|]. intros n ->. set_solver.
Qed.

Lemma createGateway_adds order s s' u :
  createGateway order s = Ok (u, s') →
  adds [KGateway] s s' ∧ Outputs s' = Outputs s.
Proof.
  unfold createGateway, getStackTags. intros H. run; (split; [solve_adds|done]).
Qed.

Lemma HasPrefix_app p s : GoStrings.HasPrefix (p +:+ s) p = true.
Proof. induction p as [|c p IH]; simpl; [by destruct s|]. by rewrite decide_True. Qed.

Lemma createAgent_Ok order PS a s s' u :
  createAgent order PS a s = Ok (u, s') →
  Config s' = Config s ∧ Gateway s' = Gateway s ∧
  (∃ ns, Resources s' = Resources s ++ ns ∧ agentNodes order (Config s) a ns) ∧
  (∃ outs, Outputs s' = Outputs s ++ outs ∧ agentOutputs outs).
Proof.
  unfold createAgent, createAgentRuntime, createRuntimeEndpoint, addAgentOutputs, getTags.
  intros H. run. simpl in *.
  all: rewrite ?lookup_insert_eq in *; simplify_eq.
  split; [done|]. split; [done|]. split.
  - eexists. split; [by rewrite <- !app_assoc|].
    eexists _, _. split; [reflexivity|]. simpl.
    split; [done|]. split; [apply lookup_insert_eq|]. split; [apply lookup_insert_eq|].
    split; [done|]. intros Hv. rewrite !(foldl_range_valid _ _ _ _ Hv), !(right_id_L ∅ (∪)).
    unfold resolvedEnvironment. by destruct (IsDefault a), (Observability (Config s)).
  - eexists. split; [by rewrite <- !app_assoc|].
    repeat (apply Forall_cons; split; [simpl; apply HasPrefix_app|]). apply Forall_nil_2.
Qed.

Lemma createAgents_Ok order PS agents s s' u :
  createAgents order PS agents s = Ok (u, s') →
  Config s' = Config s ∧ Gateway s' = Gateway s ∧
  (∃ nss, Resources s' = Resources s ++ concat nss ∧
          Forall2 (agentNodes order (Config s)) agents nss) ∧
  (∃ outs, Outputs s' = Outputs s ++ outs ∧ agentOutputs outs).
Proof.
  revert s u. induction agents as [|a agents IH]; intros s u H; simpl in H.
  - run. split; [done|]. split; [done|]. split.
    + exists []. split; [by rewrite app_nil_r|constructor].
    + exists []. split; [by rewrite app_nil_r|constructor].
  - run. apply createAgent_Ok in H0 as (Hc & Hg & (ns & Hr & Hn) & (o1 & Ho1 & Hp1)).
    apply IH in H as (Hc' & Hg' & (nss & Hr' & Hn') & (o2 & Ho2 & Hp2)).
    split; [congruence|]. split; [congruence|]. split.
    + exists (ns :: nss). split.
      * by rewrite Hr', Hr, <- app_assoc.
      * constructor; [done|]. by rewrite <- Hc.
    + exists (o1 ++ o2). split.
      * by rewrite Ho2, Ho1, <- app_assoc.
      * by apply Forall_app.
Qed.

(** The steps of [build], one after the other. *)
Lemma build_Ok order PS config s0 s u :
  build order PS config s0 = Ok (u, s) →
  ∃ s1 s2 s3 s4 s5 s6 s7,
    createVPC s0 = Ok ((), s1) ∧
    createSecurityGroup s1 = Ok ((), s2) ∧
    createSecrets order s2 = Ok ((), s3) ∧
    createIAMRole s3 = Ok ((), s4) ∧
    createLogGroup s4 = Ok ((), s5) ∧
    createAgents order PS (iac.Agents config) s5 = Ok ((), s6) ∧
    createGateway order s6 = Ok ((), s7) ∧
    addOutputs s7 = Ok ((), s).
Proof.
  unfold build. intros H.
  do 7 (apply bind_Ok in H; destruct H as ([] & ? & ? & H)).
  destruct u. do 7 eexists.
  repeat match goal with |- _ ∧ _ => split end; eassumption.
Qed.

Lemma NewAgentCoreStack_Ok order PS AD V config s :
  NewAgentCoreStack order PS AD V config = Ok s →
  V (AD config) = None ∧
  ∃ tags n, build order PS (AD config) (newStack (AD config) tags n) = Ok ((), s).
Proof.
  unfold NewAgentCoreStack. destruct (V (AD config)); [done|].
  match goal with |- match ?m with _ => _ end = _ → _ => destruct m as [[[] s']|] eqn:H end;
    [|done].
  intros [= ->]. split; [done|].
  apply bind_Ok in H as (tags & s1 & Ht & H).
  apply bind_Ok in H as ([] & s2 & Hm & H).
  apply modify_Ok in Hm. subst s2. eauto.
Qed.



Lemma createAgents_adds order PS agents s s' u :
  createAgents order PS agents s = Ok (u, s') →
  adds [KAgentScope; KRuntime; KEndpoint] s s'.
Proof.
  intros H. apply createAgents_Ok in H as (Hc & _ & (nss & Hr & Hn) & _).
  split; [done|]. exists (concat nss). split; [done|].
  clear Hr. induction Hn as [|a ns agents nss (rp & ep & -> & _) _ IH]; simpl.
  - constructor.
  - repeat (apply Forall_cons; split; [simpl; set_solver|]). done.
Qed.

(** Settles a decidable proposition by evaluation. *)
Ltac decide_it := apply (bool_decide_unpack _); vm_compute; exact I.

Lemma addOutputs_Ok s s' u :
  addOutputs s = Ok (u, s') →
  Resources s' = Resources s ∧ Config s' = Config s ∧ Gateway s' = Gateway s ∧
  ∃ outs, Outputs s' = Outputs s ++ outs ∧
    (Gateway s = None → Forall (λ o, out_id o ∉ gatewayOutputs) outs).
Proof.
  unfold addOutputs. intros H. run; simpl.
  all: split; [done|]; split; [done|]; split; [done|].
  all: rewrite <- ?app_assoc; simpl; eexists; (split; [reflexivity|]).
  all: intros Hg; try discriminate Hg.
  all: repeat (apply Forall_cons; split;
               [decide_it|]); apply Forall_nil_2.
Qed.

Lemma nodesOfKind_adds K k s s' :
  adds K s s' → k ∉ K → nodesOfKind k s' = nodesOfKind k s.
Proof.
  intros [_ (added & Hr & Hf)] Hk. unfold nodesOfKind. rewrite Hr, filter_app.
  rewrite <- (app_nil_r (filter _ (Resources s))) at 2. f_equal.
  clear Hr. induction Hf as [|n l Hn _ IH]; [done|].
  by rewrite filter_cons_False by (intros Heq; apply Hk; by rewrite <- Heq).
Qed.

(** The states [build] goes through, with what is known of each step
    whatever the configuration. *)
Lemma build_steps order PS AD V config s :
  NewAgentCoreStack order PS AD V config = Ok s →
  ∃ s0 s1 s2 s3 s4 s5 s6 s7,
    Resources s0 = [] ∧ Outputs s0 = [] ∧ Gateway s0 = None ∧ Config s0 = AD config ∧
    createVPC s0 = Ok ((), s1) ∧
    createSecurityGroup s1 = Ok ((), s2) ∧
    createSecrets order s2 = Ok ((), s3) ∧
    createIAMRole s3 = Ok ((), s4) ∧
    createLogGroup s4 = Ok ((), s5) ∧
    createAgents order PS (iac.Agents (AD config)) s5 = Ok ((), s6) ∧
    createGateway order s6 = Ok ((), s7) ∧
    addOutputs s7 = Ok ((), s).
Proof.
  intros H. apply NewAgentCoreStack_Ok in H as (_ & tags & n & H).
  apply build_Ok in H as (s1 & s2 & s3 & s4 & s5 & s6 & s7 & H).
  exists (newStack (AD config) tags n), s1, s2, s3, s4, s5, s6, s7.
  by repeat split; try apply H.
Qed.

(** Brings the steps of a successful build and their frames into the context. *)
Ltac steps H :=
  apply build_steps in H
    as (s0 & s1 & s2 & s3 & s4 & s5 & s6 & s7
        & Hr0 & Ho0 & Hg0 & Hc0 & Hvpc & Hsg & Hsec & Hiam & Hlog & Hag & Hgw & Hout);
  pose proof (createVPC_adds _ _ _ Hvpc) as [Avpc Qvpc];
  pose proof (createSecurityGroup_adds _ _ _ Hsg) as [Asg Qsg];
  pose proof (createSecrets_adds _ _ _ _ Hsec) as [Asec Qsec];
  pose proof (createIAMRole_adds _ _ _ Hiam) as [Aiam Qiam];
  pose proof (createLogGroup_adds _ _ _ Hlog) as [Alog Qlog];
  pose proof (createAgents_adds _ _ _ _ _ _ Hag) as Aag;
  pose proof (createGateway_adds _ _ _ _ Hgw) as [Agw Qgw];
  pose proof (addOutputs_Ok _ _ _ Hout) as (Rout & Cout & Gout & Oout).

(** The configuration of the stages of a build. *)
Ltac configs :=
  repeat match goal with
  | A : adds _ _ _ |- _ => destruct A as [? A]
  end.

Lemma nodesOfKind_same k s s' : Resources s' = Resources s → nodesOfKind k s' = nodesOfKind k s.
Proof. unfold nodesOfKind. by intros ->. Qed.

Lemma nodesOfKind_nil k s : Resources s = [] → nodesOfKind k s = [].
Proof. unfold nodesOfKind. by intros ->. Qed.

(** The nodes of kind [k] are those of the one step that makes this kind. *)
Ltac only_step k :=
  repeat match goal with
  | A : adds ?K ?s ?s' |- context [nodesOfKind k ?s'] =>
      rewrite (nodesOfKind_adds K k s s' A) by decide_it
  | R : Resources ?s' = Resources ?s |- context [nodesOfKind k ?s'] =>
      rewrite (nodesOfKind_same k s s' R)
  end.

Lemma retentionOf_least r :
  (1 ≤ r)%Z →
  covers (retentionOf r) r ∧ ∀ t, covers t r → tierLe (retentionOf r) t.
Proof.
  intros Hr. unfold retentionOf.
  destruct (Z.eqb_spec r 0); [lia|].
  repeat match goal with
  | |- context [(r <=? ?c)%Z] => destruct (Z.leb_spec r c)
  end; (split; [unfold covers; simpl; lia|]);
  intros []; unfold covers, tierLe; simpl; lia.
Qed.

(** C4, as amended.  With logging enabled the stack has exactly one LogSink
    node; for a request of [r >= 1] days it carries the smallest supported
    tier that covers [r] (14 for 10, unlimited for 400), and for [r = 0] it
    carries the 30-day tier: a zero request is not rejected but read as
    unset. *)
Theorem LogSink_retention_tier order PS AD V config s observability :
  NewAgentCoreStack order PS AD V config = Ok s →
  Observability (AD config) = Some observability →
  EnableCloudWatchLogs observability = true →
  let r := LogRetentionDays observability in
  (∃ name removal,
     nodesOfKind KLogSink s =
       [ {| logicalId := "LogGroup";
            properties := LogGroupProps name (retentionOf r) removal |} ]) ∧
  ((1 ≤ r)%Z → covers (retentionOf r) r ∧ ∀ t, covers t r → tierLe (retentionOf r) t) ∧
  (r = 0%Z → retentionOf r = ONE_MONTH) ∧
  retentionOf 10 = TWO_WEEKS ∧ retentionOf 400 = INFINITE.
Proof.
  intros H Hobs Hen r. split; [|split; [apply retentionOf_least|split; [by intros ->|done]]].
  steps H.
  assert (Config s4 = AD config) as Hc4 by (configs; congruence).
  assert (nodesOfKind KLogSink s4 = []) as Hnil.
  { only_step KLogSink. by apply nodesOfKind_nil. }
  only_step KLogSink.
  unfold createLogGroup in Hlog. run; rewrite ?Hc4 in *; simplify_eq.
  { rewrite Hen in *. discriminate. }
  unfold nodesOfKind in *. simpl. rewrite filter_app, Hnil. simpl. eauto.
Qed.


Lemma filter_adds (P : ResourceNode → Prop) `{∀ n, Decision (P n)} K s s' :
  adds K s s' → (∀ n, P n → kind n ∉ K) →
  filter P (Resources s') = filter P (Resources s).
Proof.
  intros [_ (added & Hr & Hf)] HP. rewrite Hr, filter_app.
  rewrite <- (app_nil_r (filter P (Resources s))) at 2. f_equal.
  clear Hr. induction Hf as [|n l Hn _ IH]; [done|].
  rewrite filter_cons_False; [done|]. intros Hn'. by apply (HP n).
Qed.

(** C10.  When the configuration asks for a secret to be created from a
    non-empty map of values, the stack has exactly one SecretStore node, and
    its secret value is empty: none of the configured pairs is in it. *)
Theorem created_secret_has_no_value order PS AD V config s secrets :
  NewAgentCoreStack order PS AD V config = Ok s →
  Secrets (AD config) = Some secrets →
  CreateSecrets secrets = true →
  SecretValues secrets ≠ ∅ →
  ∃ name description payload,
    nodesOfKind KSecretStore s =
      [ {| logicalId := "Secrets"; properties := SecretProps name description payload |} ] ∧
    payload = ∅ ∧
    ∀ k v, SecretValues secrets !! k = Some v → payload !! k = None.
Proof.
  intros H Hsecrets Hcreate Hvalues. steps H.
  assert (Config s2 = AD config) as Hc2 by (configs; congruence).
  assert (nodesOfKind KSecretStore s2 = []) as Hnil.
  { only_step KSecretStore. by apply nodesOfKind_nil. }
  only_step KSecretStore.
  unfold createSecrets in Hsec. run; rewrite ?Hc2 in *; simplify_eq.
  - unfold nodesOfKind in *. simpl. rewrite filter_app, Hnil. simpl.
    eexists _, _, _. split; [reflexivity|]. split; [done|]. intros k v _. apply lookup_empty.
  - exfalso. rewrite Hcreate in *. simpl in *.
    apply negb_false_iff, bool_decide_eq_true in Heqb.
    by apply map_size_empty_iff in Heqb.
Qed.

Lemma agentOutputs_not_gateway outs :
  agentOutputs outs → Forall (λ o, out_id o ∉ gatewayOutputs) outs.
Proof.
  intros Ha. eapply Forall_impl; [exact Ha|]. simpl.
  intros o Hp Hin. unfold gatewayOutputs in Hin.
  repeat (apply elem_of_cons in Hin as [Hin|Hin]; [rewrite Hin in Hp; discriminate Hp|]).
  by apply elem_of_nil in Hin.
Qed.

Lemma createGateway_Ok order s s' u :
  createGateway order s = Ok (u, s') →
  if gatewayEnabled (Config s)
  then ∃ props,
         let gateway := {| logicalId := "Gateway"; properties := CfnGateway props |} in
         Resources s' = Resources s ++ [gateway] ∧ Gateway s' = Some gateway
  else Resources s' = Resources s ∧ Gateway s' = Gateway s.
Proof.
  unfold createGateway, getStackTags, gatewayEnabled. intros H. run; simpl in *.
  - apply negb_true_iff in Heqb. by rewrite Heqb.
  - apply negb_false_iff in Heqb. rewrite Heqb. eauto.
  - done.
Qed.

Lemma addOutputs_gateway s s' u gateway :
  addOutputs s = Ok (u, s') → Gateway s = Some gateway →
  ∀ id, id ∈ gatewayOutputs → id ∈ out_id <$> Outputs s'.
Proof.
  unfold addOutputs. intros H Hg. run; simpl in *; try congruence.
  all: intros id Hid; unfold gatewayOutputs in Hid;
    rewrite <- ?app_assoc, fmap_app, elem_of_app; right; simpl;
    repeat (apply elem_of_cons in Hid as [->|Hid]; [decide_it|]);
    by apply elem_of_nil in Hid.
Qed.

(** C6.  The stack has a Gateway node exactly when the configuration has a
    gateway with [Enabled] set: then there is one such node and the outputs
    carry its ARN, id and URL; otherwise there is no Gateway node and no
    output bears one of the gateway's ids. *)
Theorem Gateway_only_when_enabled order PS AD V config s :
  NewAgentCoreStack order PS AD V config = Ok s →
  (gatewayEnabled (AD config) = true →
     (∃ props, nodesOfKind KGateway s =
                 [ {| logicalId := "Gateway"; properties := CfnGateway props |} ]) ∧
     ∀ id, id ∈ gatewayOutputs → id ∈ out_id <$> Outputs s) ∧
  (gatewayEnabled (AD config) = false →
     nodesOfKind KGateway s = [] ∧
     Forall (λ o, out_id o ∉ gatewayOutputs) (Outputs s)).
Proof.
  intros H. steps H.
  pose proof (createAgents_Ok _ _ _ _ _ _ Hag) as (_ & Gag & _ & (aouts & Oag & Pag)).
  assert (Config s6 = AD config) as Hc6 by (configs; congruence).
  assert (nodesOfKind KGateway s6 = []) as Hnil.
  { only_step KGateway. by apply nodesOfKind_nil. }
  assert (Gateway s6 = None) as Hg6.
  { destruct Qvpc, Qsg, Qsec, Qiam, Qlog. congruence. }
  assert (Outputs s7 = aouts) as Ho7.
  { destruct Qvpc as [Q1 _], Qsg as [Q2 _], Qsec as [Q3 _], Qiam as [Q4 _], Qlog as [Q5 _].
    rewrite Qgw, Oag, Q5, Q4, Q3, Q2, Q1, Ho0. done. }
  rewrite (nodesOfKind_same KGateway _ _ Rout).
  apply createGateway_Ok in Hgw. rewrite Hc6 in Hgw.
  destruct (gatewayEnabled (AD config)).
  - destruct Hgw as (props & Hr7 & Hg7). split; [|done]. intros _. split.
    + exists props. unfold nodesOfKind in *. rewrite Hr7, filter_app, Hnil. done.
    + by apply (addOutputs_gateway _ _ _ _ Hout Hg7).
  - destruct Hgw as [Hr7 Hg7]. split; [done|]. intros _. split.
    + by rewrite (nodesOfKind_same KGateway _ _ Hr7).
    + destruct Oout as (outs & -> & Hno). rewrite Ho7. apply Forall_app. split.
      * by apply agentOutputs_not_gateway.
      * apply Hno. congruence.
Qed.

(** *** The role *)

Lemma Policy_grants role secrets :
  Policy (foldl (λ role secret, AddToPolicy (GrantRead (SecretArn secret)) role)
            role secrets)
  = Policy role ++ ((λ secret, GrantRead (SecretArn secret)) <$> secrets).
Proof.
  revert role. induction secrets as [|x l IH]; intros role; simpl.
  - by rewrite app_nil_r.
  - rewrite IH. simpl. by rewrite <- app_assoc.
Qed.

Lemma Policy_managed role policies :
  Policy (foldl (λ role policyARN, AddManagedPolicy policyARN role) role policies)
  = Policy role.
Proof. revert role. induction policies as [|x l IH]; intros role; simpl; [done|]. by rewrite IH. Qed.

Lemma filter_grants secrets :
  filter isInvokeModel ((λ secret, GrantRead (SecretArn secret)) <$> secrets) = [].
Proof.
  induction secrets as [|x l IH]; [done|].
  rewrite fmap_cons, filter_cons_False; [done|]. simpl. tauto.
Qed.

(** The statements of the role that allow model invocation are those of
    its Bedrock step. *)
Lemma newRole_invoke s iamConfig role0 :
  role0 = {| RoleName := StackName (Config s) +:+ "-execution-role";
             role_Description :=
               "Execution role for " +:+ StackName (Config s) +:+ " AgentCore agents";
             AssumedBy := ["bedrock.amazonaws.com"; "lambda.amazonaws.com"];
             Policy := []; ManagedPolicies := []; PermissionsBoundary := None |} →
  filter isInvokeModel (Policy (newRole s iamConfig))
  = filter isInvokeModel (Policy (bedrockAccess iamConfig role0)).
Proof.
  intros ->. unfold newRole.
  set (r := bedrockAccess iamConfig _).
  assert (∀ role, Policy (if negb (PermissionsBoundaryARN iamConfig =? "")
                          then ApplyPermissionsBoundary (PermissionsBoundaryARN iamConfig) role
                          else role) = Policy role) as Hb.
  { intros role. by destruct (negb _). }
  rewrite Hb, Policy_managed. simpl. rewrite Policy_grants.
  rewrite !filter_app, filter_grants, app_nil_r.
  destruct (Secret s); simpl; rewrite ?filter_app; simpl; by rewrite ?app_nil_r.
Qed.

Lemma createIAMRole_created s s' u iamConfig :
  createIAMRole s = Ok (u, s') →
  IAM (Config s) = Some iamConfig → RoleARN iamConfig = "" →
  ∃ rest,
    Resources s' =
      Resources s
      ++ {| logicalId := "ExecutionRole"; properties := Role (newRole s iamConfig) |} :: rest ∧
    Forall (λ n, kind n ≠ KIdentity) rest.
Proof.
  unfold createIAMRole. intros H Hiam Harn. run; simplify_eq.
  - rewrite Harn in *. discriminate.
  - simpl. rewrite <- !app_assoc. simpl. eexists. split; [reflexivity|].
    apply Forall_app. split.
    { eapply Forall_impl; [apply agentSecrets_kind|]. by intros n ->. }
    apply Forall_app. split.
    { eapply Forall_impl; [apply additionalPolicies_kind|]. by intros n ->. }
    by repeat constructor.
  - simpl. rewrite <- !app_assoc. simpl. eexists. split; [reflexivity|].
    apply Forall_app. split.
    { eapply Forall_impl; [apply agentSecrets_kind|]. by intros n ->. }
    eapply Forall_impl; [apply additionalPolicies_kind|]. by intros n ->.
Qed.

(** C5, as amended.  When the role is created with Bedrock access, its
    policy has exactly one statement that allows model invocation.  With a
    list of model identifiers the resources of that one statement are the
    patterns of the listed identifiers, in order; with an empty list they
    are the single wildcard pattern. *)
Theorem model_invocation_statement order PS AD V config s iamConfig :
  NewAgentCoreStack order PS AD V config = Ok s →
  IAM (AD config) = Some iamConfig →
  RoleARN iamConfig = "" →
  EnableBedrockAccess iamConfig = true →
  ∃ role,
    nodesOfKind KIdentity s =
      [ {| logicalId := "ExecutionRole"; properties := Role role |} ] ∧
    filter isInvokeModel (Policy role) =
      [ PolicyStatement invokeModelActions (modelResources (BedrockModelIDs iamConfig)) ].
Proof.
  intros H Hiam' Harn Hen. steps H.
  assert (Config s3 = AD config) as Hc3 by (configs; congruence).
  assert (nodesOfKind KIdentity s3 = []) as Hnil.
  { only_step KIdentity. by apply nodesOfKind_nil. }
  only_step KIdentity.
  rewrite <- Hc3 in Hiam'.
  destruct (createIAMRole_created _ _ _ _ Hiam Hiam' Harn) as (rest & Hr & Hrest).
  exists (newRole s3 iamConfig). split.
  - unfold nodesOfKind in *. rewrite Hr, filter_app, Hnil. simpl.
    rewrite filter_cons_True by done. f_equal.
    clear Hr. induction Hrest as [|n l Hn _ IH]; [done|].
    by rewrite filter_cons_False.
  - rewrite (newRole_invoke _ _ _ eq_refl). unfold bedrockAccess. rewrite Hen.
    unfold modelResources. by destruct (BedrockModelIDs iamConfig).
Qed.

(** *** Agents *)

Lemma append_inj_r (p a b : string) : p +:+ a = p +:+ b → a = b.
Proof. induction p as [|c p IH]; simpl; [done|]. intros [= H]. by apply IH. Qed.

(** The Runtime and Endpoint nodes among the constructs of the agents, in
    the order of the agents. *)
Lemma agentNodes_kinds order config agents nss :
  Forall2 (agentNodes order config) agents nss →
  agentOf <$> filter (λ n, kind n = KRuntime) (concat nss) = Some ∘ Name <$> agents ∧
  agentOf <$> filter (λ n, kind n = KEndpoint) (concat nss) = Some ∘ Name <$> agents.
Proof.
  induction 1 as [|a ns agents nss (rp & ep & -> & Hn & Hrt & Hept & Hid & _) _ [IH1 IH2]];
    [done|].
  split; cbn [concat app].
  - rewrite filter_cons_False by done. rewrite filter_cons_True by done.
    rewrite filter_cons_False by done. rewrite fmap_cons. unfold agentOf at 1. simpl.
    by rewrite Hrt, IH1.
  - rewrite filter_cons_False by done. rewrite filter_cons_False by done.
    rewrite filter_cons_True by done. rewrite fmap_cons. unfold agentOf at 1. simpl.
    by rewrite Hept, IH2.
Qed.

(** An Endpoint node among the constructs of the agents is that of one of
    the agents, and refers to the Runtime of that agent alone. *)
Lemma agentNodes_endpoint order config agents nss e :
  Forall2 (agentNodes order config) agents nss →
  e ∈ concat nss → kind e = KEndpoint →
  ∃ a, a ∈ agents ∧ agentOf e = Some (Name a) ∧ dependsOn e = ["Runtime-" +:+ Name a].
Proof.
  induction 1 as [|a ns agents nss (rp & ep & -> & Hn & Hrt & Hept & Hid & _) _ IH];
    cbn [concat app].
  - by intros ?%elem_of_nil.
  - rewrite !elem_of_cons. intros [->|[->|[->|Hin]]] Hk; try discriminate Hk.
    + exists a. split; [apply list_elem_of_here|]. split; [done|].
      unfold dependsOn. simpl. by rewrite Hid.
    + destruct (IH Hin Hk) as (b & Hb & ?). exists b. split; [|done].
      by apply list_elem_of_further.
Qed.

(** With distinct agent names, the Runtime nodes named [Runtime-<name>]
    among the constructs of the agents are exactly one, the Runtime of the
    agent of that name. *)
Lemma agentNodes_runtime order config agents nss a :
  Forall2 (agentNodes order config) agents nss →
  NoDup (Name <$> agents) → a ∈ agents →
  ∃ r, filter (λ n, kind n = KRuntime ∧ logicalId n ∈ ["Runtime-" +:+ Name a]) (concat nss)
       = [r] ∧ agentOf r = Some (Name a).
Proof.
  induction 1 as [|b ns agents nss (rp & ep & -> & Hn & Hrt & Hept & Hid & _) Htail IH];
    intros Hnd Ha.
  - by apply elem_of_nil in Ha.
  - rewrite fmap_cons in Hnd. apply NoDup_cons in Hnd as [Hfresh Hnd]. cbn [concat app].
    rewrite filter_cons_False by (by intros [? _]).
    assert (∀ l, filter (λ n, kind n = KRuntime ∧ logicalId n ∈ ["Runtime-" +:+ Name a])
                   ({| logicalId := "Endpoint-" +:+ Name b;
                       properties := CfnRuntimeEndpoint ep |} :: l)
                 = filter (λ n, kind n = KRuntime ∧ logicalId n ∈ ["Runtime-" +:+ Name a]) l)
      as Hep by (intros l; rewrite filter_cons_False; [done|by intros [? _]]).
    destruct (decide (Name b = Name a)) as [Heq|Hne].
    + (* the agent itself: no later agent bears its name *)
      rewrite filter_cons_True by (split; [done|]; simpl; rewrite Heq; apply list_elem_of_here).
      rewrite Hep.
      exists {| logicalId := "Runtime-" +:+ Name b; properties := CfnRuntime rp |}.
      split; [|unfold agentOf; simpl; by rewrite Hrt, Heq].
      f_equal. clear IH Hep Ha. rewrite Heq in Hfresh.
      induction Htail as [|c ns' agents nss (rp' & ep' & -> & _) _ IH]; [done|].
      cbn [concat app].
      rewrite fmap_cons in Hfresh, Hnd. apply NoDup_cons in Hnd as [_ Hnd].
      apply not_elem_of_cons in Hfresh as [Hac Hfresh].
      rewrite filter_cons_False by (by intros [? _]).
      rewrite filter_cons_False.
      2:{ simpl. intros [_ Hin]. apply list_elem_of_singleton, append_inj_r in Hin. done. }
      rewrite filter_cons_False by (by intros [? _]). by apply IH.
    + (* another agent *)
      rewrite filter_cons_False.
      2:{ simpl. intros [_ Hin]. apply list_elem_of_singleton, append_inj_r in Hin. done. }
      rewrite Hep. apply IH; [done|].
      apply elem_of_cons in Ha as [->|Ha]; [done|done].
Qed.

(** C2.  The stack has one Runtime node and one Endpoint node for each
    agent of the configuration, in the order of the agents; and when the
    names of the agents are distinct, each Endpoint node depends on exactly
    one Runtime node, which bears the same agent name. *)
Theorem one_runtime_and_endpoint_per_agent order PS AD V config s :
  NewAgentCoreStack order PS AD V config = Ok s →
  let agents := iac.Agents (AD config) in
  agentOf <$> nodesOfKind KRuntime s = Some ∘ Name <$> agents ∧
  agentOf <$> nodesOfKind KEndpoint s = Some ∘ Name <$> agents ∧
  length (nodesOfKind KRuntime s) = length agents ∧
  length (nodesOfKind KEndpoint s) = length agents ∧
  (NoDup (Name <$> agents) →
   ∀ e, e ∈ nodesOfKind KEndpoint s →
     ∃ r, runtimesOf s e = [r] ∧ is_Some (agentOf e) ∧ agentOf r = agentOf e).
Proof.
  intros H agents. steps H.
  pose proof (createAgents_Ok _ _ _ _ _ _ Hag) as (_ & _ & (nss & Hr6 & Hnss) & _).
  assert (∀ P `{∀ n, Decision (P n)},
            (∀ n, P n → kind n = KRuntime ∨ kind n = KEndpoint) →
            filter P (Resources s) = filter P (concat nss)) as Hfilter.
  { intros P ? HP. rewrite Rout.
    rewrite (filter_adds P _ _ _ Agw) by (intros n [Hn|Hn]%HP; rewrite Hn; decide_it).
    rewrite Hr6, filter_app.
    rewrite (filter_adds P _ _ _ Alog) by (intros n [Hn|Hn]%HP; rewrite Hn; decide_it).
    rewrite (filter_adds P _ _ _ Aiam) by (intros n [Hn|Hn]%HP; rewrite Hn; decide_it).
    rewrite (filter_adds P _ _ _ Asec) by (intros n [Hn|Hn]%HP; rewrite Hn; decide_it).
    rewrite (filter_adds P _ _ _ Asg) by (intros n [Hn|Hn]%HP; rewrite Hn; decide_it).
    rewrite (filter_adds P _ _ _ Avpc) by (intros n [Hn|Hn]%HP; rewrite Hn; decide_it).
    by rewrite Hr0. }
  destruct (agentNodes_kinds _ _ _ _ Hnss) as [Hrt Hep].
  unfold nodesOfKind.
  rewrite (Hfilter (λ n, kind n = KRuntime)) by auto.
  rewrite (Hfilter (λ n, kind n = KEndpoint)) by auto.
  split; [done|]. split; [done|].
  split; [by rewrite <- (length_fmap agentOf), Hrt, length_fmap|].
  split; [by rewrite <- (length_fmap agentOf), Hep, length_fmap|].
  intros Hnd e [Hk He]%list_elem_of_filter.
  destruct (agentNodes_endpoint _ _ _ _ e Hnss He Hk) as (a & Ha & Hae & Hdep).
  destruct (agentNodes_runtime _ _ _ _ a Hnss Hnd Ha) as (r & Hr & Har).
  exists r. split; [|split; [by rewrite Hae|congruence]].
  unfold runtimesOf. rewrite Hfilter by (intros n [? _]; auto). by rewrite Hdep.
Qed.

(** The Runtime of each agent is among the constructs of the agents, with
    the environment that the configuration determines. *)
Lemma agentNodes_environment order config agents nss a :
  validOrder order →
  Forall2 (agentNodes order config) agents nss → a ∈ agents →
  ∃ rp, {| logicalId := "Runtime-" +:+ Name a; properties := CfnRuntime rp |} ∈ concat nss ∧
        rt_Tags rp !! "Agent" = Some (Name a) ∧
        EnvironmentVariables rp = resolvedEnvironment config a.
Proof.
  intros Hv.
  induction 1 as [|b ns agents nss (rp & ep & -> & Hn & Hrt & Hept & Hid & Henv) _ IH];
    intros Ha.
  - by apply elem_of_nil in Ha.
  - cbn [concat app]. apply elem_of_cons in Ha as [->|Ha].
    + exists rp. split; [|by auto].
      apply list_elem_of_further, list_elem_of_here.
    + destruct (IH Ha) as (rp' & Hin & ?). exists rp'. split; [|done].
      by do 3 apply list_elem_of_further.
Qed.

(** A variable that the stack sets is set to the stack's value whatever
    the environment it is added to. *)
Lemma observabilityVars_wins observability envVars k v :
  stackVars observability !! k = Some v →
  observabilityVars observability envVars !! k = Some v.
Proof.
  unfold stackVars, observabilityVars.
  destruct (negb _); rewrite !lookup_insert_Some, lookup_empty; intuition congruence.
Qed.

(** A variable that the stack does not set keeps the value of the
    environment. *)
Lemma observabilityVars_keeps observability envVars k :
  stackVars observability !! k = None →
  observabilityVars observability envVars !! k = envVars !! k.
Proof.
  unfold stackVars, observabilityVars.
  destruct (negb _); rewrite !lookup_insert_None; intros H;
    by rewrite !lookup_insert_ne by tauto.
Qed.

Lemma stackVars_keys observability k v :
  stackVars observability !! k = Some v →
  k ∈ ["OBSERVABILITY_ENABLED"; "OBSERVABILITY_PROVIDER"; "OBSERVABILITY_PROJECT";
       "OBSERVABILITY_ENDPOINT"].
Proof.
  unfold stackVars, observabilityVars.
  destruct (negb _); rewrite !lookup_insert_Some, lookup_empty; rewrite !elem_of_cons;
    intuition (subst; auto; discriminate).
Qed.

(** C3, as amended.  For an agent of a stack with observability settings,
    a key that the stack-level observability variables define is bound in
    the environment of the agent's Runtime to the stack-level value, whether
    or not the agent's own environment defines it too: on a conflict the
    stack-level variable wins.  The keys of the agent that the builder does
    not set keep the agent's value. *)
Theorem stack_level_variable_wins order PS AD V config s a observability :
  validOrder order →
  NewAgentCoreStack order PS AD V config = Ok s →
  a ∈ iac.Agents (AD config) →
  Observability (AD config) = Some observability →
  ∃ rp,
    {| logicalId := "Runtime-" +:+ Name a; properties := CfnRuntime rp |} ∈ Resources s ∧
    rt_Tags rp !! "Agent" = Some (Name a) ∧
    (∀ k v, stackVars observability !! k = Some v →
            EnvironmentVariables rp !! k = Some v) ∧
    (∀ k, stackVars observability !! k = None →
          k ∉ ["AGENTCORE_AGENT_NAME"; "AGENTCORE_DEFAULT_AGENT"] →
          EnvironmentVariables rp !! k = Environment a !! k).
Proof.
  intros Hv H Ha Hobs. steps H.
  pose proof (createAgents_Ok _ _ _ _ _ _ Hag) as (_ & _ & (nss & Hr6 & Hnss) & _).
  assert (Config s5 = AD config) as Hc5 by (configs; congruence).
  rewrite Hc5 in Hnss.
  destruct (agentNodes_environment _ _ _ _ a Hv Hnss Ha) as (rp & Hin & Htag & Henv).
  exists rp. split; [|split; [done|]].
  - rewrite Rout. destruct Agw as [_ (added & -> & _)]. rewrite Hr6.
    apply elem_of_app. left. apply elem_of_app. by right.
  - rewrite Henv. unfold resolvedEnvironment. rewrite Hobs. split.
    + intros k v Hk. pose proof (stackVars_keys _ _ _ Hk) as Hkeys.
      assert (k ≠ "AGENTCORE_AGENT_NAME" ∧ k ≠ "AGENTCORE_DEFAULT_AGENT") as [Hk1 Hk2].
      { rewrite !elem_of_cons in Hkeys. split; intros ->;
          destruct Hkeys as [?|[?|[?|[?|?%elem_of_nil]]]]; done. }
      destruct (IsDefault a); rewrite !lookup_insert_ne by done;
        by apply observabilityVars_wins.
    + intros k Hk Hnot. rewrite !not_elem_of_cons in Hnot. destruct Hnot as (Hk1 & Hk2 & _).
      destruct (IsDefault a); rewrite !lookup_insert_ne by done;
        by apply observabilityVars_keeps.
Qed.

(** *** The order of map iteration does not show *)

Lemma agree_refl {A} (m : Build A) : agree m m.
Proof. done. Qed.

Lemma agree_bind {A B} (m1 m2 : Build A) (f1 f2 : A → Build B) :
  agree m1 m2 → (∀ a, agree (f1 a) (f2 a)) → agree (m1 ≫= f1) (m2 ≫= f2).
Proof.
  intros Hm Hf s. unfold mbind, Build_bind. rewrite Hm.
  destruct (m2 s) as [[a s']|]; [apply Hf|done].
Qed.

Section Orders.

Variables order1 order2 : RangeOrder.
Hypothesis valid1 : validOrder order1.
Hypothesis valid2 : validOrder order2.
Variable PrivateSubnets : ResourceNode → option (list Token).

Lemma rangeCopy_agree src dst : agree (rangeCopy order1 src dst) (rangeCopy order2 src dst).
Proof. intros s. by rewrite !rangeCopy_valid. Qed.

(** Descends through the binds and the case analyses of two runs of the
    same code. *)
Ltac agree_step :=
  match goal with
  | |- agree (rangeCopy _ _ _) (rangeCopy _ _ _) => apply rangeCopy_agree
  | |- agree (_ ≫= _) (_ ≫= _) => apply agree_bind; [|intros ?]
  | |- agree (match ?d with _ => _ end) _ => destruct d
  | |- agree ?m ?m => apply agree_refl
  end.
Ltac agree_all := repeat agree_step.

Lemma convertTags_agree tags : agree (convertTags order1 tags) (convertTags order2 tags).
Proof. unfold convertTags. agree_all. Qed.

Lemma createSecrets_agree : agree (createSecrets order1) (createSecrets order2).
Proof. unfold createSecrets. agree_all. Qed.

Lemma getTags_agree config : agree (getTags order1 config) (getTags order2 config).
Proof. unfold getTags. agree_all. Qed.

Lemma getStackTags_agree : agree (getStackTags order1) (getStackTags order2).
Proof. unfold getStackTags. agree_all. Qed.

Lemma createAgent_agree config :
  agree (createAgent order1 PrivateSubnets config) (createAgent order2 PrivateSubnets config).
Proof.
  unfold createAgent, createAgentRuntime, createRuntimeEndpoint.
  repeat first [apply getTags_agree | agree_step].
Qed.

Lemma createAgents_agree agents :
  agree (createAgents order1 PrivateSubnets agents) (createAgents order2 PrivateSubnets agents).
Proof.
  induction agents as [|a agents IH]; simpl; [apply agree_refl|].
  apply agree_bind; [apply createAgent_agree|]. intros _. apply IH.
Qed.

Lemma createGateway_agree : agree (createGateway order1) (createGateway order2).
Proof. unfold createGateway. repeat first [apply getStackTags_agree | agree_step]. Qed.

Lemma build_agree config :
  agree (build order1 PrivateSubnets config) (build order2 PrivateSubnets config).
Proof.
  unfold build.
  repeat first
    [ apply createSecrets_agree | apply createAgents_agree | apply createGateway_agree
    | apply agree_bind; [|intros ?] | apply agree_refl ].
Qed.

End Orders.

(** C1.  Building is deterministic: two runs on equal configurations yield
    the same result, and so the same list of resource nodes in the same
    order, whatever the orders in which the two runs iterate over the maps
    of the configuration. *)
Theorem NewAgentCoreStack_deterministic order1 order2 PS AD V config1 config2 :
  validOrder order1 → validOrder order2 →
  config1 = config2 →
  NewAgentCoreStack order1 PS AD V config1 = NewAgentCoreStack order2 PS AD V config2 ∧
  ∀ s1 s2,
    NewAgentCoreStack order1 PS AD V config1 = Ok s1 →
    NewAgentCoreStack order2 PS AD V config2 = Ok s2 →
    Resources s1 = Resources s2.
Proof.
  intros Hv1 Hv2 <-.
  assert (NewAgentCoreStack order1 PS AD V config1
          = NewAgentCoreStack order2 PS AD V config1) as Heq.
  { unfold NewAgentCoreStack. destruct (V (AD config1)); [done|].
    match goal with
    | |- match ?m1 _ with _ => _ end = match ?m2 _ with _ => _ end =>
        assert (agree m1 m2) as Hm
    end.
    { apply agree_bind; [by apply convertTags_agree|]. intros tags.
      apply agree_bind; [apply agree_refl|]. intros _. by apply build_agree. }
    by rewrite Hm. }
  split; [done|]. intros s1 s2 H1 H2. congruence.
Qed.

(** *** The sample stacks *)

Lemma listingOrder_valid : validOrder listingOrder.
Proof. intros n m. reflexivity. Qed.

Lemma reverseOrder_valid : validOrder reverseOrder.
Proof. intros n m. apply reverse_Permutation. Qed.

Lemma team_built : ∃ s, stackOf team = Ok s.
Proof. eexists. vm_compute. reflexivity. Qed.

(** Witness of C1: the stack [team] built in the two sample orders, which
    differ on its tags. *)
Lemma NewAgentCoreStack_deterministic_witness :
  validOrder listingOrder ∧ validOrder reverseOrder ∧
  listingOrder 0%nat (entries (Tags team)) ≠ reverseOrder 0%nat (entries (Tags team)) ∧
  NewAgentCoreStack listingOrder twoSubnets filledIn accepted team
  = NewAgentCoreStack reverseOrder twoSubnets filledIn accepted team.
Proof.
  split; [apply listingOrder_valid|]. split; [apply reverseOrder_valid|].
  split; [intros H; vm_compute in H; discriminate H|].
  exact (proj1 (NewAgentCoreStack_deterministic listingOrder reverseOrder twoSubnets
                  filledIn accepted team team
                  listingOrder_valid reverseOrder_valid eq_refl)).
Defined.

(** Witness of C2: the two agents of the stack [team]. *)
Lemma one_runtime_and_endpoint_per_agent_witness :
  ∃ s, stackOf team = Ok s ∧
       NoDup (Name <$> iac.Agents (filledIn team)) ∧
       agentOf <$> nodesOfKind KRuntime s = Some ∘ Name <$> iac.Agents (filledIn team) ∧
       length (nodesOfKind KEndpoint s) = length (iac.Agents (filledIn team)) ∧
       ∀ e, e ∈ nodesOfKind KEndpoint s →
         ∃ r, runtimesOf s e = [r] ∧ is_Some (agentOf e) ∧ agentOf r = agentOf e.
Proof.
  destruct team_built as [s E]. exists s. split; [exact E|].
  assert (NoDup (Name <$> iac.Agents (filledIn team))) as Hnd by decide_it.
  split; [exact Hnd|].
  destruct (one_runtime_and_endpoint_per_agent _ _ _ _ _ _ E) as (Hr & _ & _ & He & Hdep).
  split; [exact Hr|]. split; [exact He|]. exact (Hdep Hnd).
Defined.

(** Witness of C3: the agent of the stack [team] that sets
    [OBSERVABILITY_PROVIDER] itself. *)
Lemma stack_level_variable_wins_witness :
  ∃ s rp, stackOf team = Ok s ∧
    validOrder listingOrder ∧
    selfObserved ∈ iac.Agents (filledIn team) ∧
    Observability (filledIn team) = Some (logging 10) ∧
    {| logicalId := "Runtime-" +:+ Name selfObserved; properties := CfnRuntime rp |}
      ∈ Resources s ∧
    ∀ k v, stackVars (logging 10) !! k = Some v → EnvironmentVariables rp !! k = Some v.
Proof.
  destruct team_built as [s E].
  assert (selfObserved ∈ iac.Agents (filledIn team)) as Hin by apply list_elem_of_here.
  destruct (stack_level_variable_wins _ _ _ _ _ _ selfObserved (logging 10)
              listingOrder_valid E Hin eq_refl) as (rp & Hnode & _ & Hwins & _).
  exists s, rp. split; [exact E|]. split; [apply listingOrder_valid|].
  split; [exact Hin|]. split; [reflexivity|]. split; [exact Hnode|exact Hwins].
Defined.

(** Counterexample to C3: the agent sets [OBSERVABILITY_PROVIDER] to
    [langfuse] and the stack sets it to [opik]; the Runtime gets [opik]. *)
Lemma agent_level_variable_loses :
  ∃ s rp,
    stackOf team = Ok s ∧
    nodesOfKind KRuntime s !! 0%nat =
      Some {| logicalId := "Runtime-worker"; properties := CfnRuntime rp |} ∧
    Environment selfObserved !! "OBSERVABILITY_PROVIDER" = Some "langfuse" ∧
    stackVars (logging 10) !! "OBSERVABILITY_PROVIDER" = Some "opik" ∧
    EnvironmentVariables rp !! "OBSERVABILITY_PROVIDER" = Some "opik".
Proof.
  eexists _, _. split; [vm_compute; reflexivity|].
  split; [vm_compute; reflexivity|].
  split; [vm_compute; reflexivity|]. split; vm_compute; reflexivity.
Qed.

(** Witness of C4: the request of ten days of the stack [team]. *)
Lemma LogSink_retention_tier_witness :
  ∃ s, stackOf team = Ok s ∧
       Observability (filledIn team) = Some (logging 10) ∧
       EnableCloudWatchLogs (logging 10) = true ∧
       ∃ name removal,
         nodesOfKind KLogSink s =
           [ {| logicalId := "LogGroup";
                properties :=
                  LogGroupProps name (retentionOf (LogRetentionDays (logging 10))) removal |} ].
Proof.
  destruct team_built as [s E]. exists s. split; [exact E|].
  split; [reflexivity|]. split; [reflexivity|].
  exact (proj1 (LogSink_retention_tier _ _ _ _ _ s (logging 10) E eq_refl eq_refl)).
Defined.

(** Counterexample to C4: a request of zero days is not rejected; the log
    group is created, with the 30-day tier. *)
Lemma zero_retention_is_not_rejected :
  LogRetentionDays (logging 0) = 0%Z ∧
  EnableCloudWatchLogs (logging 0) = true ∧
  ∃ s, createLogGroup (newStack (withObservability (logging 0) demo) None 0) = Ok ((), s) ∧
       nodesOfKind KLogSink s =
         [ {| logicalId := "LogGroup";
              properties := LogGroupProps "/aws/agentcore/demo" ONE_MONTH
                              RemovalPolicy_DESTROY |} ].
Proof.
  split; [reflexivity|]. split; [reflexivity|].
  eexists. split; [vm_compute; reflexivity|]. vm_compute. reflexivity.
Qed.

(** Witness of C5: the two models of the stack [team]. *)
Lemma model_invocation_statement_witness :
  ∃ s, stackOf team = Ok s ∧
       IAM (filledIn team) = Some (newRoleFor twoModels) ∧
       RoleARN (newRoleFor twoModels) = "" ∧
       EnableBedrockAccess (newRoleFor twoModels) = true ∧
       ∃ role,
         nodesOfKind KIdentity s =
           [ {| logicalId := "ExecutionRole"; properties := Role role |} ] ∧
         filter isInvokeModel (Policy role) =
           [ PolicyStatement invokeModelActions
               (modelResources (BedrockModelIDs (newRoleFor twoModels))) ].
Proof.
  destruct team_built as [s E]. exists s. split; [exact E|].
  split; [reflexivity|]. split; [reflexivity|]. split; [reflexivity|].
  exact (model_invocation_statement _ _ _ _ _ s (newRoleFor twoModels) E
           eq_refl eq_refl eq_refl).
Defined.

(** Counterexample to C5: two models are listed and the role has one
    statement that allows model invocation, not two. *)
Lemma one_statement_for_two_models :
  ∃ s role,
    stackOf team = Ok s ∧
    IAM team = Some (newRoleFor twoModels) ∧
    length (BedrockModelIDs (newRoleFor twoModels)) = 2%nat ∧
    nodesOfKind KIdentity s =
      [ {| logicalId := "ExecutionRole"; properties := Role role |} ] ∧
    filter isInvokeModel (Policy role) =
      [ PolicyStatement invokeModelActions
          [ "arn:aws:bedrock:*:*:foundation-model/anthropic.claude-3-sonnet";
            "arn:aws:bedrock:*:*:foundation-model/amazon.titan-text-express-v1" ] ] ∧
    length (filter isInvokeModel (Policy role)) = 1%nat.
Proof.
  eexists _, _. split; [vm_compute; reflexivity|].
  split; [reflexivity|]. split; [reflexivity|].
  split; [vm_compute; reflexivity|]. split; vm_compute; reflexivity.
Qed.

(** Witness of C6: the gateway of the stack [team]. *)
Lemma Gateway_only_when_enabled_witness :
  ∃ s, stackOf team = Ok s ∧
       gatewayEnabled (filledIn team) = true ∧
       (∃ props, nodesOfKind KGateway s =
                   [ {| logicalId := "Gateway"; properties := CfnGateway props |} ]) ∧
       ∀ id, id ∈ gatewayOutputs → id ∈ out_id <$> Outputs s.
Proof.
  destruct team_built as [s E]. exists s. split; [exact E|]. split; [reflexivity|].
  exact (proj1 (Gateway_only_when_enabled _ _ _ _ _ s E) eq_refl).
Defined.

(** Witness of C10: the secret of the stack [team]. *)
Lemma created_secret_has_no_value_witness :
  ∃ s, stackOf team = Ok s ∧
       Secrets (filledIn team) = Some apiKeys ∧
       CreateSecrets apiKeys = true ∧
       SecretValues apiKeys ≠ ∅ ∧
       ∃ name description payload,
         nodesOfKind KSecretStore s =
           [ {| logicalId := "Secrets";
                properties := SecretProps name description payload |} ] ∧
         payload = ∅ ∧
         ∀ k v, SecretValues apiKeys !! k = Some v → payload !! k = None.
Proof.
  destruct team_built as [s E]. exists s. split; [exact E|].
  assert (SecretValues apiKeys ≠ ∅) as Hne.
  { intros H. apply (f_equal (λ m : gmap string string, m !! "OPENAI_API_KEY")) in H.
    vm_compute in H. discriminate H. }
  split; [reflexivity|]. split; [reflexivity|]. split; [exact Hne|].
  exact (created_secret_has_no_value _ _ _ _ _ s apiKeys E eq_refl eq_refl Hne).
Defined.

End AgentCoreFacts.

(** ** Facts about the classification of secrets *)

Module PushSecretsFacts.

Import EnvFile CLI PushSecrets Classification.

Lemma fileUnder_spec key value patterns keys :
  fileUnder key value patterns keys
  = (if bool_decide (key ∈ patterns) then <[key := value]> keys else keys,
     bool_decide (key ∈ patterns)).
Proof.
  induction patterns as [|p patterns IH]; cbn [fileUnder].
  - by rewrite bool_decide_eq_false_2 by apply not_elem_of_nil.
  - destruct (String.eqb_spec key p) as [->|Hne].
    + by rewrite bool_decide_eq_true_2 by apply list_elem_of_here.
    + rewrite IH. destruct (bool_decide_reflect (key ∈ patterns)) as [Hin|Hnin].
      * by rewrite bool_decide_eq_true_2 by by apply list_elem_of_further.
      * rewrite bool_decide_eq_false_2; [done|].
        intros [?|?]%elem_of_cons; done.
Qed.

(** The two nested loops file the key under every group that lists it. *)
Lemma categorize_spec verbose key value groups w :
  ∃ t, categorize verbose key value groups w = (t, inr (filed key value <$> groups)).
Proof.
  induction groups as [|g groups [t IH]]; simpl.
  - by exists [].
  - rewrite fileUnder_spec. unfold mbind, IO_bind at 1.
    destruct (bool_decide (key ∈ Patterns g) && verbose); simpl.
    + unfold mbind, IO_bind. rewrite IH. simpl. eauto.
    + unfold mbind, IO_bind. rewrite IH. simpl. eauto.
Qed.

Lemma scan_spec verbose lines groups w :
  ∃ t, scan verbose lines groups w = (t, inr (classify (omap entry lines) groups)).
Proof.
  revert groups. induction lines as [|line lines IH]; intros groups; simpl.
  - by exists [].
  - destruct (entry line) as [[key value]|]; simpl; [|apply IH].
    unfold mbind, IO_bind.
    destruct (categorize_spec verbose key value groups w) as [t ->].
    destruct (IH (filed key value <$> groups)) as [t' ->]. eauto.
Qed.

(** The keys of a group after the entries [es]. *)
Lemma classify_Keys es groups :
  classify es groups
  = (λ g, {| Name := Name g; Description := Description g;
             Keys := foldl (λ keys kv,
                              if bool_decide (kv.1 ∈ Patterns g)
                              then <[kv.1 := kv.2]> keys else keys)
                       (Keys g) es;
             Patterns := Patterns g |}) <$> groups.
Proof.
  revert groups. induction es as [|[k v] es IH]; intros groups.
  - unfold classify. cbn [foldl].
    induction groups as [|[] groups IHg]; [done|]. rewrite fmap_cons. by f_equal.
  - unfold classify in *. cbn [foldl fst snd]. rewrite IH. rewrite <- list_fmap_compose.
    apply list_fmap_ext. by intros _ [] _.
Qed.

Lemma foldl_file_lookup (patterns : list string) (es : list (string * string))
    (keys : gmap string string) (k v : string) :
  foldl (λ keys kv, if bool_decide (kv.1 ∈ patterns)
                    then <[kv.1 := kv.2]> keys else keys) keys es !! k = Some v →
  keys !! k = Some v ∨ (k ∈ patterns ∧ (k, v) ∈ es).
Proof.
  revert keys. induction es as [|[k' v'] es IH]; intros keys; simpl; [auto|].
  intros [H|[? ?]]%IH.
  - destruct (bool_decide_reflect (k' ∈ patterns)) as [Hin|Hnin]; [|auto].
    apply lookup_insert_Some in H as [[-> ->]|[_ ?]]; [|auto].
    right. split; [done|]. apply list_elem_of_here.
  - right. split; [done|]. by apply list_elem_of_further.
Qed.

Lemma foldl_file_listed (patterns : list string) (es : list (string * string))
    (keys : gmap string string) (k : string) :
  k ∈ patterns → k ∈ es.*1 ∨ is_Some (keys !! k) →
  is_Some (foldl (λ keys kv, if bool_decide (kv.1 ∈ patterns)
                             then <[kv.1 := kv.2]> keys else keys) keys es !! k).
Proof.
  intros Hk. revert keys. induction es as [|[k' v'] es IH]; intros keys; simpl.
  - intros [?%elem_of_nil|?]; done.
  - intros [Hin|Hsome]; apply IH.
    + apply elem_of_cons in Hin as [->|Hin]; [|auto]. right.
      rewrite bool_decide_eq_true_2 by done. rewrite lookup_insert_eq. eauto.
    + right. destruct (bool_decide (k' ∈ patterns)); [|done].
      destruct (decide (k' = k)) as [->|Hne].
      * rewrite lookup_insert_eq. eauto.
      * by rewrite lookup_insert_ne.
Qed.

(** The groups of [run] start empty. *)
Lemma groups_empty g : g ∈ groups → Keys g = ∅.
Proof.
  unfold groups. intros Hg.
  repeat (apply elem_of_cons in Hg as [->|Hg]; [reflexivity|]).
  by apply elem_of_nil in Hg.
Qed.

(** C9.  [parseEnvFile] files each key of the file by its exact name: after
    the scan a group that started empty holds a key only if the key is one
    of its patterns and the file has an entry for it, and it holds every
    key of the file that is one of its patterns; a key that no group lists
    is in no group.  For the keys [OPENAI_API_KEY], [SERPER_API_KEY],
    [LLM_MODEL] and [UNKNOWN_FLAG] the groups that hold them are [llm],
    [search], [config] and none. *)
Theorem keys_filed_by_exact_name w filename verbose lines :
  ReadLines w filename = inr (lines, None) →
  ∃ t result,
    parseEnvFile filename groups verbose w = (t, inr result) ∧
    result = classify (omap entry lines) groups ∧
    Name <$> result = Name <$> groups ∧
    (∀ g k v, g ∈ result → Keys g !! k = Some v →
              k ∈ Patterns g ∧ (k, v) ∈ omap entry lines) ∧
    (∀ g k, g ∈ result → k ∈ Patterns g → k ∈ fst <$> omap entry lines →
            is_Some (Keys g !! k)) ∧
    (∀ k, (∀ g, g ∈ groups → k ∉ Patterns g) → groupsOf k result = []) ∧
    (∀ a b c d,
       let result := classify [ ("OPENAI_API_KEY", a); ("SERPER_API_KEY", b);
                                ("LLM_MODEL", c); ("UNKNOWN_FLAG", d) ] groups in
       groupsOf "OPENAI_API_KEY" result = ["llm"] ∧
       groupsOf "SERPER_API_KEY" result = ["search"] ∧
       groupsOf "LLM_MODEL" result = ["config"] ∧
       groupsOf "UNKNOWN_FLAG" result = []).
Proof.
  intros Hfile.
  destruct (scan_spec verbose lines groups w) as [t Hscan].
  exists t, (classify (omap entry lines) groups).
  split.
  { unfold parseEnvFile, mbind, IO_bind, world. simpl. rewrite Hfile.
    unfold mbind, IO_bind. rewrite Hscan. simpl. by rewrite app_nil_r. }
  split; [done|].
  rewrite classify_Keys. set (es := omap entry lines).
  split; [by rewrite <- list_fmap_compose|].
  split.
  { intros g k v Hg Hk. apply list_elem_of_fmap in Hg as (g0 & -> & Hg0). simpl in *.
    apply foldl_file_lookup in Hk as [Hk|?]; [|done].
    by rewrite (groups_empty _ Hg0), lookup_empty in Hk. }
  split.
  { intros g k Hg Hk Hin. apply list_elem_of_fmap in Hg as (g0 & -> & Hg0). simpl in *.
    apply foldl_file_listed; auto. }
  split.
  { intros k Hk. unfold groupsOf.
    assert (∀ gs, (∀ g, g ∈ gs → (k ∉ Patterns g) ∧ Keys g = ∅) →
                  filter (λ g, is_Some (Keys g !! k))
                    ((λ g, {| Name := Name g; Description := Description g;
                              Keys := foldl (λ keys kv,
                                               if bool_decide (kv.1 ∈ Patterns g)
                                               then <[kv.1 := kv.2]> keys else keys)
                                        (Keys g) es;
                              Patterns := Patterns g |}) <$> gs) = []) as Hnone.
    { induction gs as [|g gs IH]; intros Hgs; [done|]. rewrite fmap_cons.
      rewrite filter_cons_False.
      - apply IH. intros g' Hg'. apply Hgs. by apply list_elem_of_further.
      - simpl. intros [v Hv]. destruct (Hgs g (list_elem_of_here _ _)) as [Hnot Hempty].
        apply foldl_file_lookup in Hv as [Hv|[? _]]; [|done].
        by rewrite Hempty, lookup_empty in Hv. }
    rewrite Hnone; [done|]. intros g Hg. split; [by apply Hk|by apply groups_empty]. }
  intros a b c d. cbv zeta. repeat split; vm_compute; reflexivity.
Qed.

(** Witness of C9: the file of the scenario. *)
Lemma keys_filed_by_exact_name_witness :
  ReadLines (fileWorld fourKeys) ".env" = inr (fourKeys, None) ∧
  ∃ t result,
    parseEnvFile ".env" groups false (fileWorld fourKeys) = (t, inr result) ∧
    result = classify (omap entry fourKeys) groups.
Proof.
  split; [reflexivity|].
  destruct (keys_filed_by_exact_name (fileWorld fourKeys) ".env" false fourKeys eq_refl)
    as (t & result & Hparse & Hresult & _).
  exists t, result. split; [exact Hparse|exact Hresult].
Defined.

(** The scenario, run. *)
Example four_keys_run :
  Keys <$> (classify (omap entry fourKeys) groups)
  = [ {[ "OPENAI_API_KEY" := "sk-123" ]}; {[ "SERPER_API_KEY" := "c5177" ]};
      {[ "LLM_MODEL" := "gpt-4" ]} ].
Proof. vm_compute. reflexivity. Qed.

End PushSecretsFacts.

(** ** Facts about the deployment *)

Module DeployFacts.

Import CLI Deploy Pipeline.

(** *** Running the monad of the command-line tools *)

Lemma obeys_ret {A} P Q (a : A) w : obeys P Q (mret a) w.
Proof. split; [constructor|]. by intros err [=]. Qed.

Lemma obeys_world P Q w : obeys P Q world w.
Proof. split; [constructor|]. by intros err [=]. Qed.

Lemma obeys_emit (P : Event → Prop) Q e w : P e → obeys P Q (emit e) w.
Proof. intros He. split; [by repeat constructor|]. by intros err [=]. Qed.

Lemma obeys_fail {A} P (Q : error → Prop) err w : Q err → obeys P Q (fail err : IO A) w.
Proof. intros He. split; [constructor|]. by intros err' [= <-]. Qed.

Lemma obeys_bind {A B} P Q (m : IO A) (f : A → IO B) w :
  obeys P Q m w → (∀ a, obeys P Q (f a) w) → obeys P Q (m ≫= f) w.
Proof.
  intros [Hm1 Hm2] Hf. unfold obeys, mbind, IO_bind.
  destruct (m w) as [t [err|a]]; simpl in *.
  - split; [done|]. intros err' [= <-]. by apply Hm2.
  - destruct (Hf a) as [Hf1 Hf2]. destruct (f a w) as [t' r]; simpl in *.
    split; [by apply Forall_app|done].
Qed.

Lemma obeys_attempt {A} P Q Q' (m : IO A) w :
  obeys P Q' m w → obeys P Q (attempt m) w.
Proof.
  intros [Hm _]. unfold obeys, attempt. destruct (m w) as [t r]; simpl in *.
  split; [done|]. by intros err [=].
Qed.

Lemma obeys_wrapping {A} P Q Q' context (m : IO A) w :
  obeys P Q' m w → (∀ err, Q' err → Q (wrap context err)) →
  obeys P Q (wrapping context m) w.
Proof.
  intros [Hm1 Hm2] HQ. unfold obeys, wrapping. destruct (m w) as [t [err|a]]; simpl in *.
  - split; [done|]. intros err' [= <-]. by apply HQ, Hm2.
  - split; [done|]. by intros err [=].
Qed.

Lemma obeys_impl {A} (P P' : Event → Prop) (Q Q' : error → Prop) (m : IO A) w :
  obeys P Q m w → (∀ e, P e → P' e) → (∀ err, Q err → Q' err) → obeys P' Q' m w.
Proof.
  intros [H1 H2] HP HQ. split; [by eapply Forall_impl|]. intros err Herr. by apply HQ, H2.
Qed.

(** Walks through a computation, leaving the events and the errors it
    cannot settle. *)
Ltac obeys_step :=
  match goal with
  | |- obeys _ _ (_ ≫= _) _ => apply obeys_bind; [|intros ?]
  | |- obeys _ _ (mret _) _ => apply obeys_ret
  | |- obeys _ _ world _ => apply obeys_world
  | |- obeys _ _ (Println _) _ => apply obeys_emit; exact I
  | |- obeys _ _ (emit _) _ => apply obeys_emit
  | |- obeys _ _ (fail _) _ => apply obeys_fail
  | |- obeys _ _ (if ?b then _ else _) _ => destruct b eqn:?
  | |- obeys _ _ (match ?d with _ => _ end) _ => destruct d eqn:?
  end.
Ltac obeys_all := repeat obeys_step.

Section Facts.

Variable Join : list string → string.
Variable Base : string → string.
Variable IsAbs : string → bool.
Variable UnmarshalStackName : string → option string.


(** *** The steps in dry-run mode *)

Lemma categorize_quiet verbose key value groups w :
  obeys isStdout never (categorize verbose key value groups) w.
Proof.
  induction groups as [|g groups IH]; simpl; [apply obeys_ret|].
  destruct (EnvFile.fileUnder _ _ _ _) as [keys' found].
  obeys_all; try exact I. apply IH.
Qed.

Lemma scan_quiet verbose lines groups w : obeys isStdout never (scan verbose lines groups) w.
Proof.
  revert groups. induction lines as [|line lines IH]; intros groups; simpl;
    [apply obeys_ret|].
  destruct (EnvFile.entry line) as [[key value]|]; [|apply IH].
  apply obeys_bind; [apply categorize_quiet|]. intros ?. apply IH.
Qed.

Lemma parseEnvFile_quiet filename groups verbose w :
  obeys isStdout fromFile (parseEnvFile filename groups verbose) w.
Proof.
  unfold parseEnvFile. obeys_all; try done.
  eapply obeys_impl; [apply scan_quiet|done|done].
Qed.

Lemma findEnvFile_quiet projectName w :
  obeys isStdout always (findEnvFile Join projectName) w.
Proof. unfold findEnvFile. obeys_all; done. Qed.

Lemma resolveEnvFile_quiet envFile projectName w :
  obeys isStdout never (resolveEnvFile Join IsAbs envFile projectName) w.
Proof.
  unfold resolveEnvFile.
  repeat first [ eapply obeys_attempt; apply findEnvFile_quiet | obeys_step ]; done.
Qed.

Lemma createOrUpdateSecret_dry secretName group w :
  obeys isStdout never (createOrUpdateSecret secretName group true) w.
Proof. unfold createOrUpdateSecret. obeys_all; done. Qed.

Lemma pushGroups_dry prefix groups w : obeys isStdout never (pushGroups prefix groups true) w.
Proof.
  induction groups as [|g groups IH]; simpl; [apply obeys_ret|].
  apply obeys_bind; [apply createOrUpdateSecret_dry|]. intros _. apply IH.
Qed.

(** In dry-run mode the secret push prints and reads the file, nothing
    else; the file is all it can fail on. *)
Lemma pushSecrets_dry envFile prefix projectName verbose w :
  obeys isStdout fromFile (pushSecrets Join IsAbs envFile prefix projectName true verbose) w.
Proof.
  unfold pushSecrets.
  apply obeys_bind.
  { eapply obeys_impl; [apply resolveEnvFile_quiet|done|done]. }
  intros [envPath|]; [|apply obeys_ret].
  apply obeys_bind; [by apply obeys_emit|]. intros _.
  apply obeys_bind; [apply parseEnvFile_quiet|]. intros groups.
  eapply obeys_impl; [apply pushGroups_dry|done|done].
Qed.

Lemma bootstrapCDK_dry accountID region w :
  obeys isStdout never (bootstrapCDK accountID region true) w.
Proof. unfold bootstrapCDK. obeys_all; done. Qed.

Lemma runCommand_obeys (P : Event → Prop) argv w : P (Exec argv) → obeys P always (runCommand argv) w.
Proof. intros HP. unfold runCommand. obeys_all; done. Qed.

(** In dry-run mode the deploy step runs [go mod tidy] and [cdk diff] and
    ignores how they end. *)
Lemma deployCDK_dry w : obeys (λ e, ¬ mutating e) never (deployCDK true) w.
Proof.
  unfold deployCDK.
  repeat first
    [ eapply obeys_attempt; apply runCommand_obeys; simpl; tauto
    | apply obeys_emit; simpl; tauto
    | obeys_step ].
Qed.

Lemma detectProjectName_quiet w :
  obeys isStdout never (detectProjectName Base UnmarshalStackName) w.
Proof. unfold detectProjectName. obeys_all. Qed.

Lemma mustGetwd_quiet w : obeys isStdout never mustGetwd w.
Proof. unfold mustGetwd. obeys_all. Qed.

Lemma stdout_not_mutating e : isStdout e → ¬ mutating e.
Proof. destruct e; simpl; tauto. Qed.

(** C7, as amended.  In dry-run mode [run] writes no secret and runs neither
    [cdk bootstrap] nor [cdk deploy], and none of its three steps reports
    the failure of an external call: the failures of [go mod tidy] and of
    [cdk diff] are ignored.  An external failure that [run] reports in
    dry-run mode comes from loading the AWS configuration or from asking
    for the caller's identity, which [run] does in every mode before the
    first step. *)
Theorem dry_run_steps_report_no_external_failure (f : Flags) (w : World) :
  dryRun f = true →
  Forall (λ e, ¬ mutating e) (run Join Base IsAbs UnmarshalStackName f w).1 ∧
  ∀ err, (run Join Base IsAbs UnmarshalStackName f w).2 = inl err → ExternalToolFailure err → beforeSteps err.
Proof.
  intros Hdry.
  assert (obeys (λ e, ¬ mutating e) (λ err, fromFile err ∨ beforeSteps err)
            (run Join Base IsAbs UnmarshalStackName f) w)
    as [Htrace Herr].
  { unfold run. rewrite Hdry.
    assert (∀ A (m : IO A) Q, obeys isStdout never m w → obeys (λ e, ¬ mutating e) Q m w)
      as Hquiet.
    { intros A m Q Hm. eapply obeys_impl; [exact Hm|apply stdout_not_mutating|done]. }
    repeat first
      [ apply Hquiet; apply detectProjectName_quiet
      | apply Hquiet; apply mustGetwd_quiet
      | apply Hquiet; apply bootstrapCDK_dry
      | eapply obeys_wrapping;
        [eapply obeys_impl; [apply pushSecrets_dry|apply stdout_not_mutating|done]
        |intros err Herr; left; exact Herr]
      | eapply obeys_wrapping; [apply deployCDK_dry|by intros err []]
      | apply obeys_emit; simpl; tauto
      | apply obeys_fail; right; unfold beforeSteps; eauto
      | obeys_step ]. }
  split; [done|]. intros err Hinl [Hext|Hext].
  - destruct (Herr err Hinl) as [Hfile|?]; [|done]. unfold fromFile in Hfile. congruence.
  - destruct (Herr err Hinl) as [Hfile|?]; [|done]. unfold fromFile in Hfile. congruence.
Qed.

(** *** The steps one after the other *)

Lemma bind_pure {A B} (m : IO A) (f : A → IO B) w a :
  m w = ([], inr a) → (m ≫= f) w = f a w.
Proof. unfold mbind, IO_bind. intros ->. by destruct (f a w). Qed.

Lemma detectProjectName_pure w :
  ∃ projectName, detectProjectName Base UnmarshalStackName w = ([], inr projectName).
Proof.
  unfold detectProjectName. rewrite (bind_pure _ _ _ _ eq_refl).
  destruct (ReadFile w "config.json") as [data|].
  - destruct (UnmarshalStackName data) as [stackName|].
    + destruct (String.eqb stackName ""); [|by eauto].
      destruct (ReadFile w "../config.json") as [data'|].
      * destruct (UnmarshalStackName data') as [stackName'|].
        -- destruct (String.eqb stackName' ""); [|by eauto]. destruct (Getwd w); by eauto.
        -- destruct (Getwd w); by eauto.
      * destruct (Getwd w); by eauto.
    + destruct (ReadFile w "../config.json") as [data'|].
      * destruct (UnmarshalStackName data') as [stackName'|].
        -- destruct (String.eqb stackName' ""); [|by eauto]. destruct (Getwd w); by eauto.
        -- destruct (Getwd w); by eauto.
      * destruct (Getwd w); by eauto.
  - destruct (ReadFile w "../config.json") as [data'|].
    + destruct (UnmarshalStackName data') as [stackName'|].
      * destruct (String.eqb stackName' ""); [|by eauto]. destruct (Getwd w); by eauto.
      * destruct (Getwd w); by eauto.
    + destruct (Getwd w); by eauto.
Qed.

Lemma mustGetwd_pure w :
  mustGetwd w = ([], inr match Getwd w with Some wd => wd | None => "." end).
Proof. unfold mustGetwd. rewrite (bind_pure _ _ _ _ eq_refl). by destruct (Getwd w). Qed.

Lemma projectName_pure f w :
  (if String.eqb (project f) "" then detectProjectName Base UnmarshalStackName
   else mret (project f)) w
  = ([], inr (projectNameOf Base UnmarshalStackName f w)).
Proof.
  unfold projectNameOf. destruct (String.eqb (project f) ""); [|done].
  by destruct (detectProjectName_pure w) as [name ->].
Qed.

Lemma run_push_fails f w accountID t err :
  LoadDefaultConfig w (resolveRegion f w) = None →
  GetCallerIdentity w = inr accountID →
  skipSecrets f = false →
  pushStep Join Base IsAbs UnmarshalStackName f w = (t, inl err) →
  run Join Base IsAbs UnmarshalStackName f w
  = (preamble Base UnmarshalStackName f w accountID ++ Stdout "=== Step 1: Push Secrets ===" :: t,
     inl (wrap "pushing secrets" err)).
Proof.
  intros Hcfg Hid Hskip Hpush. unfold pushStep in Hpush. unfold preamble.
  unfold run. rewrite (bind_pure _ _ _ _ eq_refl).
  rewrite (bind_pure _ _ _ _ (projectName_pure f w)).
  rewrite Hcfg, Hid, Hskip.
  revert Hpush. generalize (projectNameOf Base UnmarshalStackName f w) as name.
  intros name Hpush.
  destruct (negb (name =? "")), (dryRun f);
    unfold mbind, IO_bind, mret, IO_ret, Println, emit, world, wrapping;
    cbn -[pushSecrets String.append mustGetwd]; rewrite mustGetwd_pure, Hpush; reflexivity.
Qed.

Lemma createOrUpdateSecret_no_command secretName group dryRun w :
  obeys (λ e, ¬ isExec e) always (createOrUpdateSecret secretName group dryRun) w.
Proof.
  unfold createOrUpdateSecret.
  repeat first [ apply obeys_emit; simpl; tauto | obeys_step ]; done.
Qed.

Lemma pushGroups_no_command prefix groups dryRun w :
  obeys (λ e, ¬ isExec e) always (pushGroups prefix groups dryRun) w.
Proof.
  induction groups as [|g groups IH]; simpl; [apply obeys_ret|].
  apply obeys_bind; [apply createOrUpdateSecret_no_command|]. intros _. apply IH.
Qed.

Lemma stdout_not_exec e : isStdout e → ¬ isExec e.
Proof. destruct e; simpl; tauto. Qed.

(** The secret push runs no command. *)
Lemma pushSecrets_no_command envFile prefix projectName dryRun verbose w :
  obeys (λ e, ¬ isExec e) always
    (pushSecrets Join IsAbs envFile prefix projectName dryRun verbose) w.
Proof.
  unfold pushSecrets.
  apply obeys_bind.
  { eapply obeys_impl; [apply resolveEnvFile_quiet|apply stdout_not_exec|done]. }
  intros [envPath|]; [|apply obeys_ret].
  apply obeys_bind; [apply obeys_emit; simpl; tauto|]. intros _.
  apply obeys_bind.
  { eapply obeys_impl; [apply parseEnvFile_quiet|apply stdout_not_exec|done]. }
  intros groups. apply pushGroups_no_command.
Qed.

Lemma preamble_no_command f w accountID : Forall (λ e, ¬ isExec e) (preamble Base UnmarshalStackName f w accountID).
Proof.
  unfold preamble.
  destruct (negb _), (dryRun f); repeat (apply Forall_cons; split; [simpl; tauto|]);
    apply Forall_nil_2.
Qed.

Lemma run_bootstrap_fails f w accountID msg :
  LoadDefaultConfig w (resolveRegion f w) = None →
  GetCallerIdentity w = inr accountID →
  (secretsStep Join Base IsAbs UnmarshalStackName f w).2 = inr () →
  skipBootstrap f = false →
  dryRun f = false →
  Run w ["cdk"; "bootstrap"; "aws://" +:+ accountID +:+ "/" +:+ resolveRegion f w] = Some msg →
  run Join Base IsAbs UnmarshalStackName f w
  = ((preamble Base UnmarshalStackName f w accountID ++ (secretsStep Join Base IsAbs UnmarshalStackName f w).1
      ++ [Stdout "=== Step 2: Bootstrap CDK ===";
          Stdout ("Bootstrap target: aws://" +:+ accountID +:+ "/" +:+ resolveRegion f w)])
     ++ [Exec ["cdk"; "bootstrap"; "aws://" +:+ accountID +:+ "/" +:+ resolveRegion f w];
         Stdout "  Bootstrap completed (or already bootstrapped)";
         Stdout "";
         Stdout "=== Step 3: Deploy ==="]
     ++ (deployCDK false w).1
     ++ match (deployCDK false w).2 with
        | inl _ => []
        | inr _ => closing f w
        end,
     deployResult (deployCDK false w).2).
Proof.
  intros Hcfg Hid Hpush Hskip Hdry Hrun. revert Hpush.
  unfold secretsStep, pushStep, preamble, closing.
  unfold run. rewrite (bind_pure _ _ _ _ eq_refl).
  rewrite (bind_pure _ _ _ _ (projectName_pure f w)).
  rewrite Hcfg, Hid, Hskip, Hdry.
  generalize (projectNameOf Base UnmarshalStackName f w) as name.
  intros name.
  destruct (pushSecrets Join IsAbs (envFile f) (prefix f) name false (verbose f) w)
    as [t r] eqn:Hp.
  intros Hpush.
  unfold bootstrapCDK, runCommand, attempt, deployResult.
  destruct (deployCDK false w) as [td [err|[]]] eqn:Hdeploy;
    destruct (skipSecrets f); destruct r as [e|[]]; simpl in Hpush; try discriminate Hpush;
    destruct (negb (name =? ""));
    unfold mbind, IO_bind, mret, IO_ret, Println, emit, world, wrapping, fail;
    cbn -[deployCDK pushSecrets String.append mustGetwd];
    rewrite mustGetwd_pure, ?Hp, Hrun, Hdeploy; cbn -[String.append];
    rewrite <- ?app_assoc, ?app_nil_r; reflexivity.
Qed.

(** C8.  Once [run] has loaded the AWS configuration and knows the
    caller's identity: if the secret push fails, [run] stops there, its
    last events are those of the push, its error is the error of the push
    wrapped in "pushing secrets", and no command has been run, neither
    [cdk bootstrap] nor any command of the deploy step; if [cdk bootstrap]
    fails after the first step has passed, [run] prints "Bootstrap
    completed (or already bootstrapped)", drops the error, goes on to the
    deploy step and ends as the deploy step ends. *)
Theorem push_failure_aborts_bootstrap_failure_is_ignored
    (f : Flags) (w : World) (accountID : string) :
  LoadDefaultConfig w (resolveRegion f w) = None →
  GetCallerIdentity w = inr accountID →
  (skipSecrets f = false →
   ∀ t err, pushStep Join Base IsAbs UnmarshalStackName f w = (t, inl err) →
     run Join Base IsAbs UnmarshalStackName f w
     = (preamble Base UnmarshalStackName f w accountID
        ++ Stdout "=== Step 1: Push Secrets ===" :: t,
        inl (wrap "pushing secrets" err)) ∧
     Forall (λ e, ¬ isExec e) (run Join Base IsAbs UnmarshalStackName f w).1)
  ∧
  (skipBootstrap f = false →
   dryRun f = false →
   (secretsStep Join Base IsAbs UnmarshalStackName f w).2 = inr () →
   ∀ msg,
     Run w ["cdk"; "bootstrap"; "aws://" +:+ accountID +:+ "/" +:+ resolveRegion f w]
     = Some msg →
     ∃ pre post,
       (run Join Base IsAbs UnmarshalStackName f w).1
       = pre
         ++ [Exec ["cdk"; "bootstrap"; "aws://" +:+ accountID +:+ "/" +:+ resolveRegion f w];
             Stdout "  Bootstrap completed (or already bootstrapped)";
             Stdout "";
             Stdout "=== Step 3: Deploy ==="]
         ++ (deployCDK false w).1 ++ post ∧
       (run Join Base IsAbs UnmarshalStackName f w).2 = deployResult (deployCDK false w).2).
Proof.
  intros Hcfg Hid. split.
  - intros Hskip t err Hpush.
    pose proof (run_push_fails f w accountID t err Hcfg Hid Hskip Hpush) as Hrun.
    split; [exact Hrun|]. rewrite Hrun. cbn [fst].
    apply Forall_app. split; [apply preamble_no_command|].
    apply Forall_cons. split; [simpl; tauto|].
    pose proof (pushSecrets_no_command (envFile f) (prefix f)
                  (projectNameOf Base UnmarshalStackName f w) (dryRun f) (verbose f) w)
      as [Hno _].
    unfold pushStep in Hpush. rewrite Hpush in Hno. exact Hno.
  - intros Hskip Hdry Hpush msg Hrun.
    rewrite (run_bootstrap_fails f w accountID msg Hcfg Hid Hpush Hskip Hdry Hrun).
    eexists _, _. split; reflexivity.
Qed.

End Facts.

(** *** Sample runs *)

(** Witness of C7: a dry run in a world where every call succeeds. *)
Lemma dry_run_steps_report_no_external_failure_witness :
  dryRun dryRunFlags = true ∧
  Forall (λ e, ¬ mutating e) (run joinPath basePath isAbs noStackName dryRunFlags baseWorld).1.
Proof.
  split; [reflexivity|].
  exact (proj1 (dry_run_steps_report_no_external_failure joinPath basePath isAbs noStackName
                  dryRunFlags baseWorld eq_refl)).
Defined.

(** Counterexample to C7: in dry-run mode [run] still loads the AWS
    configuration, asks STS for the caller's identity and runs [go mod tidy]
    and [cdk diff]; when the identity is refused it reports that failure. *)
Lemma dry_run_reports_identity_failure :
  dryRun dryRunFlags = true ∧
  run joinPath basePath isAbs noStackName dryRunFlags identityRefused
  = ([Stdout "=== AWS AgentCore Deployment ==="; Stdout ""; Stdout "Region: eu-west-1";
      Stdout "Project: demo"; Stdout "Working directory: /work/cdk";
      Stdout "Mode: DRY RUN (no changes will be made)"; Stdout "";
      AWSLoadDefaultConfig "eu-west-1"; STSGetCallerIdentity],
     inl {| origin := FromAWS;
            Error := "getting AWS identity: ExpiredToken: the security token included in the request is expired" |}) ∧
  ExternalToolFailure
    {| origin := FromAWS;
       Error := "getting AWS identity: ExpiredToken: the security token included in the request is expired" |} ∧
  filter external (run joinPath basePath isAbs noStackName dryRunFlags baseWorld).1
  = [AWSLoadDefaultConfig "eu-west-1"; STSGetCallerIdentity;
     Exec ["go"; "mod"; "tidy"]; Exec ["cdk"; "diff"]].
Proof.
  split; [reflexivity|]. split; [vm_compute; reflexivity|]. split; [left; reflexivity|].
  vm_compute. reflexivity.
Qed.

(** Witness of C8: a run in a world where the secret store refuses the
    write, and a run in a world where [cdk bootstrap] fails. *)
Lemma push_failure_aborts_bootstrap_failure_is_ignored_witness :
  (run joinPath basePath isAbs noStackName flags secretStoreDown
   = (preamble basePath noStackName flags secretStoreDown "123456789012"
      ++ Stdout "=== Step 1: Push Secrets ==="
         :: [Stdout "Reading from: .env"; Stdout "  stats-agent/llm: OPENAI_API_KEY";
             SMPutSecretValue "stats-agent/llm" {[ "OPENAI_API_KEY" := "sk-123" ]}],
      inl (wrap "pushing secrets" {| origin := FromAWS; Error := "AccessDeniedException" |})) ∧
   Forall (λ e, ¬ isExec e) (run joinPath basePath isAbs noStackName flags secretStoreDown).1) ∧
  ∃ pre post,
    (run joinPath basePath isAbs noStackName flags bootstrapFails).1
    = pre
      ++ [Exec ["cdk"; "bootstrap"; "aws://123456789012/eu-west-1"];
          Stdout "  Bootstrap completed (or already bootstrapped)";
          Stdout "";
          Stdout "=== Step 3: Deploy ==="]
      ++ (deployCDK false bootstrapFails).1 ++ post ∧
    (run joinPath basePath isAbs noStackName flags bootstrapFails).2
    = deployResult (deployCDK false bootstrapFails).2.
Proof.
  split.
  - refine (proj1 (push_failure_aborts_bootstrap_failure_is_ignored joinPath basePath isAbs
                     noStackName flags secretStoreDown "123456789012" eq_refl eq_refl)
              eq_refl _ _ _).
    vm_compute. reflexivity.
  - refine (proj2 (push_failure_aborts_bootstrap_failure_is_ignored joinPath basePath isAbs
                     noStackName flags bootstrapFails "123456789012" eq_refl eq_refl)
              eq_refl eq_refl _ "exit status 1" eq_refl).
    vm_compute. reflexivity.
Defined.

End DeployFacts.

(** ** Running the builder forwards *)

Module BuilderFacts.

Import iac AgentCore Graph Samples AgentCoreFacts.

(** *** Running the builder forwards *)

Lemma bind_assoc_run {A B C} (m : Build A) (g : A → Build B) (f : B → Build C) s :
  ((m ≫= g) ≫= f) s = (m ≫= λ a, g a ≫= f) s.
Proof. unfold mbind, Build_bind. by destruct (m s) as [[a s1]|]. Qed.

Lemma get_run {B} (f : AgentCoreStack → Build B) s : (get ≫= f) s = f s s.
Proof. reflexivity. Qed.

Lemma modify_run {B} g (f : unit → Build B) s : (modify g ≫= f) s = f () (g s).
Proof. reflexivity. Qed.

Lemma ret_run {A B} (a : A) (f : A → Build B) s : (mret a ≫= f) s = f a s.
Proof. reflexivity. Qed.

Lemma deref_run {A B} (p : option A) a (f : A → Build B) s :
  p = Some a → (deref p ≫= f) s = f a s.
Proof. by intros ->. Qed.

Lemma newConstruct_run {B} id p (f : ResourceNode → Build B) s :
  (newConstruct id p ≫= f) s
  = f {| logicalId := id; properties := p |}
      (with_Resources (λ l, l ++ [{| logicalId := id; properties := p |}]) s).
Proof. reflexivity. Qed.

Lemma NewCfnOutput_run {B} id v d (f : unit → Build B) s :
  (NewCfnOutput id v d ≫= f) s
  = f () (with_Outputs (λ l, l ++ [{| out_id := id; Value := v; out_Description := d |}]) s).
Proof. reflexivity. Qed.

Lemma rangeCopy_run {B} order src dst (f : gmap string string → Build B) s :
  (rangeCopy order src dst ≫= f) s
  = f (foldl (λ acc kv, <[kv.1 := kv.2]> acc) dst (order (ranges s) src)) (with_ranges S s).
Proof. reflexivity. Qed.

(** The fields of a stack after an update. *)
Ltac fields :=
  cbn [Stack Resources Outputs Config VPC SecurityGroup ExecutionRole Secret LogGroup
       Agents Runtimes Endpoints Gateway ranges
       with_Resources with_Outputs with_VPC with_SecurityGroup with_ExecutionRole
       with_Secret with_LogGroup with_Agents with_Runtimes with_Endpoints with_Gateway
       with_ranges].

Ltac fields_all :=
  cbn [Stack Resources Outputs Config VPC SecurityGroup ExecutionRole Secret LogGroup
       Agents Runtimes Endpoints Gateway ranges
       with_Resources with_Outputs with_VPC with_SecurityGroup with_ExecutionRole
       with_Secret with_LogGroup with_Agents with_Runtimes with_Endpoints with_Gateway
       with_ranges] in *.

Ltac forward_step :=
  first
    [ rewrite bind_assoc_run
    | rewrite get_run
    | rewrite modify_run
    | rewrite ret_run
    | rewrite newConstruct_run
    | rewrite NewCfnOutput_run
    | rewrite rangeCopy_run
    | erewrite deref_run by (fields; first [eassumption | apply lookup_insert_eq]) ].
Ltac forward := repeat forward_step.

(** *** When the builder returns *)

Lemma createVPC_returns s vpcConfig :
  iac.VPC (Config s) = Some vpcConfig →
  ∃ s', createVPC s = Ok ((), s') ∧ ExecutionRole s' = ExecutionRole s.
Proof.
  intros Hc. unfold createVPC, createVPCEndpoints, mbind, Build_bind, get, deref.
  rewrite Hc. cbn -[String.append String.eqb].
  destruct (negb _); cbn -[String.append]; [eauto|].
  destruct (CreateVPC vpcConfig); cbn -[String.append]; [|eauto].
  destruct (EnableVPCEndpoints vpcConfig); cbn -[String.append]; eauto.
Qed.

Lemma createSecurityGroup_returns s vpcConfig :
  iac.VPC (Config s) = Some vpcConfig →
  ∃ s', createSecurityGroup s = Ok ((), s').
Proof.
  intros Hc. unfold createSecurityGroup, mbind, Build_bind, get, deref.
  rewrite Hc. cbn -[String.append String.eqb].
  destruct (SecurityGroupIDs vpcConfig); cbn -[String.append]; eauto.
Qed.

Lemma createSecrets_returns order s : ∃ s', createSecrets order s = Ok ((), s').
Proof.
  unfold createSecrets, rangeCopy, mbind, Build_bind, get. cbn -[String.append String.eqb].
  destruct (Secrets (Config s)) as [secretsConfig|]; [|eauto].
  destruct (_ && _); cbn -[String.append String.eqb]; eauto.
Qed.

Lemma createIAMRole_returns s iamConfig :
  IAM (Config s) = Some iamConfig →
  ∃ s', createIAMRole s = Ok ((), s') ∧ is_Some (ExecutionRole s').
Proof.
  intros Hc. unfold createIAMRole, mbind, Build_bind, get, deref.
  rewrite Hc. cbn -[String.append String.eqb newRole].
  destruct (negb (String.eqb (RoleARN iamConfig) "")); cbn -[String.append String.eqb newRole];
    [eauto|].
  destruct (negb _); cbn -[String.append String.eqb newRole]; eauto.
Qed.

Lemma createLogGroup_returns s :
  ∃ s', createLogGroup s = Ok ((), s') ∧ ExecutionRole s' = ExecutionRole s.
Proof.
  unfold createLogGroup, mbind, Build_bind, get. cbn -[String.append String.eqb].
  destruct (Observability (Config s)) as [o|]; [|eauto].
  destruct (negb _); cbn -[String.append String.eqb retentionOf]; eauto.
Qed.

Lemma createAgent_returns order PS a s :
  is_Some (ExecutionRole s) →
  ∃ s', createAgent order PS a s = Ok ((), s') ∧ ExecutionRole s' = ExecutionRole s.
Proof.
  intros [role Hrole].
  unfold createAgent, createAgentRuntime, createRuntimeEndpoint, addAgentOutputs, getTags.
  forward. unfold modify. eexists. split; [reflexivity|]. reflexivity.
Qed.

Lemma createAgents_returns order PS agents s :
  is_Some (ExecutionRole s) →
  ∃ s', createAgents order PS agents s = Ok ((), s') ∧ ExecutionRole s' = ExecutionRole s.
Proof.
  revert s. induction agents as [|a agents IH]; intros s Hrole; simpl; [by eexists|].
  destruct (createAgent_returns order PS a s Hrole) as (s1 & H1 & Hr1).
  destruct (IH s1) as (s' & H' & Hr'); [by rewrite Hr1|].
  exists s'. split; [|congruence].
  unfold mbind, Build_bind. by rewrite H1.
Qed.

Lemma createGateway_returns order s :
  is_Some (ExecutionRole s) → ∃ s', createGateway order s = Ok ((), s').
Proof.
  intros [role Hrole]. unfold createGateway, getStackTags. forward.
  destruct (iac.Gateway (Config s)) as [g|]; [|by eexists].
  destruct (negb (Enabled g)); [by eexists|].
  forward. by eexists.
Qed.

Lemma addOutputs_returns s : ∃ s', addOutputs s = Ok ((), s').
Proof.
  unfold addOutputs. forward.
  destruct (VPC s), (SecurityGroup s), (ExecutionRole s), (LogGroup s), (Gateway s);
    forward; by eexists.
Qed.

Lemma bind_run {A B} (m : Build A) (f : A → Build B) s a s1 :
  m s = Ok (a, s1) → (m ≫= f) s = f a s1.
Proof. unfold mbind, Build_bind. by intros ->. Qed.

Lemma build_result order PS config s0 :
  match iac.VPC (Config s0), IAM (Config s0) with
  | Some _, Some _ => ∃ s, build order PS config s0 = Ok ((), s)
  | _, _ => build order PS config s0 = Panic nilDereference
  end.
Proof.
  unfold build.
  destruct (iac.VPC (Config s0)) as [vpcConfig|] eqn:Hvpc.
  2: { unfold createVPC. forward. by rewrite Hvpc. }
  destruct (createVPC_returns s0 vpcConfig Hvpc) as (s1 & H1 & _).
  destruct (createVPC_adds _ _ _ H1) as [[Hc1 _] _].
  destruct (createSecurityGroup_returns s1 vpcConfig) as (s2 & H2); [congruence|].
  destruct (createSecurityGroup_adds _ _ _ H2) as [[Hc2 _] _].
  destruct (createSecrets_returns order s2) as (s3 & H3).
  destruct (createSecrets_adds _ _ _ _ H3) as [[Hc3 _] _].
  rewrite (bind_run _ _ _ _ _ H1), (bind_run _ _ _ _ _ H2), (bind_run _ _ _ _ _ H3).
  assert (IAM (Config s3) = IAM (Config s0)) as Hiam by congruence.
  destruct (IAM (Config s0)) as [iamConfig|].
  2: { unfold createIAMRole. forward. by rewrite Hiam. }
  destruct (createIAMRole_returns s3 iamConfig Hiam) as (s4 & H4 & Hrole4).
  destruct (createLogGroup_returns s4) as (s5 & H5 & Hrole5).
  destruct (createAgents_returns order PS (iac.Agents config) s5) as (s6 & H6 & Hrole6);
    [by rewrite Hrole5|].
  destruct (createGateway_returns order s6) as (s7 & H7); [by rewrite Hrole6, Hrole5|].
  destruct (addOutputs_returns s7) as (s8 & H8).
  rewrite (bind_run _ _ _ _ _ H4), (bind_run _ _ _ _ _ H5), (bind_run _ _ _ _ _ H6),
    (bind_run _ _ _ _ _ H7), H8.
  by exists s8.
Qed.

Lemma NewAgentCoreStack_configs order PS AD V config s :
  NewAgentCoreStack order PS AD V config = Ok s →
  is_Some (iac.VPC (AD config)) ∧ is_Some (IAM (AD config)).
Proof.
  intros Hs.
  pose proof (NewAgentCoreStack_Ok _ _ _ _ _ _ Hs) as (_ & tags & n & Hb).
  pose proof (build_result order PS (AD config) (newStack (AD config) tags n)) as Hr.
  cbn [newStack Config] in Hr.
  destruct (iac.VPC (AD config)); [|by rewrite Hr in Hb].
  destruct (IAM (AD config)); [|by rewrite Hr in Hb].
  split; by eexists.
Qed.


End BuilderFacts.

(** ** References between the constructs *)

Module LayoutFacts.

Import iac AgentCore Graph Samples Layout AgentCoreFacts BuilderFacts.

Lemma forallb_elem {A} (f : A → bool) (l : list A) :
  forallb f l = true ↔ ∀ x, x ∈ l → f x = true.
Proof.
  rewrite forallb_forall. split; intros H x Hx; apply H; by apply list_elem_of_In.
Qed.

Lemma createdInOrder_app seen l l' :
  createdInOrder seen (l ++ l')
  = createdInOrder seen l && createdInOrder (reverse (logicalId <$> l) ++ seen) l'.
Proof.
  revert seen. induction l as [|n l IH]; intros seen; [done|].
  cbn [app createdInOrder]. rewrite IH, fmap_cons, reverse_cons, <- app_assoc.
  by rewrite andb_assoc.
Qed.

Lemma createdInOrder_snoc l n :
  createdInOrder [] l = true →
  (∀ id, id ∈ dependsOn n → id ∈ logicalId <$> l) →
  createdInOrder [] (l ++ [n]) = true.
Proof.
  intros Hl Hn. rewrite createdInOrder_app, Hl. cbn. rewrite andb_true_r, app_nil_r.
  apply forallb_elem. intros id Hid.
  apply bool_decide_eq_true_2. apply elem_of_reverse. by apply Hn.
Qed.

Lemma tokenRef_VpcId n id : id ∈ tokenRef (VpcId n) → id = logicalId n.
Proof.
  unfold VpcId. destruct (properties n); simpl; intros H;
    first [by apply elem_of_nil in H | by apply list_elem_of_singleton in H].
Qed.
Lemma tokenRef_SecurityGroupId n id : id ∈ tokenRef (SecurityGroupId n) → id = logicalId n.
Proof.
  unfold SecurityGroupId. destruct (properties n); simpl; intros H;
    first [by apply elem_of_nil in H | by apply list_elem_of_singleton in H].
Qed.
Lemma tokenRef_RoleArn n id : id ∈ tokenRef (RoleArn n) → id = logicalId n.
Proof.
  unfold RoleArn. destruct (properties n); simpl; intros H;
    first [by apply elem_of_nil in H | by apply list_elem_of_singleton in H].
Qed.
Lemma tokenRef_SecretArn n id : id ∈ tokenRef (SecretArn n) → id = logicalId n.
Proof.
  unfold SecretArn. destruct (properties n); simpl; intros H;
    first [by apply elem_of_nil in H | by apply list_elem_of_singleton in H].
Qed.

(** Membership in the ids of a list of constructs that was extended. *)
Ltac mem :=
  rewrite ?fmap_app; cbn [logicalId fmap list_fmap];
  rewrite ?elem_of_app, ?elem_of_cons;
  first [ by auto 10 | by eauto 10 | tauto ].

Ltac known_field :=
  let n := fresh "n" in
  let Hn := fresh "Hn" in
  intros n Hn;
  first
    [ injection Hn as <-; mem
    | discriminate Hn
    | match goal with
      | H : ∀ n, ?p = Some n → _ |- _ => specialize (H n Hn); mem
      end ].

Ltac known_output :=
  let o := fresh "o" in
  let id := fresh "id" in
  let Ho := fresh "Ho" in
  let Hid := fresh "Hid" in
  intros o id Ho Hid;
  match goal with
  | H : ∀ o id, o ∈ Outputs _ → _ |- _ => specialize (H o id Ho Hid); mem
  end.

Ltac no_ref :=
  match goal with
  | H : _ ∈ [] |- _ => by apply elem_of_nil in H
  | H : _ ∈ [_] |- _ => apply list_elem_of_singleton in H; subst; mem
  end.

(** The outputs a step adds refer to constructs of the stack. *)
Ltac new_outputs Hout :=
  let o := fresh "o" in
  let id := fresh "id" in
  let Hin := fresh "Hin" in
  let Hid := fresh "Hid" in
  intros o id Hin Hid;
  repeat (apply elem_of_app in Hin as [Hin|Hin]);
  [ specialize (Hout o id Hin Hid); mem
  | apply list_elem_of_singleton in Hin; subst o;
    cbn [Value tokenRef AttrAgentRuntimeArn AttrAgentRuntimeId AttrAgentRuntimeEndpointArn
         AttrGatewayArn AttrGatewayIdentifier AttrGatewayUrl LogGroupName logicalId] in Hid;
    first
      [ by apply elem_of_nil in Hid
      | apply list_elem_of_singleton in Hid; subst id; mem
      | idtac ] .. ].

(** A step that only appends constructs and sets fields keeps [inv]. *)
Ltac keep_inv :=
  unfold inv, known, ids in *; fields_all; simplify_eq;
  repeat match goal with |- _ ∧ _ => split end;
  try match goal with
  | |- createdInOrder _ _ = true =>
      repeat (apply createdInOrder_snoc; [|cbn [dependsOn properties]; intros ? ?]);
      try assumption; try no_ref
  | |- ∀ n, _ = Some n → _ => known_field
  | |- ∀ o id, _ → _ → _ => known_output
  end.

Lemma createVPC_inv s s' u : createVPC s = Ok (u, s') → inv s → inv s'.
Proof.
  unfold createVPC, createVPCEndpoints. intros H (Ho & Hv & Hsg & Hr & Hsec & Hlg & Hgw & Hout).
  run; keep_inv.
Qed.

Lemma createSecurityGroup_inv s s' u : createSecurityGroup s = Ok (u, s') → inv s → inv s'.
Proof.
  unfold createSecurityGroup. intros H (Ho & Hv & Hsg & Hr & Hsec & Hlg & Hgw & Hout).
  run; keep_inv.
  destruct (VPC s) as [vpc|] eqn:Hvpc; simpl in *; [|no_ref].
  apply list_elem_of_singleton in H as ->. by apply Hv.
Qed.

Lemma createSecrets_inv order s s' u : createSecrets order s = Ok (u, s') → inv s → inv s'.
Proof.
  unfold createSecrets. intros H (Ho & Hv & Hsg & Hr & Hsec & Hlg & Hgw & Hout).
  run; keep_inv.
Qed.

Lemma createLogGroup_inv s s' u : createLogGroup s = Ok (u, s') → inv s → inv s'.
Proof.
  unfold createLogGroup. intros H (Ho & Hv & Hsg & Hr & Hsec & Hlg & Hgw & Hout).
  run; keep_inv.
Qed.

Lemma createdInOrder_no_refs l l' :
  createdInOrder [] l = true → Forall (λ n, dependsOn n = []) l' →
  createdInOrder [] (l ++ l') = true.
Proof.
  intros Hl Hl'. rewrite createdInOrder_app, Hl. simpl.
  generalize (reverse (logicalId <$> l) ++ []). 
  induction Hl' as [|n l' Hn _ IH]; intros seen; [done|].
  simpl. rewrite Hn. simpl. apply IH.
Qed.

Lemma agentSecrets_no_refs agents : Forall (λ n, dependsOn n = []) (agentSecrets agents).
Proof.
  eapply Forall_impl; [apply agentSecrets_kind|].
  intros [id []] Hk; try discriminate Hk; done.
Qed.

Lemma additionalPolicies_no_refs iamConfig :
  Forall (λ n, dependsOn n = []) (additionalPolicies iamConfig).
Proof.
  eapply Forall_impl; [apply additionalPolicies_kind|].
  intros [id []] Hk; try discriminate Hk; done.
Qed.

(** The policy of the role [createIAMRole] creates. *)
Lemma newRole_Policy s iamConfig :
  Policy (newRole s iamConfig)
  = (if EnableBedrockAccess iamConfig
     then [PolicyStatement invokeModelActions (modelResources (BedrockModelIDs iamConfig))]
     else [])
    ++ [logsStatement]
    ++ match Secret s with
       | Some secret => [GrantRead (SecretArn secret)]
       | None => []
       end
    ++ ((λ secret, GrantRead (SecretArn secret)) <$> agentSecrets (iac.Agents (Config s)))
    ++ [ecrStatement].
Proof.
  unfold newRole.
  assert (∀ role, Policy (if negb (PermissionsBoundaryARN iamConfig =? "")
                          then ApplyPermissionsBoundary (PermissionsBoundaryARN iamConfig) role
                          else role) = Policy role) as Hb.
  { intros role. by destruct (negb _). }
  rewrite Hb, Policy_managed. cbn [AddToPolicy Policy]. rewrite Policy_grants.
  unfold bedrockAccess, modelResources.
  destruct (Secret s), (EnableBedrockAccess iamConfig), (BedrockModelIDs iamConfig);
    cbn [AddToPolicy Policy app]; by rewrite <- ?app_assoc.
Qed.

(** The role refers to the secret of the stack, if to anything. *)
Lemma newRole_refs s iamConfig id :
  id ∈ flat_map grantRefs (Policy (newRole s iamConfig)) →
  ∃ secret, Secret s = Some secret ∧ id = logicalId secret.
Proof.
  rewrite newRole_Policy, !flat_map_app. rewrite !elem_of_app.
  assert (flat_map grantRefs
            ((λ secret, GrantRead (SecretArn secret)) <$> agentSecrets (iac.Agents (Config s)))
          = []) as ->.
  { induction (agentSecrets_kind (iac.Agents (Config s))) as [|n l Hn _ IH]; [done|].
    rewrite fmap_cons. cbn [flat_map]. rewrite IH, app_nil_r.
    destruct n as [i []]; try discriminate Hn. done. }
  intros [H|[H|[H|[H|H]]]].
  - destruct (EnableBedrockAccess iamConfig); simpl in H; by apply elem_of_nil in H.
  - by apply elem_of_nil in H.
  - destruct (Secret s) as [secret|]; simpl in H; [|by apply elem_of_nil in H].
    rewrite app_nil_r in H. apply tokenRef_SecretArn in H. eauto.
  - by apply elem_of_nil in H.
  - by apply elem_of_nil in H.
Qed.

Lemma createIAMRole_inv s s' u : createIAMRole s = Ok (u, s') → inv s → inv s'.
Proof.
  unfold createIAMRole. intros H (Ho & Hv & Hsg & Hr & Hsec & Hlg & Hgw & Hout).
  run; keep_inv.
  all: apply createdInOrder_no_refs; [|apply additionalPolicies_no_refs].
  all: apply createdInOrder_no_refs; [|apply agentSecrets_no_refs].
  all: apply createdInOrder_snoc; [done|]; cbn [dependsOn properties]; intros id Hid.
  all: apply newRole_refs in Hid as (secret & Hs & ->); by apply Hsec.
Qed.

Section Agents.

Variable order : RangeOrder.
Variable PS : ResourceNode → option (list Token).
Hypothesis HPS : subnetsOfVpc PS.

Lemma createAgent_inv a s s' u : createAgent order PS a s = Ok (u, s') → inv s → inv s'.
Proof.
  unfold createAgent, createAgentRuntime, createRuntimeEndpoint, addAgentOutputs, getTags.
  intros H (Ho & Hv & Hsg & Hr & Hsec & Hlg & Hgw & Hout).
  run. fields_all. rewrite ?lookup_insert_eq in *. simplify_eq.
  keep_inv.
  - cbn [rt_RoleArn SecurityGroups Subnets] in H.
    unfold getSecurityGroupIds, getPrivateSubnetIds in H. fields_all.
    apply elem_of_app in H as [H|H]; [|apply elem_of_app in H as [H|H]].
    + apply tokenRef_RoleArn in H as ->. mem.
    + destruct (SecurityGroup s) as [sg|] eqn:Esg; simpl in H; [|by apply elem_of_nil in H].
      rewrite app_nil_r in H. apply tokenRef_SecurityGroupId in H as ->. mem.
    + destruct (VPC s) as [vpc|] eqn:Evpc; [|by apply elem_of_nil in H].
      destruct (PS vpc) as [subnets|] eqn:Esub; [|by apply elem_of_nil in H].
      apply list_elem_of_In, in_flat_map in H as (t & Ht & Hid).
      apply list_elem_of_In in Ht, Hid.
      rewrite (HPS vpc subnets t id Esub Ht Hid). mem.
  - cbn [AgentRuntimeId AttrAgentRuntimeId tokenRef logicalId] in H.
    apply list_elem_of_singleton in H as ->. mem.
  - new_outputs Hout.
Qed.

Lemma createAgents_inv agents s s' u :
  createAgents order PS agents s = Ok (u, s') → inv s → inv s'.
Proof.
  revert s u. induction agents as [|a agents IH]; intros s u H Hinv; simpl in H.
  - by run.
  - run. eapply IH; [eassumption|]. eapply createAgent_inv; eassumption.
Qed.

End Agents.

Lemma createGateway_inv order s s' u : createGateway order s = Ok (u, s') → inv s → inv s'.
Proof.
  unfold createGateway, getStackTags. intros H (Ho & Hv & Hsg & Hr & Hsec & Hlg & Hgw & Hout).
  run; keep_inv.
  match goal with
  | Hid : _ ∈ tokenRef _ |- _ => cbn [gwp_RoleArn] in Hid; apply tokenRef_RoleArn in Hid as ->
  end.
  mem.
Qed.

Lemma addOutputs_inv s s' u : addOutputs s = Ok (u, s') → inv s → inv s'.
Proof.
  unfold addOutputs. intros H Hinv. run.
  all: destruct Hinv as (Ho & Hv & Hsg & Hr & Hsec & Hlg & Hgw & Hout).
  all: keep_inv.
  all: try (match goal with |- ∀ o id, _ => idtac end; new_outputs Hout).
  all: match goal with
       | Hid : _ ∈ tokenRef (VpcId _) |- _ => apply tokenRef_VpcId in Hid as ->; by apply Hv
       | Hid : _ ∈ tokenRef (SecurityGroupId _) |- _ =>
           apply tokenRef_SecurityGroupId in Hid as ->; by apply Hsg
       | Hid : _ ∈ tokenRef (RoleArn _) |- _ => apply tokenRef_RoleArn in Hid as ->; by apply Hr
       end.
Qed.

(** In a stack that [NewAgentCoreStack] returns, every construct refers
    only to constructs created before it, and every output to a construct
    of the stack. *)
Theorem references_resolve order PS AD V config s :
  subnetsOfVpc PS →
  NewAgentCoreStack order PS AD V config = Ok s →
  createdInOrder [] (Resources s) = true ∧ outputsResolve s = true.
Proof.
  intros HPS H.
  apply NewAgentCoreStack_Ok in H as (_ & tags & n & H).
  apply build_Ok in H
    as (s1 & s2 & s3 & s4 & s5 & s6 & s7 & Hvpc & Hsg & Hsec & Hiam & Hlog & Hag & Hgw & Hout).
  assert (inv s) as (Hord & _ & _ & _ & _ & _ & _ & Houts).
  { eapply addOutputs_inv; [eassumption|].
    eapply createGateway_inv; [eassumption|].
    eapply createAgents_inv; [eassumption..|].
    eapply createLogGroup_inv; [eassumption|].
    eapply createIAMRole_inv; [eassumption|].
    eapply createSecrets_inv; [eassumption|].
    eapply createSecurityGroup_inv; [eassumption|].
    eapply createVPC_inv; [eassumption|].
    unfold inv, known, newStack; simpl.
    repeat split; try discriminate. intros o id Ho. by apply elem_of_nil in Ho. }
  split; [done|]. unfold outputsResolve.
  apply forallb_elem. intros o Ho. apply forallb_elem. intros id Hid.
  apply bool_decide_eq_true_2. by apply (Houts o id).
Qed.

Lemma twoSubnets_of_vpc : subnetsOfVpc twoSubnets.
Proof.
  intros vpc subnets t id [= <-] Ht Hid.
  apply elem_of_cons in Ht as [->|Ht];
    [|apply list_elem_of_singleton in Ht as ->];
    by apply list_elem_of_singleton in Hid.
Qed.

(** The stack [team], whose subnets are those of its VPC. *)
Lemma references_resolve_witness :
  subnetsOfVpc twoSubnets ∧
  ∃ s, stackOf team = Ok s ∧
       createdInOrder [] (Resources s) = true ∧ outputsResolve s = true.
Proof.
  split; [apply twoSubnets_of_vpc|].
  destruct team_built as [s E]. exists s. split; [exact E|].
  exact (references_resolve _ _ _ _ _ s twoSubnets_of_vpc E).
Defined.

End LayoutFacts.

(** ** The constructs of each step *)

Module ConstructFacts.

Import iac AgentCore Graph Samples Layout AgentCoreFacts BuilderFacts LayoutFacts.

(** *** What each step leaves alone *)

Lemma createVPC_frame s s' u :
  createVPC s = Ok (u, s') →
  fieldsOf s' = (VPC s', SecurityGroup s, Secret s, ExecutionRole s, LogGroup s, Gateway s) ∧
  Agents s' = Agents s.
Proof.
  unfold createVPC, createVPCEndpoints. intros H. run; unfold fieldsOf; fields; split; reflexivity.
Qed.

Lemma createSecurityGroup_frame s s' u :
  createSecurityGroup s = Ok (u, s') →
  fieldsOf s' = (VPC s, SecurityGroup s', Secret s, ExecutionRole s, LogGroup s, Gateway s) ∧
  Agents s' = Agents s.
Proof.
  unfold createSecurityGroup. intros H. run; unfold fieldsOf; fields; split; reflexivity.
Qed.

Lemma createSecrets_frame order s s' u :
  createSecrets order s = Ok (u, s') →
  fieldsOf s' = (VPC s, SecurityGroup s, Secret s', ExecutionRole s, LogGroup s, Gateway s) ∧
  Agents s' = Agents s.
Proof.
  unfold createSecrets. intros H. run; unfold fieldsOf; fields; split; reflexivity.
Qed.

Lemma createIAMRole_frame s s' u :
  createIAMRole s = Ok (u, s') →
  fieldsOf s' = (VPC s, SecurityGroup s, Secret s, ExecutionRole s', LogGroup s, Gateway s) ∧
  Agents s' = Agents s.
Proof.
  unfold createIAMRole. intros H. run; unfold fieldsOf; fields; split; reflexivity.
Qed.

Lemma createIAMRole_role s s' u :
  createIAMRole s = Ok (u, s') → is_Some (ExecutionRole s').
Proof. unfold createIAMRole. intros H. run; fields; by eexists. Qed.

Lemma createLogGroup_frame s s' u :
  createLogGroup s = Ok (u, s') →
  fieldsOf s' = (VPC s, SecurityGroup s, Secret s, ExecutionRole s, LogGroup s', Gateway s) ∧
  Agents s' = Agents s.
Proof.
  unfold createLogGroup. intros H. run; unfold fieldsOf; fields; split; reflexivity.
Qed.

Lemma createGateway_frame order s s' u :
  createGateway order s = Ok (u, s') →
  fieldsOf s' = (VPC s, SecurityGroup s, Secret s, ExecutionRole s, LogGroup s, Gateway s') ∧
  Agents s' = Agents s.
Proof.
  unfold createGateway, getStackTags. intros H. run; unfold fieldsOf; fields; split; reflexivity.
Qed.

Lemma addOutputs_frame s s' u :
  addOutputs s = Ok (u, s') → fieldsOf s' = fieldsOf s ∧ Agents s' = Agents s.
Proof.
  unfold addOutputs. intros H. run; unfold fieldsOf; fields; split; reflexivity.
Qed.

Section Agents.

Variable order : RangeOrder.
Variable PS : ResourceNode → option (list Token).

Lemma runtimeOf_ext s s' role a :
  Config s' = Config s → VPC s' = VPC s → SecurityGroup s' = SecurityGroup s →
  agentConstructs PS s' role a = agentConstructs PS s role a.
Proof.
  unfold agentConstructs, runtimeOf, endpointOf, getSecurityGroupIds, getPrivateSubnetIds.
  by intros -> -> ->.
Qed.

Lemma createAgent_frame a s s' u :
  createAgent order PS a s = Ok (u, s') →
  Outputs s' = Outputs s ++ agentOutputsOf a ∧
  Config s' = Config s ∧ fieldsOf s' = fieldsOf s ∧
  Agents s' = <[Name a := {| Construct := scopeOf a; ac_Name := Name a; ac_Config := a |}]>
                (Agents s).
Proof.
  unfold createAgent, createAgentRuntime, createRuntimeEndpoint, addAgentOutputs, getTags.
  intros H. run. fields_all. rewrite ?lookup_insert_eq in *. simplify_eq.
  unfold fieldsOf. fields. rewrite <- !app_assoc. repeat split.
Qed.

Lemma createAgents_frame agents s s' u :
  createAgents order PS agents s = Ok (u, s') →
  Outputs s' = Outputs s ++ flat_map agentOutputsOf agents ∧
  Config s' = Config s ∧ fieldsOf s' = fieldsOf s ∧
  dom (Agents s') = dom (Agents s) ∪ list_to_set (Name <$> agents).
Proof.
  revert s u. induction agents as [|a agents IH]; intros s u H; simpl in H.
  - run. simpl. rewrite !app_nil_r. repeat split. by rewrite (right_id_L ∅ (∪)).
  - run.
    match goal with
    | H1 : createAgent _ _ _ _ = Ok _ |- _ =>
        apply createAgent_frame in H1 as (Ho1 & Hc1 & Hf1 & Ha1)
    end.
    apply IH in H as (Ho & Hc & Hf & Ha).
    split; [|split; [congruence|split; [congruence|]]].
    + rewrite Ho, Ho1. cbn [flat_map]. by rewrite <- app_assoc.
    + rewrite Ha, Ha1, dom_insert_L, fmap_cons. cbn [list_to_set].
      rewrite (comm_L (∪) {[Name a]} (dom (Agents s))). by rewrite (assoc_L (∪)).
Qed.

Hypothesis Hv : validOrder order.

Lemma createAgent_nodes a s s' u role :
  createAgent order PS a s = Ok (u, s') →
  ExecutionRole s = Some role →
  Resources s' = Resources s ++ agentConstructs PS s role a.
Proof.
  unfold createAgent, createAgentRuntime, createRuntimeEndpoint, addAgentOutputs, getTags.
  intros H Hrole. run. fields_all. rewrite ?lookup_insert_eq in *. simplify_eq.
  rewrite !(foldl_range_valid _ _ _ _ Hv), !(right_id_L ∅ (∪)).
  fields. rewrite <- !app_assoc.
  unfold agentConstructs, runtimeOf, endpointOf, scopeOf, getSecurityGroupIds,
    getPrivateSubnetIds, resolvedEnvironment, agentTags. fields.
  by destruct (IsDefault a), (Observability (Config s)).
Qed.

Lemma createAgents_nodes agents s s' u role :
  createAgents order PS agents s = Ok (u, s') →
  ExecutionRole s = Some role →
  Resources s' = Resources s ++ flat_map (agentConstructs PS s role) agents.
Proof.
  revert s u. induction agents as [|a agents IH]; intros s u H Hrole; simpl in H.
  - run. simpl. by rewrite !app_nil_r.
  - run.
    match goal with
    | H1 : createAgent _ _ _ _ = Ok _ |- _ =>
        pose proof (createAgent_frame _ _ _ _ H1) as (_ & Hc1 & Hf1 & _);
        apply (createAgent_nodes _ _ _ _ role) in H1 as Hr1; [|done]
    end.
    unfold fieldsOf in Hf1.
    repeat match goal with
    | H : (_, _) = (_, _) |- _ => apply pair_equal_spec in H as [H ?]
    end.
    apply (IH _ _) in H as Hr; [|congruence].
    rewrite Hr, Hr1. cbn [flat_map]. rewrite <- app_assoc. do 2 f_equal.
    apply flat_map_ext. intros b. apply runtimeOf_ext; congruence.
Qed.

End Agents.

(** The states [build] goes through, with the fields of each in terms of
    those of the stack returned. *)
Lemma build_anatomy order PS AD V config s :
  NewAgentCoreStack order PS AD V config = Ok s →
  ∃ s0 s1 s2 s3 s4 s5 s6 s7 role,
    createVPC s0 = Ok ((), s1) ∧
    createSecurityGroup s1 = Ok ((), s2) ∧
    createSecrets order s2 = Ok ((), s3) ∧
    createIAMRole s3 = Ok ((), s4) ∧
    createLogGroup s4 = Ok ((), s5) ∧
    createAgents order PS (iac.Agents (AD config)) s5 = Ok ((), s6) ∧
    createGateway order s6 = Ok ((), s7) ∧
    addOutputs s7 = Ok ((), s) ∧
    Resources s0 = [] ∧ Outputs s0 = [] ∧
    Config s0 = AD config ∧ Config s1 = AD config ∧ Config s2 = AD config ∧
    Config s3 = AD config ∧ Config s4 = AD config ∧ Config s5 = AD config ∧
    Config s6 = AD config ∧ Config s7 = AD config ∧ Config s = AD config ∧
    fieldsOf s0 = (None, None, None, None, None, None) ∧
    fieldsOf s1 = (VPC s, None, None, None, None, None) ∧
    fieldsOf s2 = (VPC s, SecurityGroup s, None, None, None, None) ∧
    fieldsOf s3 = (VPC s, SecurityGroup s, Secret s, None, None, None) ∧
    fieldsOf s4 = (VPC s, SecurityGroup s, Secret s, Some role, None, None) ∧
    fieldsOf s5 = (VPC s, SecurityGroup s, Secret s, Some role, LogGroup s, None) ∧
    fieldsOf s6 = (VPC s, SecurityGroup s, Secret s, Some role, LogGroup s, None) ∧
    fieldsOf s7 = fieldsOf s ∧ ExecutionRole s = Some role ∧
    Outputs s7 = flat_map agentOutputsOf (iac.Agents (AD config)) ∧
    Resources s = Resources s7 ∧
    dom (Agents s7) = list_to_set (Name <$> iac.Agents (AD config)).
Proof.
  intros H.
  apply NewAgentCoreStack_Ok in H as (_ & tags & n & H).
  apply build_Ok in H
    as (s1 & s2 & s3 & s4 & s5 & s6 & s7 & Hvpc & Hsg & Hsec & Hiam & Hlog & Hag & Hgw & Hout).
  pose proof (createVPC_adds _ _ _ Hvpc) as [[Cvpc _] [Ovpc _]].
  pose proof (createSecurityGroup_adds _ _ _ Hsg) as [[Csg _] [Osg _]].
  pose proof (createSecrets_adds _ _ _ _ Hsec) as [[Csec _] [Osec _]].
  pose proof (createIAMRole_adds _ _ _ Hiam) as [[Ciam _] [Oiam _]].
  pose proof (createLogGroup_adds _ _ _ Hlog) as [[Clog _] [Olog _]].
  pose proof (createGateway_adds _ _ _ _ Hgw) as [[Cgw _] Ogw].
  pose proof (addOutputs_Ok _ _ _ Hout) as (Rout & Cout & _ & _).
  pose proof (createVPC_frame _ _ _ Hvpc) as [Fvpc Avpc].
  pose proof (createSecurityGroup_frame _ _ _ Hsg) as [Fsg Asg].
  pose proof (createSecrets_frame _ _ _ _ Hsec) as [Fsec Asec].
  pose proof (createIAMRole_frame _ _ _ Hiam) as [Fiam Aiam].
  pose proof (createLogGroup_frame _ _ _ Hlog) as [Flog Alog].
  pose proof (createGateway_frame _ _ _ _ Hgw) as [Fgw Agw].
  pose proof (addOutputs_frame _ _ _ Hout) as [Fout Aout].
  destruct (createIAMRole_role _ _ _ Hiam) as [role Hrole].
  pose proof (createAgents_frame order PS _ _ _ _ Hag) as (Oag & Cag & Fag & Aag).
  unfold fieldsOf in *. cbn [newStack VPC SecurityGroup Secret ExecutionRole LogGroup Gateway]
    in Fvpc.
  assert (Config (newStack (AD config) tags n) = AD config) as C0 by reflexivity.
  exists (newStack (AD config) tags n), s1, s2, s3, s4, s5, s6, s7, role.
  repeat match goal with
  | H : (_, _) = (_, _) |- _ => apply pair_equal_spec in H as [H ?]
  end.
  assert (dom (Agents s7) = list_to_set (Name <$> iac.Agents (AD config))) as Hdom.
  { rewrite Agw, Aag, Alog, Aiam, Asec, Asg, Avpc. cbn [newStack Agents].
    by rewrite dom_empty_L, (left_id_L ∅ (∪)). }
  assert (Outputs s7 = flat_map agentOutputsOf (iac.Agents (AD config))) as Houts.
  { rewrite Ogw, Oag, Olog, Oiam, Osec, Osg, Ovpc. reflexivity. }
  unfold fieldsOf.
  repeat match goal with |- _ ∧ _ => split end;
    try assumption; try reflexivity; try congruence.
Qed.

(** Brings the anatomy of a build into the context. *)
Ltac anatomy H :=
  apply build_anatomy in H
    as (s0 & s1 & s2 & s3 & s4 & s5 & s6 & s7 & role
        & Hvpc & Hsg & Hsec & Hiam & Hlog & Hag & Hgw & Hout
        & Hr0 & Ho0 & Hc0 & Hc1 & Hc2 & Hc3 & Hc4 & Hc5 & Hc6 & Hc7 & Hc
        & Hf0 & Hf1 & Hf2 & Hf3 & Hf4 & Hf5 & Hf6 & Hf7 & Hrole & Ho7 & Hres & Hdom);
  pose proof (createVPC_adds _ _ _ Hvpc) as [Avpc _];
  pose proof (createSecurityGroup_adds _ _ _ Hsg) as [Asg _];
  pose proof (createSecrets_adds _ _ _ _ Hsec) as [Asec _];
  pose proof (createIAMRole_adds _ _ _ Hiam) as [Aiam _];
  pose proof (createLogGroup_adds _ _ _ Hlog) as [Alog _];
  pose proof (createAgents_adds _ _ _ _ _ _ Hag) as Aag;
  pose proof (createGateway_adds _ _ _ _ Hgw) as [Agw _];
  unfold fieldsOf in Hf0, Hf1, Hf2, Hf3, Hf4, Hf5, Hf6, Hf7;
  repeat match goal with
  | H : (_, _) = (_, _) |- _ => apply pair_equal_spec in H as [H ?]
  end.

(** *** The network *)

Lemma createVPC_what s s' u vpcConfig :
  createVPC s = Ok (u, s') →
  iac.VPC (Config s) = Some vpcConfig →
  if negb (String.eqb (VPCID vpcConfig) "") then
    Resources s' = Resources s
                   ++ [ {| logicalId := "VPC"; properties := VpcLookup (VPCID vpcConfig) |} ] ∧
    VPC s' = Some {| logicalId := "VPC"; properties := VpcLookup (VPCID vpcConfig) |}
  else if CreateVPC vpcConfig then
    Resources s' = Resources s ++ [newVpc (Config s) vpcConfig]
                   ++ (if EnableVPCEndpoints vpcConfig then vpcEndpoints "VPC" else []) ∧
    VPC s' = Some (newVpc (Config s) vpcConfig)
  else Resources s' = Resources s ∧ VPC s' = VPC s.
Proof.
  unfold createVPC, createVPCEndpoints. intros H Hcfg.
  run; fields_all; simplify_eq;
    repeat match goal with
    | E : ?b = _ |- context [if ?b then _ else _] => rewrite E
    end; fields; rewrite <- ?app_assoc; by rewrite ?app_nil_r.
Qed.

Lemma VPCID_given vpcConfig : VPCID vpcConfig ≠ "" → negb (String.eqb (VPCID vpcConfig) "") = true.
Proof. intros H. by destruct (String.eqb_spec (VPCID vpcConfig) ""). Qed.

(** A VPC named by its id is imported: no VPC is created and no endpoint
    is added, whatever [CreateVPC] and [EnableVPCEndpoints] say. *)
Theorem existing_VPC_is_imported order PS AD V config s vpcConfig :
  NewAgentCoreStack order PS AD V config = Ok s →
  iac.VPC (AD config) = Some vpcConfig →
  VPCID vpcConfig ≠ "" →
  VPC s = Some {| logicalId := "VPC"; properties := VpcLookup (VPCID vpcConfig) |} ∧
  nodesOfKind KNetwork s
  = [ {| logicalId := "VPC"; properties := VpcLookup (VPCID vpcConfig) |} ] ∧
  nodesOfKind KNetworkEndpoint s = [].
Proof.
  intros H Hcfg Hid. anatomy H.
  rewrite <- Hc0 in Hcfg. pose proof (createVPC_what _ _ _ _ Hvpc Hcfg) as Hw.
  rewrite (VPCID_given _ Hid), Hr0 in Hw. destruct Hw as [Hr1 Hv1].
  split; [congruence|]. split.
  - only_step KNetwork. unfold nodesOfKind. by rewrite Hr1.
  - only_step KNetworkEndpoint. unfold nodesOfKind. by rewrite Hr1.
Qed.

(** The VPC the stack creates when no VPC is named, and the seven
    endpoints it gets when endpoints are asked for. *)
Theorem created_VPC_and_endpoints order PS AD V config s vpcConfig :
  NewAgentCoreStack order PS AD V config = Ok s →
  iac.VPC (AD config) = Some vpcConfig →
  VPCID vpcConfig = "" →
  CreateVPC vpcConfig = true →
  VPC s = Some (newVpc (AD config) vpcConfig) ∧
  nodesOfKind KNetwork s = [newVpc (AD config) vpcConfig] ∧
  nodesOfKind KNetworkEndpoint s
  = if EnableVPCEndpoints vpcConfig then vpcEndpoints "VPC" else [].
Proof.
  intros H Hcfg Hid Hcreate. anatomy H.
  rewrite <- Hc0 in Hcfg. pose proof (createVPC_what _ _ _ _ Hvpc Hcfg) as Hw.
  rewrite Hid, Hcreate, Hr0, Hc0 in Hw. cbn [String.eqb negb app] in Hw.
  destruct Hw as [Hr1 Hv1].
  split; [congruence|]. split.
  - only_step KNetwork. unfold nodesOfKind. rewrite Hr1.
    by destruct (EnableVPCEndpoints vpcConfig).
  - only_step KNetworkEndpoint. unfold nodesOfKind. rewrite Hr1.
    by destruct (EnableVPCEndpoints vpcConfig).
Qed.

(** *** The agents *)

Lemma filter_agentConstructs PS s role agents :
  filter (λ n, kind n = KAgentScope) (flat_map (agentConstructs PS s role) agents)
  = scopeOf <$> agents ∧
  filter (λ n, kind n = KRuntime) (flat_map (agentConstructs PS s role) agents)
  = runtimeOf PS s role <$> agents ∧
  filter (λ n, kind n = KEndpoint) (flat_map (agentConstructs PS s role) agents)
  = endpointOf s <$> agents.
Proof.
  induction agents as [|a agents (IH1 & IH2 & IH3)]; [done|].
  cbn [flat_map]. rewrite !filter_app, IH1, IH2, IH3. done.
Qed.

Lemma build_agents order PS AD V config s :
  validOrder order →
  NewAgentCoreStack order PS AD V config = Ok s →
  ∃ role,
    ExecutionRole s = Some role ∧ Config s = AD config ∧
    nodesOfKind KAgentScope s = scopeOf <$> iac.Agents (AD config) ∧
    nodesOfKind KRuntime s = runtimeOf PS s role <$> iac.Agents (AD config) ∧
    nodesOfKind KEndpoint s = endpointOf s <$> iac.Agents (AD config).
Proof.
  intros Hv H. anatomy H. exists role. split; [done|]. split; [done|].
  assert (ExecutionRole s5 = Some role) as Hrole5 by assumption.
  pose proof (createAgents_nodes order PS Hv _ _ _ _ role Hag Hrole5) as Rag.
  assert (flat_map (agentConstructs PS s5 role) (iac.Agents (AD config))
          = flat_map (agentConstructs PS s role) (iac.Agents (AD config))) as Hext.
  { apply flat_map_ext. intros a. symmetry. apply runtimeOf_ext; congruence. }
  rewrite Hext in Rag.
  destruct (filter_agentConstructs PS s role (iac.Agents (AD config))) as (F1 & F2 & F3).
  assert (∀ k, k ∈ [KAgentScope; KRuntime; KEndpoint] → nodesOfKind k s5 = []) as Hnil.
  { intros k Hk.
    repeat (apply elem_of_cons in Hk as [->|Hk]);
      try (by apply elem_of_nil in Hk);
      match goal with
      | |- nodesOfKind ?k _ = _ => only_step k; by apply nodesOfKind_nil
      end. }
  split; [|split].
  - only_step KAgentScope. unfold nodesOfKind at 1. rewrite Rag, filter_app, F1.
    fold (nodesOfKind KAgentScope s5). rewrite Hnil; [done|]. apply list_elem_of_here.
  - only_step KRuntime. unfold nodesOfKind at 1. rewrite Rag, filter_app, F2.
    fold (nodesOfKind KRuntime s5). rewrite Hnil; [done|].
    apply list_elem_of_further, list_elem_of_here.
  - only_step KEndpoint. unfold nodesOfKind at 1. rewrite Rag, filter_app, F3.
    fold (nodesOfKind KEndpoint s5). rewrite Hnil; [done|].
    do 2 apply list_elem_of_further. apply list_elem_of_here.
Qed.

(** The constructs of the agents: one scope, one Runtime and one Endpoint
    for each agent of the configuration, in the order of the agents, with
    the properties [createAgent] gives them. *)
Theorem agent_constructs order PS AD V config s :
  validOrder order →
  NewAgentCoreStack order PS AD V config = Ok s →
  ∃ role,
    ExecutionRole s = Some role ∧ Config s = AD config ∧
    nodesOfKind KAgentScope s = scopeOf <$> iac.Agents (AD config) ∧
    nodesOfKind KRuntime s = runtimeOf PS s role <$> iac.Agents (AD config) ∧
    nodesOfKind KEndpoint s = endpointOf s <$> iac.Agents (AD config).
Proof. apply build_agents. Qed.

End ConstructFacts.

(** ** The stack as a whole *)

Module StackFacts.

Import iac AgentCore Graph Samples Layout AgentCoreFacts BuilderFacts LayoutFacts
  ConstructFacts.

Lemma createSecurityGroup_what s s' u vpcConfig :
  createSecurityGroup s = Ok (u, s') →
  iac.VPC (Config s) = Some vpcConfig →
  Resources s' = Resources s ++ [securityGroupOf (Config s) (VPC s) vpcConfig] ∧
  SecurityGroup s' = Some (securityGroupOf (Config s) (VPC s) vpcConfig).
Proof.
  unfold createSecurityGroup, securityGroupOf. intros H Hcfg.
  run; fields_all; simplify_eq;
    repeat match goal with
    | E : ?b = _ |- context [match ?b with _ => _ end] => rewrite E
    end; fields; split; reflexivity.
Qed.

Lemma createSecrets_what order s s' u :
  createSecrets order s = Ok (u, s') →
  Secret s = None →
  Resources s' = Resources s ++ option_list (secretOf (Config s)) ∧
  Secret s' = secretOf (Config s).
Proof.
  unfold createSecrets, secretOf. intros H Hnone.
  run; fields_all; simplify_eq;
    repeat match goal with
    | E : ?b = _ |- context [match ?b with _ => _ end] => rewrite E
    | E : ?b = _ |- context [if ?b then _ else _] => rewrite E
    end; fields; rewrite ?app_nil_r; split; first [reflexivity | assumption].
Qed.

Lemma createLogGroup_what s s' u :
  createLogGroup s = Ok (u, s') →
  LogGroup s = None →
  Resources s' = Resources s ++ option_list (logGroupOf (Config s)) ∧
  LogGroup s' = logGroupOf (Config s).
Proof.
  unfold createLogGroup, logGroupOf. intros H Hnone.
  run; fields_all; simplify_eq;
    repeat match goal with
    | E : ?b = _ |- context [match ?b with _ => _ end] => rewrite E
    end;
    try match goal with
    | E : negb ?b = _ |- _ => destruct b; try discriminate E
    end; fields; rewrite ?app_nil_r; split; first [reflexivity | assumption].
Qed.

Lemma createIAMRole_what s s' u iamConfig :
  createIAMRole s = Ok (u, s') →
  IAM (Config s) = Some iamConfig →
  Resources s' = Resources s ++ [roleOf s iamConfig] ++ roleImports (Config s) iamConfig ∧
  ExecutionRole s' = Some (roleOf s iamConfig).
Proof.
  unfold createIAMRole, roleOf, roleImports. intros H Hcfg.
  run; fields_all; simplify_eq;
    repeat match goal with
    | E : ?b = _ |- context [if ?b then _ else _] => rewrite E
    end; fields; rewrite <- ?app_assoc, ?app_nil_r; split; reflexivity.
Qed.

Lemma createGateway_what order s s' u role :
  validOrder order →
  createGateway order s = Ok (u, s') →
  ExecutionRole s = Some role →
  Gateway s = None →
  Resources s' = Resources s ++ option_list (gatewayOf (Config s) role) ∧
  Gateway s' = gatewayOf (Config s) role.
Proof.
  unfold createGateway, getStackTags, gatewayOf. intros Hv H Hrole Hnone.
  run; fields_all; simplify_eq;
    repeat match goal with
    | E : ?b = _ |- context [match ?b with _ => _ end] => rewrite E
    end;
    try match goal with
    | E : negb ?b = _ |- _ => destruct b; try discriminate E
    end; fields; rewrite ?app_nil_r;
    rewrite ?(foldl_range_valid _ _ _ _ Hv), ?(right_id_L ∅ (∪));
    split; first [reflexivity | assumption].
Qed.

Lemma addOutputs_what s s' u :
  addOutputs s = Ok (u, s') → Outputs s' = Outputs s ++ stackOutputs s.
Proof.
  unfold addOutputs, stackOutputs. intros H.
  run; fields_all; simplify_eq; fields; rewrite <- ?app_assoc; reflexivity.
Qed.

Lemma roleOf_ext s s' iamConfig :
  Config s' = Config s → Secret s' = Secret s → roleOf s' iamConfig = roleOf s iamConfig.
Proof. unfold roleOf, newRole. by intros -> ->. Qed.

(** *** The whole stack *)

Lemma createVPC_network s s' u vpcConfig :
  createVPC s = Ok (u, s') →
  iac.VPC (Config s) = Some vpcConfig →
  VPC s = None →
  Resources s' = Resources s ++ networkOf (Config s) vpcConfig ∧
  VPC s' = head (networkOf (Config s) vpcConfig).
Proof.
  intros H Hcfg Hnone. pose proof (createVPC_what _ _ _ _ H Hcfg) as Hw.
  unfold networkOf. destruct (negb _); [done|].
  destruct (CreateVPC vpcConfig); [done|].
  destruct Hw as [-> ->]. by rewrite app_nil_r.
Qed.

Lemma stackOutputs_ext s s' :
  fieldsOf s' = fieldsOf s → Agents s' = Agents s → stackOutputs s' = stackOutputs s.
Proof. unfold fieldsOf, stackOutputs. by intros [= -> -> _ -> -> ->] ->. Qed.

Lemma build_layout order PS AD V config s :
  validOrder order →
  NewAgentCoreStack order PS AD V config = Ok s →
  ∃ vpcConfig iamConfig,
    iac.VPC (AD config) = Some vpcConfig ∧ IAM (AD config) = Some iamConfig ∧
    Config s = AD config ∧
    Resources s = layoutOf PS (AD config) vpcConfig iamConfig s ∧
    VPC s = head (networkOf (AD config) vpcConfig) ∧
    SecurityGroup s = Some (securityGroupOf (AD config) (VPC s) vpcConfig) ∧
    Secret s = secretOf (AD config) ∧
    ExecutionRole s = Some (roleOf s iamConfig) ∧
    LogGroup s = logGroupOf (AD config) ∧
    Gateway s = gatewayOf (AD config) (roleOf s iamConfig) ∧
    Outputs s = flat_map agentOutputsOf (iac.Agents (AD config)) ++ stackOutputs s ∧
    dom (Agents s) = list_to_set (Name <$> iac.Agents (AD config)).
Proof.
  intros Hv H.
  destruct (NewAgentCoreStack_configs _ _ _ _ _ _ H) as ([vpcConfig Hvc] & [iamConfig Hic]).
  exists vpcConfig, iamConfig. split; [done|]. split; [done|].
  anatomy H. split; [done|].
  pose proof (addOutputs_frame _ _ _ Hout) as [Fout Aout].
  pose proof (addOutputs_what _ _ _ Hout) as Wout.
  rewrite <- (stackOutputs_ext _ _ Fout Aout) in Wout. clear Fout.
  assert (iac.VPC (Config s0) = Some vpcConfig) as Hvc0 by congruence.
  assert (iac.VPC (Config s1) = Some vpcConfig) as Hvc1 by congruence.
  assert (IAM (Config s3) = Some iamConfig) as Hic3 by congruence.
  assert (VPC s0 = None) as Hn0 by assumption.
  assert (Secret s2 = None) as Hn2 by assumption.
  assert (LogGroup s4 = None) as Hn4 by assumption.
  assert (Gateway s6 = None) as Hn6 by assumption.
  assert (ExecutionRole s5 = Some role) as Hrole5 by assumption.
  assert (ExecutionRole s6 = Some role) as Hrole6 by assumption.
  destruct (createVPC_network _ _ _ _ Hvpc Hvc0 Hn0) as [R1 F1].
  destruct (createSecurityGroup_what _ _ _ _ Hsg Hvc1) as [R2 F2].
  destruct (createSecrets_what _ _ _ _ Hsec Hn2) as [R3 F3].
  destruct (createIAMRole_what _ _ _ _ Hiam Hic3) as [R4 F4].
  destruct (createLogGroup_what _ _ _ Hlog Hn4) as [R5 F5].
  pose proof (createAgents_nodes order PS Hv _ _ _ _ role Hag Hrole5) as R6.
  destruct (createGateway_what _ _ _ _ role Hv Hgw Hrole6 Hn6) as [R7 F7].
  assert (roleOf s3 iamConfig = roleOf s iamConfig) as Er
    by (apply roleOf_ext; congruence).
  assert (role = roleOf s iamConfig) as -> by congruence.
  assert (flat_map (agentConstructs PS s5 (roleOf s iamConfig)) (iac.Agents (AD config))
          = flat_map (agentConstructs PS s (roleOf s iamConfig)) (iac.Agents (AD config)))
    as Hext.
  { apply flat_map_ext. intros a. symmetry. apply runtimeOf_ext; congruence. }
  split.
  { unfold layoutOf. rewrite Hres, R7, R6, R5, R4, R3, R2, R1, Hr0, Hext, Er.
    rewrite Hc0, Hc1, Hc2, Hc3, Hc4, Hc6.
    replace (VPC s1) with (VPC s) by congruence.
    cbn [app]. by rewrite <- !app_assoc. }
  repeat match goal with |- _ ∧ _ => split end; congruence.
Qed.

(** The constructs of a stack that [NewAgentCoreStack] returns, in the
    order of creation: the network, the security group, the secret, the
    role and what it imports, the log group, three constructs for each
    agent, the gateway; and the constructs the stack holds in its fields. *)
Theorem stack_layout order PS AD V config s :
  validOrder order →
  NewAgentCoreStack order PS AD V config = Ok s →
  ∃ vpcConfig iamConfig,
    iac.VPC (AD config) = Some vpcConfig ∧ IAM (AD config) = Some iamConfig ∧
    Resources s = layoutOf PS (AD config) vpcConfig iamConfig s ∧
    VPC s = head (networkOf (AD config) vpcConfig) ∧
    SecurityGroup s = Some (securityGroupOf (AD config) (VPC s) vpcConfig) ∧
    Secret s = secretOf (AD config) ∧
    ExecutionRole s = Some (roleOf s iamConfig) ∧
    LogGroup s = logGroupOf (AD config) ∧
    Gateway s = gatewayOf (AD config) (roleOf s iamConfig).
Proof.
  intros Hv H.
  destruct (build_layout _ _ _ _ _ _ Hv H)
    as (vpcConfig & iamConfig & ? & ? & ? & ? & ? & ? & ? & ? & ? & ? & ? & ?).
  exists vpcConfig, iamConfig. repeat split; assumption.
Qed.

(** *** The outputs *)

(** The outputs of the stack: four for each agent, in the order of the
    agents, then those of the stack; with agents of distinct names the
    agent count is the number of agents. *)
Theorem stack_outputs order PS AD V config s :
  NewAgentCoreStack order PS AD V config = Ok s →
  NoDup (Name <$> iac.Agents (AD config)) →
  Outputs s = flat_map agentOutputsOf (iac.Agents (AD config)) ++ stackOutputs s ∧
  size (Agents s) = length (iac.Agents (AD config)).
Proof.
  intros H Hnd. anatomy H.
  pose proof (addOutputs_frame _ _ _ Hout) as [Fout Aout].
  pose proof (addOutputs_what _ _ _ Hout) as Wout.
  rewrite <- (stackOutputs_ext _ _ Fout Aout) in Wout.
  split; [congruence|].
  rewrite Aout, <- size_dom, Hdom, size_list_to_set by done. by rewrite length_fmap.
Qed.

(** *** The role *)

Lemma filter_kind_none k (K : list Kind) (l : list ResourceNode) :
  Forall (λ n, kind n ∈ K) l → k ∉ K → filter (λ n, kind n = k) l = [].
Proof.
  intros Hl Hk. induction Hl as [|n l Hn _ IH]; [done|].
  rewrite filter_cons_False; [done|]. intros Hn'. apply Hk. by rewrite <- Hn'.
Qed.

Lemma filter_kind_all k (l : list ResourceNode) :
  Forall (λ n, kind n = k) l → filter (λ n, kind n = k) l = l.
Proof.
  intros Hl. induction Hl as [|n l Hn _ IH]; [done|].
  rewrite filter_cons_True; [|done]. by rewrite IH.
Qed.

Lemma RoleARN_given iamConfig :
  RoleARN iamConfig ≠ "" → negb (String.eqb (RoleARN iamConfig) "") = true.
Proof. intros H. by destruct (String.eqb_spec (RoleARN iamConfig) ""). Qed.

(** The role and the constructs [createIAMRole] adds, in a built stack. *)
Lemma build_role order PS AD V config s iamConfig :
  NewAgentCoreStack order PS AD V config = Ok s →
  IAM (AD config) = Some iamConfig →
  ExecutionRole s = Some (roleOf s iamConfig) ∧
  nodesOfKind KIdentity s = [roleOf s iamConfig] ∧
  nodesOfKind KSecretReference s
  = filter (λ n, kind n = KSecretReference) (roleImports (AD config) iamConfig) ∧
  nodesOfKind KPolicyReference s
  = filter (λ n, kind n = KPolicyReference) (roleImports (AD config) iamConfig).
Proof.
  intros H Hic. anatomy H.
  assert (IAM (Config s3) = Some iamConfig) as Hic3 by congruence.
  destruct (createIAMRole_what _ _ _ _ Hiam Hic3) as [R4 F4].
  assert (roleOf s3 iamConfig = roleOf s iamConfig) as Er
    by (apply roleOf_ext; congruence).
  rewrite Er, Hc3 in R4. rewrite Er in F4.
  assert (kind (roleOf s iamConfig) = KIdentity) as Hk.
  { unfold roleOf. by destruct (negb _). }
  assert (Forall (λ n, kind n ∈ [KSecretReference; KPolicyReference])
            (roleImports (AD config) iamConfig)) as Hi.
  { unfold roleImports. destruct (negb (String.eqb (RoleARN iamConfig) "")); [constructor|].
    apply Forall_app. split.
    { eapply Forall_impl; [apply agentSecrets_kind|]. intros n ->. apply list_elem_of_here. }
    apply Forall_app. split.
    { eapply Forall_impl; [apply additionalPolicies_kind|]. intros n ->.
      apply list_elem_of_further, list_elem_of_here. }
    destruct (negb _); repeat constructor. }
  assert (∀ k, filter (λ n, kind n = k) [roleOf s iamConfig]
               = if decide (KIdentity = k) then [roleOf s iamConfig] else []) as Hfr.
  { intros k. rewrite filter_cons, filter_nil, Hk. reflexivity. }
  split; [congruence|]. split; [|split].
  - only_step KIdentity. unfold nodesOfKind at 1. rewrite R4, !filter_app, Hfr.
    fold (nodesOfKind KIdentity s3). only_step KIdentity.
    rewrite (nodesOfKind_nil _ _ Hr0). cbn [app]. rewrite decide_True by done.
    cbn [app]. f_equal. apply (filter_kind_none _ _ _ Hi). decide_it.
  - only_step KSecretReference. unfold nodesOfKind at 1. rewrite R4, !filter_app, Hfr.
    fold (nodesOfKind KSecretReference s3). only_step KSecretReference.
    rewrite (nodesOfKind_nil _ _ Hr0). cbn [app]. by rewrite decide_False by done.
  - only_step KPolicyReference. unfold nodesOfKind at 1. rewrite R4, !filter_app, Hfr.
    fold (nodesOfKind KPolicyReference s3). only_step KPolicyReference.
    rewrite (nodesOfKind_nil _ _ Hr0). cbn [app]. by rewrite decide_False by done.
Qed.

(** The gateway of a built stack. *)
Lemma build_gateway order PS AD V config s :
  validOrder order →
  NewAgentCoreStack order PS AD V config = Ok s →
  ∃ role,
    ExecutionRole s = Some role ∧
    Gateway s = gatewayOf (AD config) role ∧
    nodesOfKind KGateway s = option_list (gatewayOf (AD config) role).
Proof.
  intros Hv H. anatomy H. exists role.
  assert (ExecutionRole s6 = Some role) as Hrole6 by assumption.
  assert (Gateway s6 = None) as Hn6 by assumption.
  destruct (createGateway_what _ _ _ _ role Hv Hgw Hrole6 Hn6) as [R7 F7].
  rewrite Hc6 in R7, F7.
  split; [done|]. split; [congruence|].
  rewrite (nodesOfKind_same _ _ _ Hres). unfold nodesOfKind at 1. rewrite R7, filter_app.
  fold (nodesOfKind KGateway s6). only_step KGateway.
  rewrite (nodesOfKind_nil _ _ Hr0). cbn [app].
  unfold gatewayOf. destruct (iac.Gateway (AD config)) as [g|]; [|done].
  by destruct (Enabled g).
Qed.

(** An enabled gateway: the stack has one gateway, under the name
    configured; it speaks the protocol of the first agent, MCP when that
    agent names none or there is no agent; its authorizer is NONE; it runs
    under the role of the stack. *)
Theorem gateway_follows_first_agent order PS AD V config s gatewayConfig :
  validOrder order →
  NewAgentCoreStack order PS AD V config = Ok s →
  iac.Gateway (AD config) = Some gatewayConfig →
  Enabled gatewayConfig = true →
  ∃ role gp,
    ExecutionRole s = Some role ∧
    nodesOfKind KGateway s = [ {| logicalId := "Gateway"; properties := CfnGateway gp |} ] ∧
    Gateway s = Some {| logicalId := "Gateway"; properties := CfnGateway gp |} ∧
    gwp_Name gp = gw_Name gatewayConfig ∧
    gwp_Description gp = gw_Description gatewayConfig ∧
    AuthorizerType gp = "NONE" ∧
    ProtocolType gp
    = match iac.Agents (AD config) with
      | agent0 :: _ => if String.eqb (Protocol agent0) "" then "MCP" else Protocol agent0
      | [] => "MCP"
      end ∧
    gwp_RoleArn gp = RoleArn role.
Proof.
  intros Hv H Hg He.
  destruct (build_gateway _ _ _ _ _ _ Hv H) as (role & Hrole & Hgw & Hnodes).
  unfold gatewayOf in *. rewrite Hg, He in *. cbn [option_list] in Hnodes.
  exists role. eexists. split; [done|]. split; [exact Hnodes|]. split; [exact Hgw|].
  cbn [gwp_Name gwp_Description AuthorizerType ProtocolType gwp_RoleArn].
  repeat split.
  destruct (iac.Agents (AD config)) as [|a l]; [done|].
  by destruct (String.eqb (Protocol a) "").
Qed.

(** A role named by its ARN is imported: the stack creates no role and no
    policy, imports no secret and no managed policy, whatever the other
    IAM settings say, and every Runtime and the gateway run under the ARN
    given. *)
Theorem existing_role_is_imported order PS AD V config s iamConfig :
  validOrder order →
  NewAgentCoreStack order PS AD V config = Ok s →
  IAM (AD config) = Some iamConfig →
  RoleARN iamConfig ≠ "" →
  nodesOfKind KIdentity s
  = [ {| logicalId := "ExecutionRole"; properties := RoleFromArn (RoleARN iamConfig) |} ] ∧
  nodesOfKind KSecretReference s = [] ∧
  nodesOfKind KPolicyReference s = [] ∧
  Forall (λ n, ∃ rp, properties n = CfnRuntime rp ∧ rt_RoleArn rp = Literal (RoleARN iamConfig))
    (nodesOfKind KRuntime s) ∧
  Forall (λ n, ∃ gp, properties n = CfnGateway gp ∧ gwp_RoleArn gp = Literal (RoleARN iamConfig))
    (nodesOfKind KGateway s).
Proof.
  intros Hv H Hic Harn.
  destruct (build_role _ _ _ _ _ _ _ H Hic) as (Hrole & Hid & Hsr & Hpr).
  destruct (build_agents _ _ _ _ _ _ Hv H) as (role & Hrole' & _ & _ & Hrt & _).
  destruct (build_gateway _ _ _ _ _ _ Hv H) as (role'' & Hrole'' & _ & Hgw).
  unfold roleOf, roleImports in *. rewrite (RoleARN_given _ Harn) in *.
  assert (role = {| logicalId := "ExecutionRole";
                    properties := RoleFromArn (RoleARN iamConfig) |}) as -> by congruence.
  assert (role'' = {| logicalId := "ExecutionRole";
                      properties := RoleFromArn (RoleARN iamConfig) |}) as -> by congruence.
  split; [done|]. split; [done|]. split; [done|]. split.
  - rewrite Hrt. apply Forall_fmap, Forall_forall. intros a _. simpl.
    eexists. split; reflexivity.
  - rewrite Hgw. unfold gatewayOf. destruct (iac.Gateway (AD config)) as [g|]; [|constructor].
    destruct (Enabled g); [|constructor].
    repeat constructor. eexists. split; reflexivity.
Qed.

(** The secret of a built stack is the one the configuration asks for. *)
Lemma build_secret order PS AD V config s :
  NewAgentCoreStack order PS AD V config = Ok s → Secret s = secretOf (AD config).
Proof.
  intros H. anatomy H.
  assert (Secret s2 = None) as Hn2 by assumption.
  destruct (createSecrets_what _ _ _ _ Hsec Hn2) as [_ F3].
  rewrite Hc2 in F3. congruence.
Qed.

Lemma managed_policies role policies :
  ManagedPolicies (foldl (λ role policyARN, AddManagedPolicy policyARN role) role policies)
  = ManagedPolicies role ++ policies.
Proof.
  revert role. induction policies as [|x l IH]; intros role; simpl.
  - by rewrite app_nil_r.
  - rewrite IH. simpl. by rewrite <- app_assoc.
Qed.

Lemma managed_grants role (secrets : list ResourceNode) :
  ManagedPolicies (foldl (λ role secret, AddToPolicy (GrantRead (SecretArn secret)) role)
                     role secrets)
  = ManagedPolicies role.
Proof. revert role. induction secrets as [|x l IH]; intros role; simpl; [done|]. by rewrite IH. Qed.

Lemma boundary_managed role policies :
  PermissionsBoundary (foldl (λ role policyARN, AddManagedPolicy policyARN role) role policies)
  = PermissionsBoundary role.
Proof. revert role. induction policies as [|x l IH]; intros role; simpl; [done|]. by rewrite IH. Qed.

Lemma boundary_grants role (secrets : list ResourceNode) :
  PermissionsBoundary (foldl (λ role secret, AddToPolicy (GrantRead (SecretArn secret)) role)
                         role secrets)
  = PermissionsBoundary role.
Proof. revert role. induction secrets as [|x l IH]; intros role; simpl; [done|]. by rewrite IH. Qed.

Lemma assumed_managed role policies :
  AssumedBy (foldl (λ role policyARN, AddManagedPolicy policyARN role) role policies)
  = AssumedBy role.
Proof. revert role. induction policies as [|x l IH]; intros role; simpl; [done|]. by rewrite IH. Qed.

Lemma assumed_grants role (secrets : list ResourceNode) :
  AssumedBy (foldl (λ role secret, AddToPolicy (GrantRead (SecretArn secret)) role)
               role secrets)
  = AssumedBy role.
Proof. revert role. induction secrets as [|x l IH]; intros role; simpl; [done|]. by rewrite IH. Qed.

Lemma agentSecrets_grants agents :
  (λ secret, GrantRead (SecretArn secret)) <$> agentSecrets agents
  = (λ arn, GrantRead (Literal arn)) <$> (agents ≫= SecretsARNs).
Proof.
  unfold agentSecrets. induction agents as [|a l IH]; [done|].
  rewrite !bind_cons, !fmap_app, IH. f_equal.
  induction (SecretsARNs a) as [|x xs IHx]; [done|].
  rewrite bind_cons, fmap_app, IHx. reflexivity.
Qed.

(** The role the stack creates when no role is named: who may assume it,
    what it may do, in the order the statements are added, and the
    constructs imported for it. *)
Theorem created_role_policy order PS AD V config s iamConfig :
  NewAgentCoreStack order PS AD V config = Ok s →
  IAM (AD config) = Some iamConfig →
  RoleARN iamConfig = "" →
  ∃ role,
    nodesOfKind KIdentity s = [ {| logicalId := "ExecutionRole"; properties := Role role |} ] ∧
    AssumedBy role = ["bedrock.amazonaws.com"; "lambda.amazonaws.com"] ∧
    Policy role
    = (if EnableBedrockAccess iamConfig
       then [PolicyStatement invokeModelActions (modelResources (BedrockModelIDs iamConfig))]
       else [])
      ++ [logsStatement]
      ++ match secretOf (AD config) with
         | Some _ => [GrantRead (Attr "Secrets" "SecretArn")]
         | None => []
         end
      ++ ((λ arn, GrantRead (Literal arn)) <$> (iac.Agents (AD config) ≫= SecretsARNs))
      ++ [ecrStatement] ∧
    ManagedPolicies role = AdditionalPolicies iamConfig ∧
    PermissionsBoundary role
    = (if negb (String.eqb (PermissionsBoundaryARN iamConfig) "")
       then Some (PermissionsBoundaryARN iamConfig) else None) ∧
    nodesOfKind KSecretReference s = agentSecrets (iac.Agents (AD config)) ∧
    nodesOfKind KPolicyReference s
    = additionalPolicies iamConfig
      ++ (if negb (String.eqb (PermissionsBoundaryARN iamConfig) "")
          then [ {| logicalId := "PermissionsBoundary";
                    properties := ManagedPolicyFromArn (PermissionsBoundaryARN iamConfig) |} ]
          else []).
Proof.
  intros H Hic Harn.
  destruct (build_role _ _ _ _ _ _ _ H Hic) as (Hrole0 & Hid & Hsr & Hpr).
  pose proof (build_secret _ _ _ _ _ _ H) as Hsecret.
  assert (Config s = AD config) as Hcfg by (by anatomy H).
  unfold roleOf, roleImports in *. rewrite Harn in *. cbn [String.eqb negb] in *.
  exists (newRole s iamConfig). split; [done|].
  assert (Forall (λ n, kind n = KPolicyReference)
            (additionalPolicies iamConfig ++
             (if negb (String.eqb (PermissionsBoundaryARN iamConfig) "")
              then [ {| logicalId := "PermissionsBoundary";
                        properties := ManagedPolicyFromArn (PermissionsBoundaryARN iamConfig) |} ]
              else []))) as Hpol.
  { apply Forall_app. split; [apply additionalPolicies_kind|].
    destruct (negb _); repeat constructor. }
  split; [|split; [|split; [|split; [|split]]]].
  - unfold newRole. destruct (negb (String.eqb (PermissionsBoundaryARN iamConfig) ""));
      cbn [ApplyPermissionsBoundary AssumedBy]; rewrite assumed_managed;
      cbn [AddToPolicy AssumedBy]; rewrite assumed_grants;
      unfold bedrockAccess;
      by destruct (Secret s), (EnableBedrockAccess iamConfig), (BedrockModelIDs iamConfig).
  - rewrite newRole_Policy, Hsecret, Hcfg, agentSecrets_grants.
    unfold secretOf. destruct (Secrets (AD config)) as [sc|]; [|done].
    by destruct (_ && _).
  - unfold newRole. destruct (negb (String.eqb (PermissionsBoundaryARN iamConfig) ""));
      cbn [ApplyPermissionsBoundary ManagedPolicies]; rewrite managed_policies;
      cbn [AddToPolicy ManagedPolicies]; rewrite managed_grants;
      unfold bedrockAccess;
      by destruct (Secret s), (EnableBedrockAccess iamConfig), (BedrockModelIDs iamConfig).
  - unfold newRole. destruct (negb (String.eqb (PermissionsBoundaryARN iamConfig) ""));
      cbn [ApplyPermissionsBoundary PermissionsBoundary]; [done|]. rewrite boundary_managed.
    cbn [AddToPolicy PermissionsBoundary]. rewrite boundary_grants.
    unfold bedrockAccess;
      by destruct (Secret s), (EnableBedrockAccess iamConfig), (BedrockModelIDs iamConfig).
  - rewrite Hsr, filter_app.
    rewrite (filter_kind_none KSecretReference [KPolicyReference]
               (additionalPolicies iamConfig ++ _)).
    + rewrite app_nil_r. apply filter_kind_all, agentSecrets_kind.
    + eapply Forall_impl; [exact Hpol|]. intros n ->. apply list_elem_of_here.
    + intros Hin. apply list_elem_of_singleton in Hin. discriminate.
  - rewrite Hpr, filter_app.
    rewrite (filter_kind_none KPolicyReference [KSecretReference]
               (agentSecrets (iac.Agents (AD config)))).
    + cbn [app]. apply filter_kind_all, Hpol.
    + eapply Forall_impl; [apply agentSecrets_kind|]. intros n ->. apply list_elem_of_here.
    + intros Hin. apply list_elem_of_singleton in Hin. discriminate.
Qed.

End StackFacts.

(** ** Sample stacks *)

Module StackExamples.

Import iac AgentCore Graph Samples AgentCoreFacts Layout BuilderFacts LayoutFacts
  ConstructFacts StackFacts Imports.

Lemma imported_built : ∃ s, stackOf imported = Ok s.
Proof. eexists. vm_compute. reflexivity. Qed.

Lemma team_names : NoDup (Name <$> iac.Agents (filledIn team)).
Proof. decide_it. Qed.

(** The stack [imported] imports its VPC and creates no endpoint. *)
Lemma existing_VPC_is_imported_witness :
  ∃ s, stackOf imported = Ok s ∧
       iac.VPC (filledIn imported) = Some existingVPC ∧ VPCID existingVPC ≠ "" ∧
       VPC s = Some {| logicalId := "VPC"; properties := VpcLookup "vpc-0a1b2c3d" |} ∧
       nodesOfKind KNetwork s
       = [ {| logicalId := "VPC"; properties := VpcLookup "vpc-0a1b2c3d" |} ] ∧
       nodesOfKind KNetworkEndpoint s = [].
Proof.
  destruct imported_built as [s E]. exists s. split; [exact E|]. split; [reflexivity|].
  assert (VPCID existingVPC ≠ "") as Hne by (intros Hid; discriminate Hid).
  split; [exact Hne|].
  exact (existing_VPC_is_imported _ _ _ _ _ s existingVPC E eq_refl Hne).
Defined.

(** The stack [team] creates its VPC and the seven endpoints. *)
Lemma created_VPC_and_endpoints_witness :
  ∃ s, stackOf team = Ok s ∧
       iac.VPC (filledIn team) = Some newVPC ∧ VPCID newVPC = "" ∧ CreateVPC newVPC = true ∧
       VPC s = Some (newVpc (filledIn team) newVPC) ∧
       nodesOfKind KNetwork s = [newVpc (filledIn team) newVPC] ∧
       nodesOfKind KNetworkEndpoint s = vpcEndpoints "VPC".
Proof.
  destruct team_built as [s E]. exists s. split; [exact E|].
  split; [reflexivity|]. split; [reflexivity|]. split; [reflexivity|].
  exact (created_VPC_and_endpoints _ _ _ _ _ s newVPC E eq_refl eq_refl eq_refl).
Defined.

(** The constructs of the two agents of the stack [team]. *)
Lemma agent_constructs_witness :
  validOrder listingOrder ∧
  ∃ s role, stackOf team = Ok s ∧
    ExecutionRole s = Some role ∧ Config s = filledIn team ∧
    nodesOfKind KAgentScope s = scopeOf <$> iac.Agents (filledIn team) ∧
    nodesOfKind KRuntime s = runtimeOf twoSubnets s role <$> iac.Agents (filledIn team) ∧
    nodesOfKind KEndpoint s = endpointOf s <$> iac.Agents (filledIn team).
Proof.
  split; [apply listingOrder_valid|].
  destruct team_built as [s E]. exists s.
  destruct (agent_constructs _ _ _ _ _ s listingOrder_valid E) as [role Hrole].
  exists role. split; [exact E|]. exact Hrole.
Defined.

(** The constructs of the stack [imported], in order. *)
Lemma stack_layout_witness :
  validOrder listingOrder ∧
  ∃ s, stackOf imported = Ok s ∧
    Resources s = layoutOf twoSubnets (filledIn imported) existingVPC existingRole s ∧
    VPC s = head (networkOf (filledIn imported) existingVPC) ∧
    SecurityGroup s = Some (securityGroupOf (filledIn imported) (VPC s) existingVPC) ∧
    Secret s = secretOf (filledIn imported) ∧
    ExecutionRole s = Some (roleOf s existingRole) ∧
    LogGroup s = logGroupOf (filledIn imported) ∧
    Gateway s = gatewayOf (filledIn imported) (roleOf s existingRole).
Proof.
  split; [apply listingOrder_valid|].
  destruct imported_built as [s E]. exists s. split; [exact E|].
  destruct (stack_layout _ _ _ _ _ s listingOrder_valid E)
    as (vpcConfig & iamConfig & Hvc & Hic & Hl).
  injection Hvc as <-. injection Hic as <-. exact Hl.
Defined.

(** The outputs of the stack [team], which counts two agents. *)
Lemma stack_outputs_witness :
  ∃ s, stackOf team = Ok s ∧
    NoDup (Name <$> iac.Agents (filledIn team)) ∧
    Outputs s = flat_map agentOutputsOf (iac.Agents (filledIn team)) ++ stackOutputs s ∧
    size (Agents s) = 2%nat.
Proof.
  destruct team_built as [s E]. exists s. split; [exact E|]. split; [exact team_names|].
  exact (stack_outputs _ _ _ _ _ s E team_names).
Defined.

(** The gateway of the stack [team] speaks HTTP, as its first agent does. *)
Lemma gateway_follows_first_agent_witness :
  validOrder listingOrder ∧
  ∃ s role gp, stackOf team = Ok s ∧
    iac.Gateway (filledIn team) = Some tools ∧ Enabled tools = true ∧
    ExecutionRole s = Some role ∧
    nodesOfKind KGateway s = [ {| logicalId := "Gateway"; properties := CfnGateway gp |} ] ∧
    Gateway s = Some {| logicalId := "Gateway"; properties := CfnGateway gp |} ∧
    gwp_Name gp = "tools" ∧
    gwp_Description gp = "External tools" ∧
    AuthorizerType gp = "NONE" ∧
    ProtocolType gp = "HTTP" ∧
    gwp_RoleArn gp = RoleArn role.
Proof.
  split; [apply listingOrder_valid|].
  destruct team_built as [s E]. exists s.
  destruct (gateway_follows_first_agent _ _ _ _ _ s tools listingOrder_valid E eq_refl eq_refl)
    as (role & gp & Hg).
  exists role, gp. split; [exact E|]. split; [reflexivity|]. split; [reflexivity|]. exact Hg.
Defined.

(** The stack [imported] runs under the role it is given. *)
Lemma existing_role_is_imported_witness :
  validOrder listingOrder ∧
  ∃ s, stackOf imported = Ok s ∧
    IAM (filledIn imported) = Some existingRole ∧ RoleARN existingRole ≠ "" ∧
    nodesOfKind KIdentity s
    = [ {| logicalId := "ExecutionRole"; properties := RoleFromArn (RoleARN existingRole) |} ] ∧
    nodesOfKind KSecretReference s = [] ∧
    nodesOfKind KPolicyReference s = [] ∧
    Forall (λ n, ∃ rp, properties n = CfnRuntime rp
                       ∧ rt_RoleArn rp = Literal (RoleARN existingRole))
      (nodesOfKind KRuntime s) ∧
    Forall (λ n, ∃ gp, properties n = CfnGateway gp
                       ∧ gwp_RoleArn gp = Literal (RoleARN existingRole))
      (nodesOfKind KGateway s).
Proof.
  split; [apply listingOrder_valid|].
  destruct imported_built as [s E]. exists s. split; [exact E|]. split; [reflexivity|].
  assert (RoleARN existingRole ≠ "") as Hne by (intros Hid; discriminate Hid).
  split; [exact Hne|].
  exact (existing_role_is_imported _ _ _ _ _ s existingRole listingOrder_valid E eq_refl Hne).
Defined.

(** The role of the stack [team]: two models, the logs, the secret of the
    stack, the images. *)
Lemma created_role_policy_witness :
  ∃ s role, stackOf team = Ok s ∧
    IAM (filledIn team) = Some (newRoleFor twoModels) ∧ RoleARN (newRoleFor twoModels) = "" ∧
    nodesOfKind KIdentity s = [ {| logicalId := "ExecutionRole"; properties := Role role |} ] ∧
    AssumedBy role = ["bedrock.amazonaws.com"; "lambda.amazonaws.com"] ∧
    Policy role
    = [ PolicyStatement invokeModelActions (modelResources twoModels); logsStatement;
        GrantRead (Attr "Secrets" "SecretArn"); ecrStatement ] ∧
    ManagedPolicies role = [] ∧
    PermissionsBoundary role = None ∧
    nodesOfKind KSecretReference s = [] ∧
    nodesOfKind KPolicyReference s = [].
Proof.
  destruct team_built as [s E]. exists s.
  destruct (created_role_policy _ _ _ _ _ s (newRoleFor twoModels) E eq_refl eq_refl)
    as (role & Hrole).
  exists role. split; [exact E|]. split; [reflexivity|]. split; [reflexivity|]. exact Hrole.
Defined.

End StackExamples.

(** ** What a line of an env file gives *)

Module EnvFileFacts.

Import GoStrings EnvFile EnvLines.

Lemma append_cons c a b : String c a +:+ b = String c (a +:+ b).
Proof. reflexivity. Qed.

Lemma append_nil b : "" +:+ b = b.
Proof. reflexivity. Qed.

Lemma span_spec p s : s = (span p s).1 +:+ (span p s).2 ∧ allChars p (span p s).1 = true.
Proof.
  induction s as [|c s [IH1 IH2]]; simpl; [done|].
  destruct (p c) eqn:Hc; [|done].
  destruct (span p s) as [a b]. simpl in *. rewrite Hc, append_cons. split; [by f_equal|done].
Qed.

Lemma span_rest p s c rest : (span p s).2 = String c rest → p c = false.
Proof.
  induction s as [|d s IH]; simpl; [done|].
  destruct (p d) eqn:Hd.
  - destruct (span p s) as [a b]. simpl in *. exact IH.
  - intros [= <- <-]. exact Hd.
Qed.

Lemma span_app p a c rest :
  allChars p a = true → p c = false → span p (a +:+ String c rest) = (a, String c rest).
Proof.
  intros Ha Hc. induction a as [|d a IH]; rewrite ?append_cons, ?append_nil; simpl in *.
  - by rewrite Hc.
  - apply andb_true_iff in Ha as [-> Ha]. by rewrite (IH Ha).
Qed.

Lemma HasPrefix_cons a s b p :
  HasPrefix (String a s) (String b p) = if decide (a = b) then HasPrefix s p else false.
Proof. reflexivity. Qed.

Lemma HasPrefix_split s p : HasPrefix s p = true → s = p +:+ dropBytes (String.length p) s.
Proof.
  revert s. induction p as [|b p IH]; intros s; simpl; [by destruct s|].
  destruct s as [|a s]; [done|]. rewrite HasPrefix_cons.
  destruct (decide (a = b)) as [->|]; [|done].
  intros H. rewrite append_cons. f_equal. by apply IH.
Qed.

Lemma span_cons p c s :
  span p (String c s) = if p c then (String c (span p s).1, (span p s).2) else ("", String c s).
Proof. simpl. destruct (p c); [|done]. by destruct (span p s). Qed.

Lemma isKeyStart_char c : isKeyStart c = true → isKeyChar c = true.
Proof. unfold isKeyChar. by intros ->. Qed.

Lemma matchKeyValue_sound s key raw :
  matchKeyValue s = Some (key, raw) →
  s = key +:+ "=" +:+ raw ∧ identifier key = true ∧ contains (byte 10) raw = false.
Proof.
  unfold matchKeyValue. destruct s as [|c s]; [done|].
  destruct (isKeyStart c) eqn:Hc; [|done].
  pose proof (span_spec isKeyChar (String c s)) as [Hs Hk].
  rewrite span_cons, (isKeyStart_char _ Hc) in *. cbn [fst snd] in *.
  destruct (span isKeyChar s) as [k r]. cbn [fst snd] in *.
  destruct r as [|e v]; [done|].
  destruct (bool_decide_reflect (e = "="%char)) as [->|]; [|done]. cbn [andb].
  destruct (contains (byte 10) v) eqn:Hv; [done|]. cbn [negb]. intros [= <- <-].
  split; [exact Hs|]. split; [|done].
  cbn [identifier allChars] in *. rewrite Hc. cbn [andb].
  by apply andb_true_iff in Hk as [_ ?].
Qed.

Lemma append_assoc a b c : (a +:+ b) +:+ c = a +:+ (b +:+ c).
Proof. induction a as [|x a IH]; [done|]. by rewrite !append_cons, IH. Qed.

(** A line the expression of [parseEnvFile] matches is a leader, a key,
    the equals sign and the rest of the line. *)
Lemma envRegex_sound line key raw :
  envRegex line = Some (key, raw) →
  ∃ pre, line = pre +:+ key +:+ "=" +:+ raw ∧ leader pre ∧
         identifier key = true ∧ contains (byte 10) raw = false.
Proof.
  unfold envRegex. pose proof (span_spec isReSpace line) as [Hline Hws].
  destruct (span isReSpace line) as [ws s]. cbn [fst snd] in *.
  assert (matchKeyValue s = Some (key, raw) →
          ∃ pre, line = pre +:+ key +:+ "=" +:+ raw ∧ leader pre ∧
                 identifier key = true ∧ contains (byte 10) raw = false) as Hplain.
  { intros (-> & Hk & Hr)%matchKeyValue_sound. exists ws.
    split; [done|]. split; [|done]. exists ws. auto. }
  destruct (HasPrefix s "export") eqn:Hexp; [|exact Hplain].
  pose proof (span_spec isReSpace (dropBytes 6 s)) as [Hrest Hws'].
  destruct (span isReSpace (dropBytes 6 s)) as [[|c ws'] rest]; [exact Hplain|].
  cbn [fst snd] in *.
  destruct (matchKeyValue rest) as [[k r]|] eqn:Hm; [|exact Hplain].
  intros [= -> ->]. apply matchKeyValue_sound in Hm as (-> & Hk & Hr).
  apply HasPrefix_split in Hexp. cbn [String.length] in Hexp. rewrite Hrest in Hexp.
  exists (ws +:+ "export" +:+ String c ws').
  split; [by rewrite Hline, Hexp, !append_assoc|]. split; [|done].
  cbn [allChars] in Hws'. apply andb_true_iff in Hws' as [Hc Hws'].
  exists ws. split; [done|]. right. by exists c, ws'.
Qed.

Lemma TrimLeft_head s cutset c rest :
  TrimLeft s cutset = String c rest → inCutset c cutset = false.
Proof.
  induction s as [|d s IH]; simpl; [done|].
  destruct (inCutset d cutset) eqn:Hd; [exact IH|]. by intros [= <- <-].
Qed.

Lemma TrimLeft_fixed s cutset :
  match s with String c _ => inCutset c cutset = false | EmptyString => True end →
  TrimLeft s cutset = s.
Proof. destruct s as [|c s]; simpl; [done|]. by intros ->. Qed.

Lemma TrimRight_head s cutset :
  match s with String c _ => inCutset c cutset = false | EmptyString => True end →
  match TrimRight s cutset with
  | String c _ => inCutset c cutset = false
  | EmptyString => True
  end.
Proof.
  destruct s as [|d s]; simpl; [done|]. intros Hd.
  destruct (TrimRight s cutset); [by rewrite Hd|done].
Qed.

Lemma TrimRight_idem s cutset : TrimRight (TrimRight s cutset) cutset = TrimRight s cutset.
Proof.
  induction s as [|c s IH]; simpl; [done|].
  destruct (TrimRight s cutset) as [|d r] eqn:Hr.
  - destruct (inCutset c cutset) eqn:Hc; simpl; [done|]. by rewrite Hc.
  - simpl. simpl in IH. by rewrite IH.
Qed.

(** Trimming a trimmed text changes nothing. *)
Lemma Trim_idem s cutset : Trim (Trim s cutset) cutset = Trim s cutset.
Proof.
  unfold Trim. rewrite TrimLeft_fixed; [apply TrimRight_idem|].
  apply TrimRight_head.
  destruct (TrimLeft s cutset) as [|c r] eqn:Hs; [done|]. by eapply TrimLeft_head.
Qed.

(** What [entry] yields: a key and the text after the equals sign,
    trimmed of quotes. *)
Lemma entry_sound line key value :
  entry line = Some (key, value) →
  ∃ pre raw, line = pre +:+ key +:+ "=" +:+ raw ∧ leader pre ∧
             identifier key = true ∧ contains (byte 10) raw = false ∧
             value = Trim raw quotes ∧ value ≠ "" ∧ HasPrefix value "your-" = false.
Proof.
  unfold entry. destruct (skipped line); [done|].
  destruct (envRegex line) as [[k raw]|] eqn:Hm; [|done].
  destruct (String.eqb_spec (Trim raw quotes) "") as [|Hne]; [done|]. cbn [orb].
  destruct (HasPrefix (Trim raw quotes) "your-") eqn:Hp; [done|].
  intros [= <- <-]. apply envRegex_sound in Hm as (pre & Hline & Hpre & Hk & Hr).
  exists pre, raw. repeat split; done.
Qed.

(** *** Lines that are assignments *)

Lemma keyStart_not_space c : isKeyStart c = true → isReSpace c = false.
Proof. destruct c as [[] [] [] [] [] [] [] []]; vm_compute; congruence. Qed.

Lemma keyChar_not_space c : isKeyChar c = true → isReSpace c = false.
Proof. destruct c as [[] [] [] [] [] [] [] []]; vm_compute; congruence. Qed.

Lemma matchKeyValue_complete key raw :
  identifier key = true → contains (byte 10) raw = false →
  matchKeyValue (key +:+ "=" +:+ raw) = Some (key, raw).
Proof.
  destruct key as [|c k]; [done|]. cbn [identifier].
  intros [Hc Hk]%andb_true_iff Hr. change ("=" +:+ raw) with (String "="%char raw).
  unfold matchKeyValue. rewrite append_cons at 1. cbv iota. rewrite Hc.
  rewrite span_app.
  - rewrite bool_decide_eq_true_2 by done. by rewrite Hr.
  - cbn [allChars]. by rewrite (isKeyStart_char _ Hc), Hk.
  - reflexivity.
Qed.

(** A key that begins with [export] is not taken for the word. *)
Lemma export_not_taken k raw :
  allChars isKeyChar k = true →
  HasPrefix (k +:+ "=" +:+ raw) "export" = true →
  (span isReSpace (dropBytes 6 (k +:+ "=" +:+ raw))).1 = "".
Proof.
  intros Hk. change ("=" +:+ raw) with (String "="%char raw).
  destruct k as [|c1 [|c2 [|c3 [|c4 [|c5 [|c6 k]]]]]];
    rewrite ?append_cons, ?append_nil;
    repeat (rewrite HasPrefix_cons; destruct (decide _) as [?|?]; [|done]);
    try discriminate.
  intros _. cbn [dropBytes]. cbn [allChars] in Hk.
  repeat (apply andb_true_iff in Hk as [_ Hk]).
  destruct k as [|c k]; rewrite ?append_cons, ?append_nil; rewrite span_cons.
  - reflexivity.
  - cbn [allChars] in Hk. apply andb_true_iff in Hk as [Hc _].
    by rewrite (keyChar_not_space _ Hc).
Qed.

Lemma envRegex_complete pre key raw :
  leader pre → identifier key = true → contains (byte 10) raw = false →
  envRegex (pre +:+ key +:+ "=" +:+ raw) = Some (key, raw).
Proof.
  intros (ws & Hws & Hpre) Hk Hr.
  pose proof (matchKeyValue_complete _ _ Hk Hr) as Hm.
  destruct key as [|c k]; [done|]. cbn [identifier] in Hk.
  apply andb_true_iff in Hk as [Hc Hk].
  unfold envRegex. destruct Hpre as [->|(d & ws' & Hd & Hws' & ->)].
  - rewrite (append_cons c k), span_app by auto using keyStart_not_space. cbn [fst snd].
    rewrite <- (append_cons c k).
    destruct (HasPrefix (String c k +:+ "=" +:+ raw) "export") eqn:Hexp; [|exact Hm].
    apply export_not_taken in Hexp.
    + destruct (span isReSpace _) as [[|] ?]; [exact Hm|discriminate Hexp].
    + cbn [allChars]. by rewrite (isKeyStart_char _ Hc), Hk.
  - rewrite !append_assoc.
    set (rest := String c k +:+ "=" +:+ raw) in *.
    change ("export" +:+ String d ws' +:+ rest)
      with (String "e"%char ("xport" +:+ String d ws' +:+ rest)).
    rewrite span_app by done. cbn [fst snd].
    change (String "e"%char ("xport" +:+ String d ws' +:+ rest))
      with ("export" +:+ String d ws' +:+ rest).
    assert (HasPrefix ("export" +:+ String d ws' +:+ rest) "export" = true) as ->
      by reflexivity.
    assert (dropBytes 6 ("export" +:+ String d ws' +:+ rest) = String d ws' +:+ rest) as ->
      by reflexivity.
    assert (span isReSpace (String d ws' +:+ rest) = (String d ws', rest)) as ->.
    { unfold rest. rewrite (append_cons c k). apply span_app.
      - cbn [allChars]. by rewrite Hd, Hws'.
      - by apply keyStart_not_space. }
    by rewrite Hm.
Qed.

Lemma space_width c rest : isReSpace c = true → spaceWidth (String c rest) = 1%nat.
Proof.
  unfold isReSpace, spaceWidth. intros H%bool_decide_eq_true.
  rewrite bool_decide_eq_true_2; [done|].
  repeat (apply elem_of_cons in H as [->|H]); [..|by apply elem_of_nil in H];
    repeat (first [apply list_elem_of_here | apply list_elem_of_further]).
Qed.

Lemma keyStart_code c : isKeyStart c = true → (65 ≤ nat_of_ascii c ≤ 122)%nat.
Proof.
  unfold isKeyStart, isLetter. intros [H|H]%orb_true_iff.
  - apply orb_true_iff in H as [H|H]; apply andb_true_iff in H as [H1 H2];
      apply Nat.leb_le in H1, H2; lia.
  - apply bool_decide_eq_true in H as ->. vm_compute. lia.
Qed.

Lemma keyStart_width c rest : isKeyStart c = true → spaceWidth (String c rest) = 0%nat.
Proof.
  intros H%keyStart_code. unfold spaceWidth.
  rewrite bool_decide_eq_false_2.
  2: { rewrite !elem_of_cons, elem_of_nil. lia. }
  destruct rest as [|b rest]; [done|].
  rewrite bool_decide_eq_false_2 by (intros [? _]; lia).
  destruct rest as [|d rest]; [done|].
  rewrite bool_decide_eq_false_2; [done|].
  intros [[? _]|[[? _]|[[? _]|[? _]]]]; lia.
Qed.

Lemma trimLeftSpace_spaces ws rest fuel :
  allChars isReSpace ws = true →
  trimLeftSpace (String.length ws + fuel) (ws +:+ rest) = trimLeftSpace fuel rest.
Proof.
  intros Hws. induction ws as [|c ws IH]; [done|].
  cbn [allChars] in Hws. apply andb_true_iff in Hws as [Hc Hws].
  rewrite append_cons. cbn [String.length Nat.add trimLeftSpace].
  rewrite (space_width _ _ Hc). cbn [dropBytes]. by apply IH.
Qed.

Lemma trimLeftSpace_text fuel c rest :
  spaceWidth (String c rest) = 0%nat → trimLeftSpace fuel (String c rest) = String c rest.
Proof. intros H. destruct fuel; [done|]. cbn [trimLeftSpace]. by rewrite H. Qed.

Lemma length_append a b : String.length (a +:+ b) = (String.length a + String.length b)%nat.
Proof. induction a as [|c a IH]; [done|]. rewrite append_cons. simpl. by rewrite IH. Qed.

(** A line with a key on it is neither blank nor a comment. *)
Lemma assignment_not_skipped pre key rest :
  leader pre → identifier key = true → skipped (pre +:+ key +:+ rest) = false.
Proof.
  intros (ws & Hws & Hpre) Hk. unfold skipped.
  assert (∀ c text, spaceWidth (String c text) = 0%nat → c ≠ "#"%char →
            let line := ws +:+ String c text in
            let trimmed := trimLeftSpace (String.length line) line in
            String.eqb trimmed "" || HasPrefix trimmed "#" = false) as Htext.
  { intros c text Hw Hc line trimmed. unfold trimmed, line.
    rewrite length_append, trimLeftSpace_spaces, trimLeftSpace_text by done.
    cbn [String.eqb orb]. change "#" with (String "#"%char ""). rewrite HasPrefix_cons.
    by destruct (decide (c = "#"%char)). }
  destruct key as [|c k]; [done|]. cbn [identifier] in Hk.
  apply andb_true_iff in Hk as [Hc _].
  destruct Hpre as [->|(d & ws' & _ & _ & ->)].
  - rewrite append_cons. apply Htext; [by apply keyStart_width|].
    intros ->. discriminate Hc.
  - rewrite !append_assoc.
    change ("export" +:+ String d ws' +:+ String c k +:+ rest)
      with (String "e"%char ("xport" +:+ String d ws' +:+ String c k +:+ rest)).
    apply Htext; [by apply keyStart_width|done].
Qed.

(** [entry] reads the assignments of a file and nothing else: a line
    gives a key and a value exactly when it is white space, possibly
    [export] and white space, a key, the equals sign and a text whose
    value, the text without the quotes around it, is neither empty nor a
    placeholder. *)
Theorem entry_reads_assignments line key value :
  entry line = Some (key, value) ↔
  ∃ pre raw,
    line = pre +:+ key +:+ "=" +:+ raw ∧ leader pre ∧
    identifier key = true ∧ contains (byte 10) raw = false ∧
    value = Trim raw quotes ∧ value ≠ "" ∧ HasPrefix value "your-" = false.
Proof.
  split; [apply entry_sound|].
  intros (pre & raw & -> & Hpre & Hk & Hr & -> & Hne & Hp).
  unfold entry. rewrite (assignment_not_skipped _ _ _ Hpre Hk).
  rewrite (envRegex_complete _ _ _ Hpre Hk Hr), Hp.
  by destruct (String.eqb_spec (Trim raw quotes) "").
Qed.

End EnvFileFacts.

(** ** The two tools read a file alike *)

Module ReadingFacts.

Import GoStrings EnvFile EnvLines CLI Classification SideBySide PushSecretsFacts EnvFileFacts.

Lemma categorize_alike verbose key value gs w :
  ∃ t gs', Deploy.categorize verbose key value gs w = (t, inr gs') ∧
           toGroup <$> gs' = filed key value <$> (toGroup <$> gs).
Proof.
  induction gs as [|g gs (t & gs' & IH & Hgs')]; simpl.
  - by exists [], [].
  - rewrite fileUnder_spec. unfold mbind, IO_bind at 1.
    destruct (bool_decide (key ∈ Deploy.patterns g) && verbose); simpl;
      unfold mbind, IO_bind; rewrite IH; simpl; eexists _, _; (split; [reflexivity|]);
      rewrite fmap_cons, Hgs'; reflexivity.
Qed.

Lemma scan_alike verbose lines gs w :
  ∃ t gs', Deploy.scan verbose lines gs w = (t, inr gs') ∧
           toGroup <$> gs' = classify (omap entry lines) (toGroup <$> gs).
Proof.
  revert gs. induction lines as [|line lines IH]; intros gs; simpl.
  - by exists [], gs.
  - destruct (entry line) as [[key value]|]; simpl; [|apply IH].
    unfold mbind, IO_bind.
    destruct (categorize_alike verbose key value gs w) as (t & gs1 & -> & H1).
    destruct (IH gs1) as (t' & gs' & -> & H'). exists (t ++ t'), gs'.
    split; [done|]. by rewrite H', H1.
Qed.

Lemma groups_alike : toGroup <$> Deploy.groups = PushSecrets.groups.
Proof. reflexivity. Qed.

(** The groups [parseEnvFile] of [cmd/deploy] returns, as groups of
    [cmd/push-secrets]. *)
Lemma Deploy_parseEnvFile_spec w filename verbose :
  (Deploy.parseEnvFile filename Deploy.groups verbose w).2
  = match ReadLines w filename with
    | inl msg => inl {| origin := FromFile; Error := msg |}
    | inr (lines, Some msg) => inl {| origin := FromFile; Error := msg |}
    | inr (lines, None) => (Deploy.parseEnvFile filename Deploy.groups verbose w).2
    end ∧
  ∀ lines, ReadLines w filename = inr (lines, None) →
    ∃ t gs, Deploy.parseEnvFile filename Deploy.groups verbose w = (t, inr gs) ∧
            toGroup <$> gs = classify (omap entry lines) PushSecrets.groups.
Proof.
  unfold Deploy.parseEnvFile, mbind, IO_bind, world. simpl.
  destruct (ReadLines w filename) as [msg|[lines [msg|]]] eqn:Hfile.
  - split; [done|]. intros ? [=].
  - split; [|intros ? [=]].
    destruct (scan_alike verbose lines Deploy.groups w) as (t & gs & Hscan & _).
    unfold mbind, IO_bind. by rewrite Hscan.
  - split; [done|]. intros ? [= <-].
    destruct (scan_alike verbose lines Deploy.groups w) as (t & gs & Hscan & Hgs).
    unfold mbind, IO_bind. rewrite Hscan. simpl. exists (t ++ []), gs. split; [done|].
    by rewrite Hgs, groups_alike.
Qed.

Lemma PushSecrets_parseEnvFile_spec w filename verbose :
  (PushSecrets.parseEnvFile filename PushSecrets.groups verbose w).2
  = match ReadLines w filename with
    | inl msg => inl {| origin := FromFile; Error := msg |}
    | inr (lines, Some msg) => inl {| origin := FromFile; Error := msg |}
    | inr (lines, None) => inr (classify (omap entry lines) PushSecrets.groups)
    end.
Proof.
  unfold PushSecrets.parseEnvFile, mbind, IO_bind, world. simpl.
  destruct (ReadLines w filename) as [msg|[lines [msg|]]] eqn:Hfile; [done|..];
    destruct (scan_spec verbose lines PushSecrets.groups w) as [t Hscan];
    unfold mbind, IO_bind; by rewrite Hscan.
Qed.

(** [cmd/deploy] and [cmd/push-secrets] read an env file alike: one fails
    on a file when the other does, with the same error, and otherwise
    they return the same groups with the same keys and values, whatever
    they print on the way. *)
Theorem both_tools_read_alike w filename verbose verbose' :
  match (Deploy.parseEnvFile filename Deploy.groups verbose w).2,
        (PushSecrets.parseEnvFile filename PushSecrets.groups verbose' w).2 with
  | inr gs, inr gs' => toGroup <$> gs = gs'
  | inl err, inl err' => err = err'
  | _, _ => False
  end.
Proof.
  rewrite PushSecrets_parseEnvFile_spec.
  destruct (Deploy_parseEnvFile_spec w filename verbose) as [Herr Hok].
  destruct (ReadLines w filename) as [msg|[lines [msg|]]].
  - by rewrite Herr.
  - by rewrite Herr.
  - destruct (Hok lines eq_refl) as (t & gs & -> & Hgs). exact Hgs.
Qed.

(** The keys of a group after the entries [es]: those of the entries it
    lists, each with the value of its last entry. *)
Lemma foldl_file_last (patterns : list string) (es1 es2 : list (string * string))
    (keys : gmap string string) (k v : string) :
  k ∈ patterns → k ∉ es2.*1 →
  foldl (λ keys kv, if bool_decide (kv.1 ∈ patterns)
                    then <[kv.1 := kv.2]> keys else keys) keys (es1 ++ (k, v) :: es2) !! k
  = Some v.
Proof.
  intros Hk Hes2. rewrite foldl_app. cbn [foldl fst snd].
  rewrite bool_decide_eq_true_2 by done.
  generalize (foldl (λ keys kv, if bool_decide (kv.1 ∈ patterns)
                                then <[kv.1 := kv.2]> keys else keys) keys es1).
  intros keys'. assert (<[k := v]> keys' !! k = Some v) as H by apply lookup_insert_eq.
  revert H. generalize (<[k := v]> keys'). clear keys'.
  induction es2 as [|[k' v'] es2 IH]; intros m Hm; [done|]. cbn [foldl fst snd].
  rewrite fmap_cons in Hes2. apply not_elem_of_cons in Hes2 as [Hne Hes2].
  apply IH; [done|]. destruct (bool_decide (k' ∈ patterns)); [|done].
  by rewrite lookup_insert_ne.
Qed.

(** When a file assigns a key more than once, the last assignment is the
    one kept: every group that lists the key holds the value of the last
    line that assigns it. *)
Theorem last_assignment_wins w filename verbose before line after key value :
  ReadLines w filename = inr (before ++ line :: after, None) →
  entry line = Some (key, value) →
  (∀ l v, l ∈ after → entry l ≠ Some (key, v)) →
  ∃ t result,
    PushSecrets.parseEnvFile filename PushSecrets.groups verbose w = (t, inr result) ∧
    ∀ g, g ∈ result → key ∈ PushSecrets.Patterns g →
         PushSecrets.Keys g !! key = Some value.
Proof.
  intros Hfile Hline Hafter.
  destruct (scan_spec verbose (before ++ line :: after) PushSecrets.groups w) as [t Hscan].
  exists t, (classify (omap entry (before ++ line :: after)) PushSecrets.groups).
  split.
  { unfold PushSecrets.parseEnvFile, mbind, IO_bind, world. simpl. rewrite Hfile.
    unfold mbind, IO_bind. rewrite Hscan. simpl. by rewrite app_nil_r. }
  rewrite classify_Keys. intros g Hg Hk.
  apply list_elem_of_fmap in Hg as (g0 & -> & Hg0). simpl in *.
  rewrite omap_app.
  change (omap entry (line :: after))
    with (match entry line with
          | Some y => y :: omap entry after
          | None => omap entry after
          end).
  rewrite Hline. apply foldl_file_last; [done|].
  intros Hin. apply list_elem_of_fmap in Hin as ([k v] & -> & Hin).
  apply list_elem_of_omap in Hin as (l & Hl & He). by apply (Hafter l v).
Qed.

(** No group ever holds an empty value, a placeholder or a value still in
    its quotes: every value [parseEnvFile] of [cmd/deploy] files is the
    text of an assignment of the file, trimmed. *)
Theorem held_values_are_real w filename verbose lines t gs :
  ReadLines w filename = inr (lines, None) →
  Deploy.parseEnvFile filename Deploy.groups verbose w = (t, inr gs) →
  ∀ g k v, g ∈ gs → Deploy.keys g !! k = Some v →
    v ≠ "" ∧ HasPrefix v "your-" = false ∧ Trim v quotes = v ∧
    k ∈ Deploy.patterns g ∧ ∃ line, line ∈ lines ∧ entry line = Some (k, v).
Proof.
  intros Hfile Hparse g k v Hg Hv.
  destruct (Deploy_parseEnvFile_spec w filename verbose) as [_ Hok].
  destruct (Hok lines Hfile) as (t' & gs' & Hparse' & Hgs). rewrite Hparse in Hparse'.
  injection Hparse' as <- <-.
  assert (toGroup g ∈ classify (omap entry lines) PushSecrets.groups) as Hin.
  { rewrite <- Hgs. apply list_elem_of_fmap. eauto. }
  rewrite classify_Keys in Hin. apply list_elem_of_fmap in Hin as (g0 & Hg0 & Hin0).
  assert (Deploy.keys g = PushSecrets.Keys (toGroup g)) as Hkeys by reflexivity.
  assert (Deploy.patterns g = PushSecrets.Patterns (toGroup g)) as Hpat by reflexivity.
  rewrite Hkeys in Hv. rewrite Hpat. rewrite Hg0 in Hv |- *. simpl in *.
  apply foldl_file_lookup in Hv as [Hv|[Hk He]].
  { by rewrite (groups_empty _ Hin0), lookup_empty in Hv. }
  apply list_elem_of_omap in He as (line & Hline & He).
  pose proof He as (pre & raw & _ & _ & _ & _ & -> & Hne & Hp)%entry_sound.
  split; [done|]. split; [done|]. split; [apply Trim_idem|]. split; [done|]. eauto.
Qed.

End ReadingFacts.

(** ** The secret push and the run of the two tools *)

Module PushFacts.

Import GoStrings EnvFile CLI Pipeline Classification SideBySide PushSecretsFacts DeployFacts
  EnvFileFacts ReadingFacts.

Lemma bind_inr {A B} (m : IO A) (f : A → IO B) w a :
  (m w).2 = inr a → (m ≫= f) w = ((m w).1 ++ (f a w).1, (f a w).2).
Proof.
  unfold mbind, IO_bind. destruct (m w) as [t r]; simpl; intros ->. by destruct (f a w).
Qed.

Lemma bind_inl {A B} (m : IO A) (f : A → IO B) w err :
  (m w).2 = inl err → (m ≫= f) w = ((m w).1, inl err).
Proof. unfold mbind, IO_bind. by destruct (m w) as [t r]; simpl; intros ->. Qed.

Lemma firstExisting_spec w cs :
  match Deploy.firstExisting w cs with
  | Some path =>
      ∃ before after, cs = before ++ path :: after ∧
        Stat w path = StatOk ∧ Forall (λ c, Stat w c ≠ StatOk) before
  | None => Forall (λ c, Stat w c ≠ StatOk) cs
  end.
Proof.
  induction cs as [|c cs IH]; simpl; [constructor|].
  destruct (Stat w c) eqn:Hc.
  - exists [], cs. split; [done|]. split; [done|]. constructor.
  - destruct (Deploy.firstExisting w cs) as [path|].
    + destruct IH as (before & after & -> & Hp & Hb). exists (c :: before), after.
      split; [done|]. split; [done|]. constructor; [congruence|done].
    + constructor; [congruence|done].
  - destruct (Deploy.firstExisting w cs) as [path|].
    + destruct IH as (before & after & -> & Hp & Hb). exists (c :: before), after.
      split; [done|]. split; [done|]. constructor; [congruence|done].
    + constructor; [congruence|done].
Qed.

Lemma findEnvFile_found (Join : list string → string) projectName w :
  firstFound w (candidates Join projectName w) "no .env file found"
    (Deploy.findEnvFile Join projectName w) ∧
  firstFound w (candidates Join projectName w)
    "no .env file found in: .env, ../.env, or ~/.plexusone/"
    (PushSecretsRun.findEnvFile Join projectName w).
Proof.
  assert (∀ cs, cs = candidates Join projectName w →
            ∀ msg, firstFound w (candidates Join projectName w) msg
                     (match Deploy.firstExisting w cs with
                      | Some path => mret path
                      | None => fail {| origin := FromFile; Error := msg |}
                      end w)) as H.
  { intros cs -> msg. pose proof (firstExisting_spec w (candidates Join projectName w)) as Hs.
    destruct (Deploy.firstExisting w _) as [path|]; split; try done. }
  split.
  - unfold Deploy.findEnvFile. rewrite (bind_pure _ _ _ _ eq_refl). apply H.
    unfold candidates. destruct (UserHomeDir w); [|done].
    destruct (negb _); by rewrite <- ?app_assoc.
  - unfold PushSecretsRun.findEnvFile. rewrite (bind_pure _ _ _ _ eq_refl). apply H.
    unfold candidates. destruct (UserHomeDir w); [|done].
    destruct (negb _); by rewrite <- ?app_assoc.
Qed.

(** The search for the env file, in both tools: the file in the working
    directory, the file in its parent, the file of the project under the
    home directory, the file of the home directory; the first that
    [os.Stat] finds is returned, a candidate that cannot be examined is
    passed over, and the search fails only when none is found. *)
Theorem findEnvFile_takes_first_existing (Join : list string → string) projectName w :
  firstFound w (candidates Join projectName w) "no .env file found"
    (Deploy.findEnvFile Join projectName w) ∧
  firstFound w (candidates Join projectName w)
    "no .env file found in: .env, ../.env, or ~/.plexusone/"
    (PushSecretsRun.findEnvFile Join projectName w).
Proof. apply findEnvFile_found. Qed.

(** An env file that is not there is not an error of [cmd/deploy]: the
    push says so and returns, without a call to the secret store and
    without an error.  A file named on the command line is missing when
    [os.Stat] does not find it, nor, for a relative name, finds it in the
    parent directory; with no file named, when the search finds none. *)
Theorem missing_env_file_skips_push (Join : list string → string) (IsAbs : string → bool)
    envFile prefix projectName dryRun verbose w :
  (if String.eqb envFile ""
   then Forall (λ c, Stat w c ≠ StatOk) (candidates Join projectName w)
   else Stat w envFile = StatNotExist ∧
        (IsAbs envFile = false → Stat w (Join [".."; envFile]) ≠ StatOk)) →
  Deploy.pushSecrets Join IsAbs envFile prefix projectName dryRun verbose w
  = (if String.eqb envFile ""
     then [Stdout "No .env file found, skipping secrets push";
           Stdout "  Searched: .env, ../.env, ~/.plexusone/"]
     else [Stdout ("Warning: " +:+ envFile +:+ " not found, skipping secrets push")],
     inr ()).
Proof.
  unfold Deploy.pushSecrets, Deploy.resolveEnvFile.
  destruct (String.eqb envFile "") eqn:He; cbn [negb].
  - intros Hnone.
    destruct (findEnvFile_found Join projectName w) as [[Ht Hr] _].
    unfold attempt, mbind, IO_bind, world. cbn -[String.append Deploy.findEnvFile].
    destruct (Deploy.findEnvFile Join projectName w) as [t [err|path]]; simpl in *.
    + by rewrite Ht.
    + destruct Hr as (before & after & Hc & Hp & _). rewrite Hc in Hnone.
      apply Forall_app in Hnone as [_ Hnone]. by apply Forall_cons in Hnone as [? _].
  - intros [Hmiss Hparent].
    unfold attempt, mbind, IO_bind, world. cbn -[String.append Deploy.findEnvFile].
    assert ((if negb (IsAbs envFile)
             then match Stat w envFile with
                  | StatNotExist =>
                      match Stat w (Join [".."; envFile]) with
                      | StatOk => Join [".."; envFile]
                      | _ => envFile
                      end
                  | _ => envFile
                  end
             else envFile) = envFile) as ->.
    { destruct (IsAbs envFile); [done|]. cbn [negb]. rewrite Hmiss.
      specialize (Hparent eq_refl). by destruct (Stat w (Join [".."; envFile])). }
    rewrite Hmiss. reflexivity.
Qed.

(** The calls [createOrUpdateSecret] makes to the secret store for a
    group whose write can succeed. *)
Lemma createOrUpdateSecret_writes w prefix g :
  size (Deploy.keys g) ≠ 0%nat → writable w prefix g →
  (Deploy.createOrUpdateSecret (prefix +:+ "/" +:+ Deploy.name g) g false w).2 = inr () ∧
  filter isSecretStore
    (Deploy.createOrUpdateSecret (prefix +:+ "/" +:+ Deploy.name g) g false w).1
  = writesOf w prefix g.
Proof.
  intros Hne Hw. unfold Deploy.createOrUpdateSecret, writable, writesOf in *.
  rewrite bool_decide_eq_false_2 by done.
  unfold mbind, IO_bind, world, Println, emit, fail, mret, IO_ret. cbn -[String.append].
  destruct (PutSecretValue w _ _); [done| |done].
  cbn -[String.append]. by rewrite Hw.
Qed.

Lemma createOrUpdateSecret_empty w secretName g dryRun :
  size (Deploy.keys g) = 0%nat →
  (Deploy.createOrUpdateSecret secretName g dryRun w).2 = inr () ∧
  filter isSecretStore (Deploy.createOrUpdateSecret secretName g dryRun w).1 = [].
Proof.
  intros He. unfold Deploy.createOrUpdateSecret. by rewrite bool_decide_eq_true_2 by done.
Qed.

(** The push writes every group that holds a key, once, in the order of
    the groups, under the prefix and the name of the group, with an
    update first and a creation when the store does not know the secret;
    a group that holds no key causes no call.  When each write can
    succeed the push succeeds. *)
Theorem every_group_with_keys_is_written w prefix gs :
  (∀ g, g ∈ gs → size (Deploy.keys g) ≠ 0%nat → writable w prefix g) →
  (Deploy.pushGroups prefix gs false w).2 = inr () ∧
  filter isSecretStore (Deploy.pushGroups prefix gs false w).1
  = filter (λ g, size (Deploy.keys g) ≠ 0%nat) gs ≫= writesOf w prefix.
Proof.
  induction gs as [|g gs IH]; intros Hw; [done|].
  destruct IH as [IHr IHt].
  { intros g' Hg'. apply Hw. by apply list_elem_of_further. }
  cbn [Deploy.pushGroups].
  destruct (decide (size (Deploy.keys g) = 0%nat)) as [He|Hne].
  - destruct (createOrUpdateSecret_empty w (prefix +:+ "/" +:+ Deploy.name g) g false He)
      as [Hr Ht].
    rewrite (bind_inr _ _ _ _ Hr). cbn [fst snd].
    split; [done|]. rewrite filter_app, Ht, IHt.
    by rewrite filter_cons_False by (intros ?; done).
  - destruct (createOrUpdateSecret_writes w prefix g Hne) as [Hr Ht].
    { apply Hw; [apply list_elem_of_here|done]. }
    rewrite (bind_inr _ _ _ _ Hr). cbn [fst snd].
    split; [done|]. rewrite filter_app, Ht, IHt.
    rewrite filter_cons_True by done. by rewrite bind_cons.
Qed.

(** *** The steps [run] of [cmd/deploy] is told to skip *)

Lemma obeys_bind_result {A B} P Q (m : IO A) (f : A → IO B) w :
  obeys P Q m w → (∀ a, (m w).2 = inr a → obeys P Q (f a) w) → obeys P Q (m ≫= f) w.
Proof.
  intros [Hm1 Hm2] Hf. unfold obeys, mbind, IO_bind.
  destruct (m w) as [t [err|a]]; simpl in *.
  - split; [done|]. intros err' [= <-]. by apply Hm2.
  - destruct (Hf a eq_refl) as [Hf1 Hf2]. destruct (f a w) as [t' r]; simpl in *.
    split; [by apply Forall_app|done].
Qed.

Lemma stdout_not_store e : isStdout e → ¬ isSecretStore e.
Proof. destruct e; simpl; tauto. Qed.

Lemma not_exec_not_bootstrap e : ¬ isExec e → ¬ isBootstrap e.
Proof. destruct e; simpl; tauto. Qed.

Lemma bootstrapCDK_no_store accountID region dryRun w :
  obeys (λ e, ¬ isSecretStore e) always (Deploy.bootstrapCDK accountID region dryRun) w.
Proof.
  unfold Deploy.bootstrapCDK.
  repeat first
    [ eapply obeys_attempt; apply runCommand_obeys; simpl; tauto
    | apply obeys_emit; simpl; tauto
    | obeys_step ]; done.
Qed.

Lemma deployCDK_only_deploys dryRun w :
  obeys (λ e, ¬ isSecretStore e ∧ ¬ isBootstrap e) always (Deploy.deployCDK dryRun) w.
Proof.
  unfold Deploy.deployCDK.
  repeat first
    [ eapply obeys_attempt; apply runCommand_obeys; simpl; tauto
    | apply runCommand_obeys; simpl; tauto
    | apply obeys_emit; simpl; tauto
    | obeys_step ]; done.
Qed.

Section Run.

Variable Join : list string → string.
Variable Base : string → string.
Variable IsAbs : string → bool.
Variable UnmarshalStackName : string → option string.

(** A step [run] is told to skip is not run: with [--skip-secrets] no
    call to the secret store is made, with [--skip-bootstrap] [cdk
    bootstrap] is not run, whatever the other flags and however the run
    ends. *)
Theorem skipped_steps_are_not_run (f : Deploy.Flags) (w : World) :
  Forall (λ e, (Deploy.skipSecrets f = true → ¬ isSecretStore e) ∧
               (Deploy.skipBootstrap f = true → ¬ isBootstrap e))
    (Deploy.run Join Base IsAbs UnmarshalStackName f w).1.
Proof.
  set (P := λ e, (Deploy.skipSecrets f = true → ¬ isSecretStore e) ∧
                 (Deploy.skipBootstrap f = true → ¬ isBootstrap e)).
  assert (∀ e, isStdout e → P e) as Hout.
  { intros e He. split; intros _; [by apply stdout_not_store|].
    by apply not_exec_not_bootstrap, stdout_not_exec. }
  assert (∀ A (m : IO A), obeys isStdout never m w → obeys P always m w) as Hquiet.
  { intros A m Hm. eapply obeys_impl; [exact Hm|exact Hout|done]. }
  assert (obeys P always (Deploy.run Join Base IsAbs UnmarshalStackName f) w) as [Ht _];
    [|exact Ht].
  unfold Deploy.run.
  repeat first
    [ apply Hquiet; apply detectProjectName_quiet
    | apply Hquiet; apply mustGetwd_quiet
    | apply obeys_emit; apply Hout; exact I
    | apply obeys_emit; split; intros _; simpl; tauto
    | apply obeys_fail; exact I
    | match goal with
      | |- obeys _ _ (wrapping _ (Deploy.pushSecrets _ _ _ _ _ _ _)) _ =>
          apply (obeys_wrapping _ always always); [|by intros]
      | |- obeys _ _ (wrapping _ (Deploy.deployCDK _)) _ =>
          apply (obeys_wrapping _ always always); [|by intros]
      | |- obeys _ _ (Deploy.pushSecrets _ _ _ _ _ _ _) _ =>
          eapply obeys_impl;
            [apply (pushSecrets_no_command Join Base IsAbs UnmarshalStackName)| |done];
          intros e He; split;
            [intros Hs; by destruct (Deploy.skipSecrets f)
            |intros _; by apply not_exec_not_bootstrap]
      | |- obeys _ _ (Deploy.bootstrapCDK _ _ _) _ =>
          eapply obeys_impl; [apply bootstrapCDK_no_store| |done];
          intros e He; split; [by intros _|intros Hs; by destruct (Deploy.skipBootstrap f)]
      | |- obeys _ _ (Deploy.deployCDK _) _ =>
          eapply obeys_impl; [apply deployCDK_only_deploys| |done];
          intros e [? ?]; split; by intros _
      end
    | obeys_step ].
Qed.

End Run.

(** *** The run of [cmd/push-secrets] *)

Ltac decide_names :=
  cbn [PushSecrets.Name];
  first [ apply list_elem_of_here
        | apply list_elem_of_further, list_elem_of_here
        | do 2 apply list_elem_of_further; apply list_elem_of_here ].

Lemma PushSecrets_categorize_quiet verbose key value groups w :
  obeys isStdout never (PushSecrets.categorize verbose key value groups) w.
Proof.
  induction groups as [|g groups IH]; simpl; [apply obeys_ret|].
  destruct (EnvFile.fileUnder _ _ _ _) as [keys' found].
  obeys_all; try exact I. apply IH.
Qed.

Lemma PushSecrets_scan_quiet verbose lines groups w :
  obeys isStdout never (PushSecrets.scan verbose lines groups) w.
Proof.
  revert groups. induction lines as [|line lines IH]; intros groups; simpl;
    [apply obeys_ret|].
  destruct (EnvFile.entry line) as [[key value]|]; [|apply IH].
  apply obeys_bind; [apply PushSecrets_categorize_quiet|]. intros ?. apply IH.
Qed.

Lemma PushSecrets_parseEnvFile_quiet filename groups verbose w :
  obeys isStdout fromFile (PushSecrets.parseEnvFile filename groups verbose) w.
Proof.
  unfold PushSecrets.parseEnvFile. obeys_all; try done.
  eapply obeys_impl; [apply PushSecrets_scan_quiet|done|done].
Qed.

Section Tool.

Variable masked : gmap string string → string.

Lemma processGroup_dry secretName group w :
  obeys isStdout never (PushSecretsRun.processGroup masked secretName group true) w.
Proof. unfold PushSecretsRun.processGroup. obeys_all; done. Qed.

Lemma processGroups_dry prefix groups w :
  obeys isStdout never (PushSecretsRun.processGroups masked prefix groups true) w.
Proof.
  induction groups as [|g groups IH]; simpl; [apply obeys_ret|].
  apply obeys_bind; [|intros _; apply IH].
  eapply obeys_wrapping; [apply processGroup_dry|done].
Qed.

(** A dry run of [cmd/push-secrets] calls nothing: it reads the file and
    prints, loads no AWS configuration and makes no call to the secret
    store; it can fail on the file only, with the error after "parsing
    env file". *)
Theorem dry_run_calls_nothing envFile region prefix verbose w :
  Forall isStdout (PushSecretsRun.run masked envFile region prefix true verbose w).1 ∧
  ∀ err, (PushSecretsRun.run masked envFile region prefix true verbose w).2 = inl err →
         ∃ msg, err = {| origin := FromFile; Error := "parsing env file: " +:+ msg |}.
Proof.
  set (Q := λ err, ∃ msg, err = {| origin := FromFile;
                                   Error := "parsing env file: " +:+ msg |}).
  assert (obeys isStdout Q (PushSecretsRun.run masked envFile region prefix true verbose) w)
    as [Ht Herr]; [|split; [exact Ht|exact Herr]].
  unfold PushSecretsRun.run. cbn [negb].
  repeat first
    [ apply obeys_emit; exact I
    | match goal with
      | |- obeys _ _ (wrapping _ (PushSecrets.parseEnvFile _ _ _)) _ =>
          eapply obeys_wrapping; [apply PushSecrets_parseEnvFile_quiet|];
          intros [o msg] Ho; unfold fromFile in Ho; simpl in Ho; subst o; by exists msg
      | |- obeys _ _ (PushSecretsRun.processGroups _ _ _ _) _ =>
          eapply obeys_impl; [apply processGroups_dry|done|done]
      end
    | obeys_step ].
Qed.

Lemma processGroup_errors secretName group dryRun w :
  obeys (λ _, True)
    (λ err, dryRun = false ∧
            ∃ step msg, step ∈ ["updating secret"; "creating secret"] ∧
                        err = {| origin := FromAWS; Error := step +:+ ": " +:+ msg |})
    (PushSecretsRun.processGroup masked secretName group dryRun) w.
Proof.
  unfold PushSecretsRun.processGroup. obeys_all; try done.
  - split; [done|]. eexists "creating secret", _. split; [|reflexivity].
    apply list_elem_of_further, list_elem_of_here.
  - split; [done|]. eexists "updating secret", _. split; [|reflexivity].
    apply list_elem_of_here.
Qed.

Lemma processGroups_errors prefix groups dryRun w :
  Forall (λ g, PushSecrets.Name g ∈ ["llm"; "search"; "config"]) groups →
  obeys (λ _, True) (namesTheStep prefix dryRun)
    (PushSecretsRun.processGroups masked prefix groups dryRun) w.
Proof.
  induction 1 as [|g groups Hg _ IH]; simpl; [apply obeys_ret|].
  apply obeys_bind; [|intros _; apply IH].
  eapply obeys_wrapping; [apply processGroup_errors|].
  intros err (Hdry & step & msg & Hstep & ->). right. right. split; [done|].
  exists (PushSecrets.Name g), step, msg. split; [done|]. split; [done|].
  unfold wrap. cbn [origin Error]. by rewrite !append_assoc.
Qed.

Lemma parsed_names w filename verbose gs :
  (PushSecrets.parseEnvFile filename PushSecrets.groups verbose w).2 = inr gs →
  Forall (λ g, PushSecrets.Name g ∈ ["llm"; "search"; "config"]) gs.
Proof.
  rewrite PushSecrets_parseEnvFile_spec.
  destruct (ReadLines w filename) as [msg|[lines [msg|]]]; [done|done|].
  intros [= <-]. rewrite classify_Keys. apply Forall_fmap.
  unfold PushSecrets.groups. repeat (apply Forall_cons; split; [decide_names|]).
  apply Forall_nil_2.
Qed.

(** An error of the run of [cmd/push-secrets] names the step that failed:
    the reading of the file, the loading of the AWS configuration, or the
    update or the creation of the secret of one of the three groups under
    the prefix; in a dry run, the reading of the file only. *)
Theorem run_errors_name_the_step envFile region prefix dryRun verbose w err :
  (PushSecretsRun.run masked envFile region prefix dryRun verbose w).2 = inl err →
  namesTheStep prefix dryRun err.
Proof.
  assert (obeys (λ _, True) (namesTheStep prefix dryRun)
            (PushSecretsRun.run masked envFile region prefix dryRun verbose) w)
    as [_ Herr]; [|apply Herr].
  unfold PushSecretsRun.run.
  apply obeys_bind; [by apply obeys_emit|]. intros _.
  apply obeys_bind_result.
  { eapply obeys_wrapping;
      [eapply obeys_impl; [apply PushSecrets_parseEnvFile_quiet|done|done]|].
    intros [o msg] Ho. unfold fromFile in Ho. simpl in Ho. subst o. left. by exists msg. }
  intros gs Hgs.
  assert (Forall (λ g, PushSecrets.Name g ∈ ["llm"; "search"; "config"]) gs) as Hnames.
  { apply (parsed_names w envFile verbose). revert Hgs. unfold wrapping.
    destruct (PushSecrets.parseEnvFile _ _ _ w) as [t [e|a]]; simpl; congruence. }
  repeat first
    [ by apply obeys_emit
    | apply processGroups_errors; exact Hnames
    | match goal with
      | |- obeys _ _ (fail (wrap "loading AWS config" _)) _ =>
          apply obeys_fail; right; left; split;
          [by destruct dryRun|eexists; reflexivity]
      end
    | obeys_step ].
Qed.

(** One group, pushed by the two tools. *)
Lemma group_pushed_alike secretName g w :
  filter isSecretStore
    (PushSecretsRun.processGroup masked secretName (toGroup g) false w).1
  = filter isSecretStore (Deploy.createOrUpdateSecret secretName g false w).1 ∧
  match (PushSecretsRun.processGroup masked secretName (toGroup g) false w).2,
        (Deploy.createOrUpdateSecret secretName g false w).2 with
  | inr _, inr _ => True
  | inl err, inl err' =>
      origin err = origin err' ∧ ∃ step, Error err = step +:+ ": " +:+ Error err'
  | _, _ => False
  end.
Proof.
  unfold PushSecretsRun.processGroup, Deploy.createOrUpdateSecret.
  cbn [toGroup PushSecrets.Keys PushSecrets.Description].
  destruct (bool_decide (size (Deploy.keys g) = 0%nat)); [done|].
  unfold mbind, IO_bind, world, Println, emit, fail, mret, IO_ret, wrap.
  cbn -[String.append].
  destruct (PutSecretValue w secretName (Deploy.keys g)) as [|msg|msg];
    cbn -[String.append]; [done| |by eauto].
  destruct (CreateSecret w secretName (Deploy.description g) (Deploy.keys g));
    cbn -[String.append]; [by eauto|done].
Qed.

(** The two tools push the groups alike: the same calls to the secret
    store in the same order, and one fails when the other does, on the
    same call; the error of [cmd/push-secrets] is that of [cmd/deploy]
    with the step named before it. *)
Theorem both_tools_push_alike prefix gs w :
  filter isSecretStore
    (PushSecretsRun.processGroups masked prefix (toGroup <$> gs) false w).1
  = filter isSecretStore (Deploy.pushGroups prefix gs false w).1 ∧
  match (PushSecretsRun.processGroups masked prefix (toGroup <$> gs) false w).2,
        (Deploy.pushGroups prefix gs false w).2 with
  | inr _, inr _ => True
  | inl err, inl err' =>
      origin err = origin err' ∧ ∃ step, Error err = step +:+ ": " +:+ Error err'
  | _, _ => False
  end.
Proof.
  induction gs as [|g gs [IHt IHr]]; [done|].
  rewrite fmap_cons. cbn [PushSecretsRun.processGroups Deploy.pushGroups].
  cbn [toGroup PushSecrets.Name].
  destruct (group_pushed_alike (prefix +:+ "/" +:+ Deploy.name g) g w) as [Ht Hr].
  change (PushSecrets.Name (toGroup g)) with (Deploy.name g) in *.
  set (m := PushSecretsRun.processGroup masked (prefix +:+ "/" +:+ Deploy.name g)
              (toGroup g) false) in *.
  set (m' := Deploy.createOrUpdateSecret (prefix +:+ "/" +:+ Deploy.name g) g false) in *.
  unfold mbind, IO_bind, wrapping.
  destruct (m w) as [t [err|[]]], (m' w) as [t' [err'|[]]]; cbn [fst snd] in *; try done.
  - split; [done|]. destruct Hr as [Ho [step Hs]]. split; [done|].
    exists ("processing " +:+ prefix +:+ "/" +:+ Deploy.name g +:+ ": " +:+ step).
    unfold wrap. cbn [Error]. rewrite Hs. by rewrite !append_assoc.
  - destruct (PushSecretsRun.processGroups masked prefix (toGroup <$> gs) false w)
      as [u r], (Deploy.pushGroups prefix gs false w) as [u' r']. cbn [fst snd] in *.
    split; [by rewrite !filter_app, Ht, IHt|done].
Qed.

End Tool.

End PushFacts.

(** ** How the deployment ends *)

Module RunFacts.

Import GoStrings EnvFile CLI Pipeline Classification SideBySide PushSecretsFacts DeployFacts
  EnvFileFacts ReadingFacts PushFacts.

Lemma bind_result {A B} (m : IO A) (f : A → IO B) w :
  ((m ≫= f) w).2 = match (m w).2 with inl err => inl err | inr a => (f a w).2 end.
Proof.
  unfold mbind, IO_bind. destruct (m w) as [t [err|a]]; simpl; [done|].
  by destruct (f a w).
Qed.

Lemma world_result w : (world w).2 = inr w.
Proof. reflexivity. Qed.

Lemma emit_result e w : (emit e w).2 = inr ().
Proof. reflexivity. Qed.

Lemma Println_result line w : (Println line w).2 = inr ().
Proof. reflexivity. Qed.

Lemma ret_result {A} (a : A) w : ((mret a : IO A) w).2 = inr a.
Proof. reflexivity. Qed.

Lemma fail_result {A} err w : ((fail err : IO A) w).2 = inl err.
Proof. reflexivity. Qed.

Lemma wrapping_result {A} context (m : IO A) w :
  (wrapping context m w).2
  = match (m w).2 with inl err => inl (wrap context err) | inr a => inr a end.
Proof. unfold wrapping. by destruct (m w) as [t [err|a]]. Qed.

Lemma attempt_result {A} (m : IO A) w : (attempt m w).2 = inr (m w).2.
Proof. unfold attempt. by destruct (m w). Qed.

Ltac result_step :=
  rewrite bind_result;
  repeat first
    [ rewrite world_result | rewrite Println_result | rewrite emit_result
    | rewrite ret_result | rewrite fail_result | rewrite attempt_result ];
  cbv beta iota.

Lemma bootstrapCDK_result accountID region dryRun w :
  (Deploy.bootstrapCDK accountID region dryRun w).2 = inr ().
Proof.
  unfold Deploy.bootstrapCDK. result_step. destruct dryRun; [reflexivity|].
  result_step. by destruct (runCommand _ w).2.
Qed.

Lemma runCommand_result argv w :
  (runCommand argv w).2
  = match Run w argv with
    | Some msg => inl {| origin := FromCommand; Error := msg |}
    | None => inr ()
    end.
Proof. unfold runCommand. do 2 result_step. by destruct (Run w argv). Qed.

(** Only [cdk deploy] can fail the deploy step. *)
Lemma deployCDK_result dryRun w :
  (Deploy.deployCDK dryRun w).2
  = if dryRun then inr ()
    else match Run w ["cdk"; "deploy"; "--require-approval"; "never"] with
         | Some msg => inl {| origin := FromCommand; Error := msg |}
         | None => inr ()
         end.
Proof.
  unfold Deploy.deployCDK. do 2 result_step.
  rewrite bind_result.
  assert (∀ r : error + unit,
            (match r with
             | inl err => Println ("Warning: go mod tidy failed: " +:+ Error err)
             | inr _ => mret ()
             end w).2 = inr ()) as -> by (by intros [|]).
  destruct dryRun.
  - do 2 result_step. reflexivity.
  - result_step. apply runCommand_result.
Qed.

Section Run.

Variable Join : list string → string.
Variable Base : string → string.
Variable IsAbs : string → bool.
Variable UnmarshalStackName : string → option string.

(** [run] of [cmd/deploy] returns nil exactly when the AWS configuration
    loads, the caller's identity is known, the secret push, unless
    skipped, returns nil, and, outside dry-run mode, [cdk deploy] ends
    well.  Nothing else can fail the run: not [cdk bootstrap], not [go
    mod tidy], not [cdk diff]. *)
Theorem deploy_succeeds_iff (f : Deploy.Flags) (w : World) :
  (Deploy.run Join Base IsAbs UnmarshalStackName f w).2 = inr () ↔
  LoadDefaultConfig w (Deploy.resolveRegion f w) = None ∧
  (∃ accountID, GetCallerIdentity w = inr accountID) ∧
  (Deploy.skipSecrets f = false →
   (pushStep Join Base IsAbs UnmarshalStackName f w).2 = inr ()) ∧
  (Deploy.dryRun f = false →
   Run w ["cdk"; "deploy"; "--require-approval"; "never"] = None).
Proof.
  unfold Deploy.run, pushStep. result_step.
  rewrite bind_result.
  pose proof (projectName_pure Base UnmarshalStackName f w) as Hname.
  apply (f_equal snd) in Hname. cbn [snd] in Hname. rewrite Hname. cbv beta iota.
  generalize (projectNameOf Base UnmarshalStackName f w). intros name.
  do 3 result_step.
  rewrite bind_result.
  assert (((if negb (String.eqb name "") then Println ("Project: " +:+ name)
            else mret ()) w).2 = inr ()) as -> by (by destruct (negb _)).
  cbv beta iota. rewrite bind_result.
  pose proof (mustGetwd_pure w) as Hwd. apply (f_equal snd) in Hwd. cbn [snd] in Hwd.
  rewrite Hwd. cbv beta iota. result_step.
  rewrite bind_result.
  assert (((if Deploy.dryRun f then Println "Mode: DRY RUN (no changes will be made)"
            else mret ()) w).2 = inr ()) as -> by (by destruct (Deploy.dryRun f)).
  cbv beta iota. do 2 result_step.
  destruct (LoadDefaultConfig w (Deploy.resolveRegion f w)) as [msg|].
  { rewrite fail_result. split; [done|]. by intros [? _]. }
  result_step.
  destruct (GetCallerIdentity w) as [msg|accountID].
  { rewrite fail_result. split; [done|]. by intros (_ & [? ?] & _). }
  do 2 result_step.
  assert (∀ (m : IO unit) (k : IO unit) (P : Prop),
            (m w).2 = inr () → ((k w).2 = inr () ↔ P) →
            ((m ≫= λ _, k) w).2 = inr () ↔ P) as Hthen.
  { intros m k P Hm Hk. by rewrite bind_result, Hm. }
  assert (((if negb (Deploy.skipBootstrap f)
            then Println "=== Step 2: Bootstrap CDK ===";;
                 Deploy.bootstrapCDK accountID (Deploy.resolveRegion f w) (Deploy.dryRun f);;
                 Println ""
            else Println "=== Step 2: Skipping bootstrap (--skip-bootstrap) ===";;
                 Println "") w).2 = inr ()) as Hboot.
  { destruct (Deploy.skipBootstrap f); cbn [negb].
    - result_step. reflexivity.
    - result_step. rewrite bind_result, bootstrapCDK_result. reflexivity. }
  assert (∀ k : IO unit, (k w).2 = inr () →
            ((wrapping "deploying" (Deploy.deployCDK (Deploy.dryRun f)) ≫= λ _, k) w).2
            = inr ()
            ↔ (Deploy.dryRun f = false →
               Run w ["cdk"; "deploy"; "--require-approval"; "never"] = None)) as Hdeploy.
  { intros k Hk. rewrite bind_result, wrapping_result, deployCDK_result.
    destruct (Deploy.dryRun f); [by rewrite Hk|].
    destruct (Run w _) as [msg|]; [|by rewrite Hk].
    split; [done|]. intros H. by specialize (H eq_refl). }
  assert (((Println "";; Println "=== Deployment Complete ===";;
            (if negb (Deploy.dryRun f)
             then Println "";; Println "To get outputs:";;
                  Println ("  aws cloudformation describe-stacks --stack-name stats-agent-team --region "
                           +:+ Deploy.resolveRegion f w
                           +:+ " --query 'Stacks[0].Outputs' --no-cli-pager")
             else mret ())) w).2 = inr ()) as Hclose.
  { do 2 result_step. destruct (Deploy.dryRun f); cbn [negb]; [reflexivity|].
    do 2 result_step. reflexivity. }
  assert (∀ k : IO unit,
            ((Println "=== Step 3: Deploy ===" ≫= λ _, k) w).2 = (k w).2) as Hstep.
  { intros k. by rewrite bind_result. }
  rewrite bind_result.
  destruct (Deploy.skipSecrets f); cbn [negb].
  - assert (((Println "=== Step 1: Skipping secrets (--skip-secrets) ===";; Println "") w).2
            = inr ()) as -> by reflexivity.
    cbv beta iota. rewrite bind_result, Hboot. cbv beta iota.
    rewrite Hstep, (Hdeploy _ Hclose). split; [|by intros (_ & _ & _ & ?)].
    intros H. split; [done|]. split; [by eexists|]. split; [done|exact H].
  - rewrite bind_result, Println_result. cbv beta iota.
    rewrite bind_result, wrapping_result.
    destruct (Deploy.pushSecrets Join IsAbs _ _ _ _ _ w).2 as [err|[]].
    { split; [done|]. intros (_ & _ & H & _). by specialize (H eq_refl). }
    cbv beta iota. rewrite Println_result. cbv beta iota.
    rewrite bind_result, Hboot. cbv beta iota.
    rewrite Hstep, (Hdeploy _ Hclose). split; [|by intros (_ & _ & _ & ?)].
    intros H. split; [done|]. split; [by eexists|]. split; [done|exact H].
Qed.

End Run.

End RunFacts.

(** ** Sample readings and pushes *)

Module ToolExamples.

Import GoStrings EnvFile EnvLines CLI Pipeline Classification SideBySide Worlds
  PushSecretsFacts DeployFacts EnvFileFacts ReadingFacts PushFacts.

Lemma assignedTwice_read :
  ∃ t result,
    PushSecrets.parseEnvFile ".env" PushSecrets.groups false (fileWorld assignedTwice)
    = (t, inr result).
Proof. eexists _, _. vm_compute. reflexivity. Qed.

(** A file that assigns [OPENAI_API_KEY] twice: the second value is kept. *)
Lemma last_assignment_wins_witness :
  ReadLines (fileWorld assignedTwice) ".env"
  = inr (["OPENAI_API_KEY=sk-old"] ++ "export OPENAI_API_KEY='sk-new'" :: ["LLM_MODEL=gpt-4"],
         None) ∧
  entry "export OPENAI_API_KEY='sk-new'" = Some ("OPENAI_API_KEY", "sk-new") ∧
  ∃ t result,
    PushSecrets.parseEnvFile ".env" PushSecrets.groups false (fileWorld assignedTwice)
    = (t, inr result) ∧
    ∀ g, g ∈ result → "OPENAI_API_KEY" ∈ PushSecrets.Patterns g →
         PushSecrets.Keys g !! "OPENAI_API_KEY" = Some "sk-new".
Proof.
  split; [reflexivity|]. split; [vm_compute; reflexivity|].
  refine (last_assignment_wins (fileWorld assignedTwice) ".env" false
            ["OPENAI_API_KEY=sk-old"] "export OPENAI_API_KEY='sk-new'" ["LLM_MODEL=gpt-4"]
            "OPENAI_API_KEY" "sk-new" eq_refl _ _).
  - vm_compute. reflexivity.
  - intros l v Hl He. apply list_elem_of_singleton in Hl. subst l.
    vm_compute in He. discriminate He.
Defined.

Lemma fourKeys_parsed :
  ∃ t gs, Deploy.parseEnvFile ".env" Deploy.groups false (fileWorld fourKeys) = (t, inr gs).
Proof. eexists _, _. vm_compute. reflexivity. Qed.

(** The values read from the file of four keys. *)
Lemma held_values_are_real_witness :
  ∃ t gs,
    ReadLines (fileWorld fourKeys) ".env" = inr (fourKeys, None) ∧
    Deploy.parseEnvFile ".env" Deploy.groups false (fileWorld fourKeys) = (t, inr gs) ∧
    ∀ g k v, g ∈ gs → Deploy.keys g !! k = Some v →
      v ≠ "" ∧ HasPrefix v "your-" = false ∧ Trim v quotes = v ∧
      k ∈ Deploy.patterns g ∧ ∃ line, line ∈ fourKeys ∧ entry line = Some (k, v).
Proof.
  destruct fourKeys_parsed as (t & gs & H). exists t, gs.
  split; [reflexivity|]. split; [exact H|].
  exact (held_values_are_real (fileWorld fourKeys) ".env" false fourKeys t gs eq_refl H).
Defined.

(** A push from a directory without an env file. *)
Lemma missing_env_file_skips_push_witness :
  (Stat emptyDir ".env" = StatNotExist ∧
   (isAbs ".env" = false → Stat emptyDir (joinPath [".."; ".env"]) ≠ StatOk)) ∧
  Deploy.pushSecrets joinPath isAbs ".env" "stats-agent" "demo" false false emptyDir
  = ([Stdout "Warning: .env not found, skipping secrets push"], inr ()).
Proof.
  assert (Stat emptyDir ".env" = StatNotExist ∧
          (isAbs ".env" = false → Stat emptyDir (joinPath [".."; ".env"]) ≠ StatOk)) as H.
  { split; [reflexivity|]. intros _ Hs. discriminate Hs. }
  split; [exact H|].
  exact (missing_env_file_skips_push joinPath isAbs ".env" "stats-agent" "demo" false false
           emptyDir H).
Defined.

Lemma oneKey_writable g :
  g ∈ oneKey → size (Deploy.keys g) ≠ 0%nat → writable newStore "stats-agent" g.
Proof.
  intros Hg _. unfold oneKey in Hg.
  repeat (apply elem_of_cons in Hg as [->|Hg]; [reflexivity|]).
  by apply elem_of_nil in Hg.
Qed.

(** A push to a store that knows none of the secrets: the group that
    holds a key is created, the empty one is left alone. *)
Lemma every_group_with_keys_is_written_witness :
  (∀ g, g ∈ oneKey → size (Deploy.keys g) ≠ 0%nat → writable newStore "stats-agent" g) ∧
  (Deploy.pushGroups "stats-agent" oneKey false newStore).2 = inr () ∧
  filter isSecretStore (Deploy.pushGroups "stats-agent" oneKey false newStore).1
  = filter (λ g, size (Deploy.keys g) ≠ 0%nat) oneKey ≫= writesOf newStore "stats-agent".
Proof.
  split; [exact oneKey_writable|].
  exact (every_group_with_keys_is_written newStore "stats-agent" oneKey oneKey_writable).
Defined.

(** The calls of that push. *)
Example oneKey_pushed :
  filter (λ g, size (Deploy.keys g) ≠ 0%nat) oneKey ≫= writesOf newStore "stats-agent"
  = [ SMPutSecretValue "stats-agent/llm" {[ "OPENAI_API_KEY" := "sk-123" ]};
      SMCreateSecret "stats-agent/llm" "LLM provider API keys"
        {[ "OPENAI_API_KEY" := "sk-123" ]} ].
Proof. vm_compute. reflexivity. Qed.

Lemma refused_write :
  (PushSecretsRun.run hidden ".env" "eu-west-1" "stats-agent" false false secretStoreDown).2
  = inl {| origin := FromAWS;
           Error := "processing stats-agent/llm: updating secret: AccessDeniedException" |}.
Proof. vm_compute. reflexivity. Qed.

(** A run of [cmd/push-secrets] against a store that refuses the write. *)
Lemma run_errors_name_the_step_witness :
  (PushSecretsRun.run hidden ".env" "eu-west-1" "stats-agent" false false secretStoreDown).2
  = inl {| origin := FromAWS;
           Error := "processing stats-agent/llm: updating secret: AccessDeniedException" |} ∧
  namesTheStep "stats-agent" false
    {| origin := FromAWS;
       Error := "processing stats-agent/llm: updating secret: AccessDeniedException" |}.
Proof.
  split; [exact refused_write|].
  exact (run_errors_name_the_step hidden ".env" "eu-west-1" "stats-agent" false false
           secretStoreDown _ refused_write).
Defined.

End ToolExamples.
